(** * ImuCameraCalibrator: the spline initialisation pipeline

    A shallow embedding of [ImuCameraCalibrator::InitSpline],
    [InitializeGravity], [Optimize], [ToTheiaReconDataset] and [ClearSpline],
    and of [StringToBoardType], and the properties of their time
    bookkeeping: the window [t0, t_end), the nanosecond conversions, the knot
    counts, the line delay, the residuals, the gravity search and the export.
    Line numbers are those of the source file of the member functions.

    - C++ [double] is IEEE 754 binary64: Rocq's primitive [float].
    - [int64_t] is [Z]; a conversion or an operation that leaves the range is
      undefined behaviour and is an outcome of the model, as are a null
      dereference, an index out of range and a division by zero.
    - The member functions are written in a state-and-outcome monad over the
      record of the class members.
    - Sophus, theia and the spline trajectory are external: their operations
      are the fields of the classes [Geometry] and [Solver].
    - Writes to [std::cout] and to the log are left out. *)

From Stdlib Require Import ZArith NArith List Bool Lia Floats QArith Qround Qabs.
From Stdlib Require Import Sorting.Permutation Sorting.Sorted.
From Stdlib Require String.
Import ListNotations.

Set Warnings "-inexact-float".
Open Scope Z_scope.

(** ** Doubles and 64-bit integers *)

Module Double.

Definition INT64_MIN : Z := - 2 ^ 63.
Definition INT64_MAX : Z := 2 ^ 63 - 1.

Definition in_int64 (z : Z) : bool := (INT64_MIN <=? z) && (z <=? INT64_MAX).

Definition SFis_nan (f : spec_float) : bool :=
  match f with S754_nan => true | _ => false end.

(** The integer part of a floating-point value (rounding toward zero);
    [None] for an infinity or a NaN. *)
Definition SFtrunc (f : spec_float) : option Z :=
  match f with
  | S754_zero _ => Some 0
  | S754_finite s m e =>
      let v := if 0 <=? e then Z.shiftl (Zpos m) e else Z.shiftr (Zpos m) (- e) in
      Some (if s then - v else v)
  | S754_infinity _ | S754_nan => None
  end.

(** [static_cast<int64_t>(x)] and the implicit conversion of a [double] to
    [int64_t]: truncation; undefined ([None]) when the truncated value is
    not representable. *)
Definition to_int64 (x : float) : option Z :=
  match SFtrunc (Prim2SF x) with
  | Some z => if in_int64 z then Some z else None
  | None => None
  end.

(** Conversion of an integer to [double] (round to nearest even). *)
Definition of_int (z : Z) : float :=
  SF2Prim (binary_normalize prec emax z 0 false).

(** The exact rational value of a finite double. *)
Definition to_Q (x : float) : option Q :=
  match Prim2SF x with
  | S754_zero _ => Some 0%Q
  | S754_finite s m e =>
      let v := if 0 <=? e then inject_Z (Z.shiftl (Zpos m) e)
               else Qmake (Zpos m) (Z.to_pos (2 ^ (- e))) in
      Some (if s then Qopp v else v)
  | S754_infinity _ | S754_nan => None
  end.

End Double.

(** ** Standard algorithms and containers *)

(** [std::sort] on a vector of doubles with [operator<].  The standard fixes
    the result up to the order of equivalent elements; the model is the
    insertion sort that keeps equivalent elements in their order. *)
Fixpoint sort_insert (x : float) (l : list float) : list float :=
  match l with
  | [] => [x]
  | y :: l' => if (y <? x)%float then y :: sort_insert x l' else x :: l
  end.

Definition std_sort (l : list float) : list float :=
  fold_right sort_insert [] l.

(** [std::minmax_element]: the positions of the first smallest and of the
    last largest element; both are the end position on an empty range. *)
Fixpoint minmax_scan (l : list float) (i : nat)
    (imin : nat) (vmin : float) (imax : nat) (vmax : float) : nat * nat :=
  match l with
  | [] => (imin, imax)
  | x :: l' =>
      let '(imin', vmin') := if (x <? vmin)%float then (i, x) else (imin, vmin) in
      let '(imax', vmax') := if (x <? vmax)%float then (imax, vmax) else (i, x) in
      minmax_scan l' (S i) imin' vmin' imax' vmax'
  end.

Definition minmax_element (l : list float) : nat * nat :=
  match l with
  | [] => (0%nat, 0%nat)
  | x :: l' => minmax_scan l' 1 0 x 0 x
  end.

(** An ordered associative container ([std::map]) as an association list
    kept in the order of its comparison [less]. *)
Section StdMap.
Context {K V : Type} (less : K -> K -> bool).

(** [m[k] = v]: the entry of an equivalent key is overwritten (its key
    stays), otherwise the pair is inserted at its place. *)
Fixpoint map_assign (k : K) (v : V) (m : list (K * V)) : list (K * V) :=
  match m with
  | [] => [(k, v)]
  | (k', v') :: m' =>
      if less k k' then (k, v) :: m
      else if less k' k then (k', v') :: map_assign k v m'
      else (k', v) :: m'
  end.

(** [m.find(k)]: the value of the entry with an equivalent key. *)
Fixpoint map_find (k : K) (m : list (K * V)) : option V :=
  match m with
  | [] => None
  | (k', v') :: m' =>
      if less k k' || less k' k then map_find k m' else Some v'
  end.
End StdMap.

(** ** Values handed in by the external libraries *)

Record Vector2d := { px : float; py : float }.
Record Vector3d := { vx : float; vy : float; vz : float }.

(** [Eigen::Vector3d::operator+]. *)
Definition vec_add (a b : Vector3d) : Vector3d :=
  {| vx := vx a + vx b; vy := vy a + vy b; vz := vz a + vz b |}%float.

(** Sophus' rigid transforms and Eigen's 3x3 matrices, and the template
    parameter of the spline.  None of them is defined in the calibrator's
    translation unit: they are parameters of the model. *)
Class Geometry := {
  Matrix3d : Type;
  SE3 : Type;
  (** [Matrix3d::transpose()] *)
  mat_transpose : Matrix3d -> Matrix3d;
  (** [Sophus::SE3<double>(R, t)] *)
  SE3_make : Matrix3d -> Vector3d -> SE3;
  (** [Sophus::SE3d::operator*] *)
  SE3_mul : SE3 -> SE3 -> SE3;
  (** [Sophus::SE3d::inverse()] *)
  SE3_inverse : SE3 -> SE3;
  (** [T.so3() * v]: the rotation part of [T] applied to [v] *)
  SO3_apply : SE3 -> Vector3d -> Vector3d;
  (** the spline order [SPLINE_N] *)
  SPLINE_N : Z
}.

Definition ViewId := N.
Definition TrackId := N.

Section DataModel.
Context {G : Geometry}.

(** theia's camera, view and reconstruction, as far as the calibrator
    reads them. *)
Record Camera := {
  GetOrientationAsRotationMatrix : Matrix3d;
  GetPosition : Vector3d;
  ImageHeight : Z
}.

Record View := {
  GetTimestamp : float;
  TrackIds : list TrackId;
  (** a null pointer ([None]) when the view does not see the track *)
  GetFeature : TrackId -> option Vector2d;
  GetCamera : Camera
}.

Record Reconstruction := {
  ViewIds : list ViewId;
  (** [Reconstruction::View(id)]: a null pointer ([None]) for an unknown id *)
  GetView : ViewId -> option View
}.

Record ImuReadings := {
  timestamp_ms : list float;
  measurement : list Vector3d
}.

Record CameraTelemetryData := {
  accelerometer : ImuReadings;
  gyroscope : ImuReadings
}.

Record SplineWeightingData := {
  dt_so3 : float;
  dt_r3 : float;
  var_so3 : float;
  var_r3 : float;
  cam_fps : float
}.

Record TimeCamId := { frame_id : Z; cam_id : Z }.

(** Modelled from the spec: the header that declares [TimeCamId] is absent;
    "equality/ordering is lexicographic on (timestamp, index)". *)
Definition TimeCamId_less (a b : TimeCamId) : bool :=
  (frame_id a <? frame_id b)
  || ((frame_id a =? frame_id b) && (cam_id a <? cam_id b)).

Record CalibCornerData := {
  corners : list Vector2d;
  track_ids : list TrackId
}.

Record CalibInitPoseData := { T_a_c : SE3 }.

(** Modelled from the spec: the measurement maps are "ordered-by-time
    associative containers" keyed by [TimeCamId], and by the corrected
    timestamp for the inertial samples. *)
Definition CalibCornerMap := list (TimeCamId * CalibCornerData).
Definition CalibInitPoseMap := list (TimeCamId * CalibInitPoseData).
Definition ImuMeasurementMap := list (float * Vector3d).

(** Modelled from the spec: the continuous-time trajectory
    ([CeresCalibrationSplineSplit]) is absent.  It "owns" the line delay,
    the epoch and knot spacings, the camera-to-IMU estimate, the knots, the
    gravity vector and the accumulated residual blocks; the model records
    what the calibrator hands to it.  [None] is a quantity not set since
    construction or [Clear]. *)
Inductive Residual :=
| RSCornersResidual (corner_data : CalibCornerData) (cam : Camera) (time_ns : Z)
| AccelResidual (meas : Vector3d) (time_ns : Z) (weight : float) (calib_bias : bool)
| GyroResidual (meas : Vector3d) (time_ns : Z) (weight : float) (calib_bias : bool).

Record Trajectory := {
  rs_line_delay : option float;
  knot_times : option (Z * Z * Z);
  calib : option Reconstruction;
  T_i_c : option SE3;
  knots : option (CalibInitPoseMap * Z * Z);
  residuals : list Residual;
  g : option Vector3d
}.

(** Modelled from the spec: "resets the Trajectory to an empty state". *)
Definition Trajectory_empty : Trajectory :=
  {| rs_line_delay := None; knot_times := None; calib := None; T_i_c := None;
     knots := None; residuals := []; g := None |}.

Definition SetInitialRSLineDelay (d : float) (t : Trajectory) : Trajectory :=
  {| rs_line_delay := Some d; knot_times := knot_times t; calib := calib t;
     T_i_c := T_i_c t; knots := knots t; residuals := residuals t; g := g t |}.

Definition init_times (dt_so3_ns dt_r3_ns start_t_ns : Z) (t : Trajectory) : Trajectory :=
  {| rs_line_delay := rs_line_delay t;
     knot_times := Some (dt_so3_ns, dt_r3_ns, start_t_ns); calib := calib t;
     T_i_c := T_i_c t; knots := knots t; residuals := residuals t; g := g t |}.

Definition setCalib (r : Reconstruction) (t : Trajectory) : Trajectory :=
  {| rs_line_delay := rs_line_delay t; knot_times := knot_times t; calib := Some r;
     T_i_c := T_i_c t; knots := knots t; residuals := residuals t; g := g t |}.

Definition setT_i_c (T : SE3) (t : Trajectory) : Trajectory :=
  {| rs_line_delay := rs_line_delay t; knot_times := knot_times t; calib := calib t;
     T_i_c := Some T; knots := knots t; residuals := residuals t; g := g t |}.

Definition initAll (poses : CalibInitPoseMap) (n_so3 n_r3 : Z) (t : Trajectory) : Trajectory :=
  {| rs_line_delay := rs_line_delay t; knot_times := knot_times t; calib := calib t;
     T_i_c := T_i_c t; knots := Some (poses, n_so3, n_r3);
     residuals := residuals t; g := g t |}.

Definition addResidual (r : Residual) (t : Trajectory) : Trajectory :=
  {| rs_line_delay := rs_line_delay t; knot_times := knot_times t; calib := calib t;
     T_i_c := T_i_c t; knots := knots t; residuals := residuals t ++ [r]; g := g t |}.

Definition setG (v : Vector3d) (t : Trajectory) : Trajectory :=
  {| rs_line_delay := rs_line_delay t; knot_times := knot_times t; calib := calib t;
     T_i_c := T_i_c t; knots := knots t; residuals := residuals t; g := Some v |}.

(** The solver and the error metrics of the trajectory: parameters. *)
Class Solver := {
  (** [trajectory_.optimize(iterations)]: the trajectory after the solve *)
  optimize : Z -> Trajectory -> Trajectory;
  meanReprojection : Trajectory -> CalibCornerMap -> float;
  meanRSReprojection : Trajectory -> CalibCornerMap -> float
}.

(** ** The members of [ImuCameraCalibrator] *)

Record ImuCameraCalibrator := {
  spline_weight_data_ : SplineWeightingData;
  T_i_c_init_ : SE3;
  cam_timestamps_ : list float;
  calibrate_cam_line_delay_ : bool;
  reestimate_biases_ : bool;
  inital_cam_line_delay_s_ : float;
  t0_s_ : float;
  tend_s_ : float;
  nr_knots_so3_ : Z;
  nr_knots_r3_ : Z;
  calib_corners_ : CalibCornerMap;
  calib_init_poses_ : CalibInitPoseMap;
  spline_init_poses_ : CalibInitPoseMap;
  accl_measurements : ImuMeasurementMap;
  gyro_measurements : ImuMeasurementMap;
  gravity_initialized_ : bool;
  gravity_init_ : Vector3d;
  trajectory_ : Trajectory
}.

End DataModel.

(** ** Assignments to the members *)

Section Members.
Context {G : Geometry}.

Definition set_spline_weight_data_ (x : SplineWeightingData) (s : ImuCameraCalibrator) : ImuCameraCalibrator :=
  {| spline_weight_data_ := x; T_i_c_init_ := T_i_c_init_ s;
     cam_timestamps_ := cam_timestamps_ s;
     calibrate_cam_line_delay_ := calibrate_cam_line_delay_ s;
     reestimate_biases_ := reestimate_biases_ s;
     inital_cam_line_delay_s_ := inital_cam_line_delay_s_ s; t0_s_ := t0_s_ s;
     tend_s_ := tend_s_ s; nr_knots_so3_ := nr_knots_so3_ s;
     nr_knots_r3_ := nr_knots_r3_ s; calib_corners_ := calib_corners_ s;
     calib_init_poses_ := calib_init_poses_ s;
     spline_init_poses_ := spline_init_poses_ s;
     accl_measurements := accl_measurements s;
     gyro_measurements := gyro_measurements s;
     gravity_initialized_ := gravity_initialized_ s;
     gravity_init_ := gravity_init_ s; trajectory_ := trajectory_ s |}.

Definition set_T_i_c_init_ (x : SE3) (s : ImuCameraCalibrator) : ImuCameraCalibrator :=
  {| spline_weight_data_ := spline_weight_data_ s; T_i_c_init_ := x;
     cam_timestamps_ := cam_timestamps_ s;
     calibrate_cam_line_delay_ := calibrate_cam_line_delay_ s;
     reestimate_biases_ := reestimate_biases_ s;
     inital_cam_line_delay_s_ := inital_cam_line_delay_s_ s; t0_s_ := t0_s_ s;
     tend_s_ := tend_s_ s; nr_knots_so3_ := nr_knots_so3_ s;
     nr_knots_r3_ := nr_knots_r3_ s; calib_corners_ := calib_corners_ s;
     calib_init_poses_ := calib_init_poses_ s;
     spline_init_poses_ := spline_init_poses_ s;
     accl_measurements := accl_measurements s;
     gyro_measurements := gyro_measurements s;
     gravity_initialized_ := gravity_initialized_ s;
     gravity_init_ := gravity_init_ s; trajectory_ := trajectory_ s |}.

Definition set_cam_timestamps_ (x : list float) (s : ImuCameraCalibrator) : ImuCameraCalibrator :=
  {| spline_weight_data_ := spline_weight_data_ s; T_i_c_init_ := T_i_c_init_ s;
     cam_timestamps_ := x;
     calibrate_cam_line_delay_ := calibrate_cam_line_delay_ s;
     reestimate_biases_ := reestimate_biases_ s;
     inital_cam_line_delay_s_ := inital_cam_line_delay_s_ s; t0_s_ := t0_s_ s;
     tend_s_ := tend_s_ s; nr_knots_so3_ := nr_knots_so3_ s;
     nr_knots_r3_ := nr_knots_r3_ s; calib_corners_ := calib_corners_ s;
     calib_init_poses_ := calib_init_poses_ s;
     spline_init_poses_ := spline_init_poses_ s;
     accl_measurements := accl_measurements s;
     gyro_measurements := gyro_measurements s;
     gravity_initialized_ := gravity_initialized_ s;
     gravity_init_ := gravity_init_ s; trajectory_ := trajectory_ s |}.

Definition set_inital_cam_line_delay_s_ (x : float) (s : ImuCameraCalibrator) : ImuCameraCalibrator :=
  {| spline_weight_data_ := spline_weight_data_ s; T_i_c_init_ := T_i_c_init_ s;
     cam_timestamps_ := cam_timestamps_ s;
     calibrate_cam_line_delay_ := calibrate_cam_line_delay_ s;
     reestimate_biases_ := reestimate_biases_ s; inital_cam_line_delay_s_ := x;
     t0_s_ := t0_s_ s; tend_s_ := tend_s_ s; nr_knots_so3_ := nr_knots_so3_ s;
     nr_knots_r3_ := nr_knots_r3_ s; calib_corners_ := calib_corners_ s;
     calib_init_poses_ := calib_init_poses_ s;
     spline_init_poses_ := spline_init_poses_ s;
     accl_measurements := accl_measurements s;
     gyro_measurements := gyro_measurements s;
     gravity_initialized_ := gravity_initialized_ s;
     gravity_init_ := gravity_init_ s; trajectory_ := trajectory_ s |}.

Definition set_t0_s_ (x : float) (s : ImuCameraCalibrator) : ImuCameraCalibrator :=
  {| spline_weight_data_ := spline_weight_data_ s; T_i_c_init_ := T_i_c_init_ s;
     cam_timestamps_ := cam_timestamps_ s;
     calibrate_cam_line_delay_ := calibrate_cam_line_delay_ s;
     reestimate_biases_ := reestimate_biases_ s;
     inital_cam_line_delay_s_ := inital_cam_line_delay_s_ s; t0_s_ := x;
     tend_s_ := tend_s_ s; nr_knots_so3_ := nr_knots_so3_ s;
     nr_knots_r3_ := nr_knots_r3_ s; calib_corners_ := calib_corners_ s;
     calib_init_poses_ := calib_init_poses_ s;
     spline_init_poses_ := spline_init_poses_ s;
     accl_measurements := accl_measurements s;
     gyro_measurements := gyro_measurements s;
     gravity_initialized_ := gravity_initialized_ s;
     gravity_init_ := gravity_init_ s; trajectory_ := trajectory_ s |}.

Definition set_tend_s_ (x : float) (s : ImuCameraCalibrator) : ImuCameraCalibrator :=
  {| spline_weight_data_ := spline_weight_data_ s; T_i_c_init_ := T_i_c_init_ s;
     cam_timestamps_ := cam_timestamps_ s;
     calibrate_cam_line_delay_ := calibrate_cam_line_delay_ s;
     reestimate_biases_ := reestimate_biases_ s;
     inital_cam_line_delay_s_ := inital_cam_line_delay_s_ s; t0_s_ := t0_s_ s;
     tend_s_ := x; nr_knots_so3_ := nr_knots_so3_ s;
     nr_knots_r3_ := nr_knots_r3_ s; calib_corners_ := calib_corners_ s;
     calib_init_poses_ := calib_init_poses_ s;
     spline_init_poses_ := spline_init_poses_ s;
     accl_measurements := accl_measurements s;
     gyro_measurements := gyro_measurements s;
     gravity_initialized_ := gravity_initialized_ s;
     gravity_init_ := gravity_init_ s; trajectory_ := trajectory_ s |}.

Definition set_nr_knots_so3_ (x : Z) (s : ImuCameraCalibrator) : ImuCameraCalibrator :=
  {| spline_weight_data_ := spline_weight_data_ s; T_i_c_init_ := T_i_c_init_ s;
     cam_timestamps_ := cam_timestamps_ s;
     calibrate_cam_line_delay_ := calibrate_cam_line_delay_ s;
     reestimate_biases_ := reestimate_biases_ s;
     inital_cam_line_delay_s_ := inital_cam_line_delay_s_ s; t0_s_ := t0_s_ s;
     tend_s_ := tend_s_ s; nr_knots_so3_ := x; nr_knots_r3_ := nr_knots_r3_ s;
     calib_corners_ := calib_corners_ s; calib_init_poses_ := calib_init_poses_ s;
     spline_init_poses_ := spline_init_poses_ s;
     accl_measurements := accl_measurements s;
     gyro_measurements := gyro_measurements s;
     gravity_initialized_ := gravity_initialized_ s;
     gravity_init_ := gravity_init_ s; trajectory_ := trajectory_ s |}.

Definition set_nr_knots_r3_ (x : Z) (s : ImuCameraCalibrator) : ImuCameraCalibrator :=
  {| spline_weight_data_ := spline_weight_data_ s; T_i_c_init_ := T_i_c_init_ s;
     cam_timestamps_ := cam_timestamps_ s;
     calibrate_cam_line_delay_ := calibrate_cam_line_delay_ s;
     reestimate_biases_ := reestimate_biases_ s;
     inital_cam_line_delay_s_ := inital_cam_line_delay_s_ s; t0_s_ := t0_s_ s;
     tend_s_ := tend_s_ s; nr_knots_so3_ := nr_knots_so3_ s; nr_knots_r3_ := x;
     calib_corners_ := calib_corners_ s; calib_init_poses_ := calib_init_poses_ s;
     spline_init_poses_ := spline_init_poses_ s;
     accl_measurements := accl_measurements s;
     gyro_measurements := gyro_measurements s;
     gravity_initialized_ := gravity_initialized_ s;
     gravity_init_ := gravity_init_ s; trajectory_ := trajectory_ s |}.

Definition set_calib_corners_ (x : CalibCornerMap) (s : ImuCameraCalibrator) : ImuCameraCalibrator :=
  {| spline_weight_data_ := spline_weight_data_ s; T_i_c_init_ := T_i_c_init_ s;
     cam_timestamps_ := cam_timestamps_ s;
     calibrate_cam_line_delay_ := calibrate_cam_line_delay_ s;
     reestimate_biases_ := reestimate_biases_ s;
     inital_cam_line_delay_s_ := inital_cam_line_delay_s_ s; t0_s_ := t0_s_ s;
     tend_s_ := tend_s_ s; nr_knots_so3_ := nr_knots_so3_ s;
     nr_knots_r3_ := nr_knots_r3_ s; calib_corners_ := x;
     calib_init_poses_ := calib_init_poses_ s;
     spline_init_poses_ := spline_init_poses_ s;
     accl_measurements := accl_measurements s;
     gyro_measurements := gyro_measurements s;
     gravity_initialized_ := gravity_initialized_ s;
     gravity_init_ := gravity_init_ s; trajectory_ := trajectory_ s |}.

Definition set_calib_init_poses_ (x : CalibInitPoseMap) (s : ImuCameraCalibrator) : ImuCameraCalibrator :=
  {| spline_weight_data_ := spline_weight_data_ s; T_i_c_init_ := T_i_c_init_ s;
     cam_timestamps_ := cam_timestamps_ s;
     calibrate_cam_line_delay_ := calibrate_cam_line_delay_ s;
     reestimate_biases_ := reestimate_biases_ s;
     inital_cam_line_delay_s_ := inital_cam_line_delay_s_ s; t0_s_ := t0_s_ s;
     tend_s_ := tend_s_ s; nr_knots_so3_ := nr_knots_so3_ s;
     nr_knots_r3_ := nr_knots_r3_ s; calib_corners_ := calib_corners_ s;
     calib_init_poses_ := x; spline_init_poses_ := spline_init_poses_ s;
     accl_measurements := accl_measurements s;
     gyro_measurements := gyro_measurements s;
     gravity_initialized_ := gravity_initialized_ s;
     gravity_init_ := gravity_init_ s; trajectory_ := trajectory_ s |}.

Definition set_spline_init_poses_ (x : CalibInitPoseMap) (s : ImuCameraCalibrator) : ImuCameraCalibrator :=
  {| spline_weight_data_ := spline_weight_data_ s; T_i_c_init_ := T_i_c_init_ s;
     cam_timestamps_ := cam_timestamps_ s;
     calibrate_cam_line_delay_ := calibrate_cam_line_delay_ s;
     reestimate_biases_ := reestimate_biases_ s;
     inital_cam_line_delay_s_ := inital_cam_line_delay_s_ s; t0_s_ := t0_s_ s;
     tend_s_ := tend_s_ s; nr_knots_so3_ := nr_knots_so3_ s;
     nr_knots_r3_ := nr_knots_r3_ s; calib_corners_ := calib_corners_ s;
     calib_init_poses_ := calib_init_poses_ s; spline_init_poses_ := x;
     accl_measurements := accl_measurements s;
     gyro_measurements := gyro_measurements s;
     gravity_initialized_ := gravity_initialized_ s;
     gravity_init_ := gravity_init_ s; trajectory_ := trajectory_ s |}.

Definition set_accl_measurements (x : ImuMeasurementMap) (s : ImuCameraCalibrator) : ImuCameraCalibrator :=
  {| spline_weight_data_ := spline_weight_data_ s; T_i_c_init_ := T_i_c_init_ s;
     cam_timestamps_ := cam_timestamps_ s;
     calibrate_cam_line_delay_ := calibrate_cam_line_delay_ s;
     reestimate_biases_ := reestimate_biases_ s;
     inital_cam_line_delay_s_ := inital_cam_line_delay_s_ s; t0_s_ := t0_s_ s;
     tend_s_ := tend_s_ s; nr_knots_so3_ := nr_knots_so3_ s;
     nr_knots_r3_ := nr_knots_r3_ s; calib_corners_ := calib_corners_ s;
     calib_init_poses_ := calib_init_poses_ s;
     spline_init_poses_ := spline_init_poses_ s; accl_measurements := x;
     gyro_measurements := gyro_measurements s;
     gravity_initialized_ := gravity_initialized_ s;
     gravity_init_ := gravity_init_ s; trajectory_ := trajectory_ s |}.

Definition set_gyro_measurements (x : ImuMeasurementMap) (s : ImuCameraCalibrator) : ImuCameraCalibrator :=
  {| spline_weight_data_ := spline_weight_data_ s; T_i_c_init_ := T_i_c_init_ s;
     cam_timestamps_ := cam_timestamps_ s;
     calibrate_cam_line_delay_ := calibrate_cam_line_delay_ s;
     reestimate_biases_ := reestimate_biases_ s;
     inital_cam_line_delay_s_ := inital_cam_line_delay_s_ s; t0_s_ := t0_s_ s;
     tend_s_ := tend_s_ s; nr_knots_so3_ := nr_knots_so3_ s;
     nr_knots_r3_ := nr_knots_r3_ s; calib_corners_ := calib_corners_ s;
     calib_init_poses_ := calib_init_poses_ s;
     spline_init_poses_ := spline_init_poses_ s;
     accl_measurements := accl_measurements s; gyro_measurements := x;
     gravity_initialized_ := gravity_initialized_ s;
     gravity_init_ := gravity_init_ s; trajectory_ := trajectory_ s |}.

Definition set_gravity_initialized_ (x : bool) (s : ImuCameraCalibrator) : ImuCameraCalibrator :=
  {| spline_weight_data_ := spline_weight_data_ s; T_i_c_init_ := T_i_c_init_ s;
     cam_timestamps_ := cam_timestamps_ s;
     calibrate_cam_line_delay_ := calibrate_cam_line_delay_ s;
     reestimate_biases_ := reestimate_biases_ s;
     inital_cam_line_delay_s_ := inital_cam_line_delay_s_ s; t0_s_ := t0_s_ s;
     tend_s_ := tend_s_ s; nr_knots_so3_ := nr_knots_so3_ s;
     nr_knots_r3_ := nr_knots_r3_ s; calib_corners_ := calib_corners_ s;
     calib_init_poses_ := calib_init_poses_ s;
     spline_init_poses_ := spline_init_poses_ s;
     accl_measurements := accl_measurements s;
     gyro_measurements := gyro_measurements s; gravity_initialized_ := x;
     gravity_init_ := gravity_init_ s; trajectory_ := trajectory_ s |}.

Definition set_gravity_init_ (x : Vector3d) (s : ImuCameraCalibrator) : ImuCameraCalibrator :=
  {| spline_weight_data_ := spline_weight_data_ s; T_i_c_init_ := T_i_c_init_ s;
     cam_timestamps_ := cam_timestamps_ s;
     calibrate_cam_line_delay_ := calibrate_cam_line_delay_ s;
     reestimate_biases_ := reestimate_biases_ s;
     inital_cam_line_delay_s_ := inital_cam_line_delay_s_ s; t0_s_ := t0_s_ s;
     tend_s_ := tend_s_ s; nr_knots_so3_ := nr_knots_so3_ s;
     nr_knots_r3_ := nr_knots_r3_ s; calib_corners_ := calib_corners_ s;
     calib_init_poses_ := calib_init_poses_ s;
     spline_init_poses_ := spline_init_poses_ s;
     accl_measurements := accl_measurements s;
     gyro_measurements := gyro_measurements s;
     gravity_initialized_ := gravity_initialized_ s; gravity_init_ := x;
     trajectory_ := trajectory_ s |}.

Definition set_trajectory_ (x : Trajectory) (s : ImuCameraCalibrator) : ImuCameraCalibrator :=
  {| spline_weight_data_ := spline_weight_data_ s; T_i_c_init_ := T_i_c_init_ s;
     cam_timestamps_ := cam_timestamps_ s;
     calibrate_cam_line_delay_ := calibrate_cam_line_delay_ s;
     reestimate_biases_ := reestimate_biases_ s;
     inital_cam_line_delay_s_ := inital_cam_line_delay_s_ s; t0_s_ := t0_s_ s;
     tend_s_ := tend_s_ s; nr_knots_so3_ := nr_knots_so3_ s;
     nr_knots_r3_ := nr_knots_r3_ s; calib_corners_ := calib_corners_ s;
     calib_init_poses_ := calib_init_poses_ s;
     spline_init_poses_ := spline_init_poses_ s;
     accl_measurements := accl_measurements s;
     gyro_measurements := gyro_measurements s;
     gravity_initialized_ := gravity_initialized_ s;
     gravity_init_ := gravity_init_ s; trajectory_ := x |}.

End Members.

(** ** Outcomes of a member function *)

(** The undefined behaviours the calibrator can run into. *)
Inductive UB := NullPointer | OutOfRange | FloatToInt | DivisionByZero | IntegerOverflow.

Section Outcome.
Context {G : Geometry}.

(** A call returns, throws ([std::map::at] is the only throwing operation), or
    has undefined behaviour; each outcome carries the members as they are at
    that point. *)
Inductive outcome (A : Type) : Type :=
| Returns (a : A) (s : ImuCameraCalibrator)
| Throws (s : ImuCameraCalibrator)
| Undefined (u : UB) (s : ImuCameraCalibrator).

Arguments Returns {A} a s.
Arguments Throws {A} s.
Arguments Undefined {A} u s.

Definition M (A : Type) : Type := ImuCameraCalibrator -> outcome A.

Definition ret {A : Type} (a : A) : M A := fun s => Returns a s.

Definition bind {A B : Type} (m : M A) (k : A -> M B) : M B :=
  fun s =>
    match m s with
    | Returns a s' => k a s'
    | Throws s' => Throws s'
    | Undefined u s' => Undefined u s'
    end.

Definition gets {A : Type} (f : ImuCameraCalibrator -> A) : M A :=
  fun s => Returns (f s) s.

Definition modify (f : ImuCameraCalibrator -> ImuCameraCalibrator) : M unit :=
  fun s => Returns tt (f s).

Definition undefined {A : Type} (u : UB) : M A := fun s => Undefined u s.

Definition throw {A : Type} : M A := fun s => Throws s.

(** The members carried by an outcome. *)
Definition state_of {A : Type} (o : outcome A) : ImuCameraCalibrator :=
  match o with
  | Returns _ s => s
  | Throws s => s
  | Undefined _ s => s
  end.

(** [*p] and [p->] *)
Definition deref {A : Type} (p : option A) : M A :=
  match p with
  | Some a => ret a
  | None => undefined NullPointer
  end.

(** [v[i]] on a [std::vector] *)
Definition index {A : Type} (v : list A) (i : nat) : M A :=
  match nth_error v i with
  | Some a => ret a
  | None => undefined OutOfRange
  end.

(** [m.at(k)] *)
Definition at_key {A : Type} (found : option A) : M A :=
  match found with
  | Some a => ret a
  | None => throw
  end.

(** conversion of a [double] to [int64_t] *)
Definition to_int64 (x : float) : M Z :=
  match Double.to_int64 x with
  | Some z => ret z
  | None => undefined FloatToInt
  end.

(** signed 64-bit arithmetic *)
Definition int64_result (z : Z) : M Z :=
  if Double.in_int64 z then ret z else undefined IntegerOverflow.

Definition int64_div (a b : Z) : M Z :=
  if b =? 0 then undefined DivisionByZero else int64_result (Z.quot a b).

(** a range-based [for] *)
Fixpoint for_each {A : Type} (l : list A) (body : A -> M unit) : M unit :=
  match l with
  | [] => ret tt
  | x :: l' => bind (body x) (fun _ => for_each l' body)
  end.

(** a [for] loop that collects the dereferenced results *)
Fixpoint collect {A B : Type} (f : A -> option B) (l : list A) : M (list B) :=
  match l with
  | [] => ret []
  | x :: l' =>
      bind (deref (f x)) (fun b => bind (collect f l') (fun bs => ret (b :: bs)))
  end.

Definition modify_trajectory (f : Trajectory -> Trajectory) : M unit :=
  modify (fun s => set_trajectory_ (f (trajectory_ s)) s).

End Outcome.

Arguments Returns {G A} a s.
Arguments Throws {G A} s.
Arguments Undefined {G A} u s.

Notation "x <- m ;; k" := (bind m (fun x => k))
  (at level 61, m at next level, right associativity).
Notation "m ;; k" := (bind m (fun _ => k))
  (at level 61, right associativity).

(** ** The member functions *)

Section Calibrator.
Context {G : Geometry}.

(** The nanosecond values [InitSpline] derives (lines 61-64). *)
Record WindowNs := {
  start_t_ns : Z;
  end_t_ns : Z;
  dt_so3_ns : Z;
  dt_r3_ns : Z
}.

(** lines 34-40: the timestamps of all views, appended and sorted *)
Definition collect_timestamps (calib_dataset : Reconstruction) : M unit :=
  for_each (ViewIds calib_dataset) (fun view_id =>
    view <- deref (GetView calib_dataset view_id) ;;
    modify (fun s => set_cam_timestamps_ (cam_timestamps_ s ++ [GetTimestamp view]) s)) ;;
  modify (fun s => set_cam_timestamps_ (std_sort (cam_timestamps_ s)) s).

(** lines 42-51: the initial readout time of one image row *)
Definition init_line_delay (calib_dataset : Reconstruction)
    (spline_weight_data : SplineWeightingData) : M unit :=
  calibrate <- gets calibrate_cam_line_delay_ ;;
  (if calibrate : bool then
     view_id <- index (ViewIds calib_dataset) 0 ;;
     view <- deref (GetView calib_dataset view_id) ;;
     modify (set_inital_cam_line_delay_s_
               ((1 / cam_fps spline_weight_data)
                * (1 / Double.of_int (ImageHeight (GetCamera view))))%float)
   else modify (set_inital_cam_line_delay_s_ 0%float)) ;;
  delay <- gets inital_cam_line_delay_s_ ;;
  modify_trajectory (SetInitialRSLineDelay delay).

(** lines 56-60: the smallest and the largest camera timestamp *)
Definition find_window : M unit :=
  ts <- gets cam_timestamps_ ;;
  let result := minmax_element ts in
  t0 <- index ts (fst result) ;;
  modify (set_t0_s_ t0) ;;
  tend <- index ts (snd result) ;;
  modify (set_tend_s_ tend).

(** lines 61-71: the window and the knot spacings in nanoseconds *)
Definition init_trajectory_times (calib_dataset : Reconstruction)
    (T_i_c_init : SE3) : M WindowNs :=
  t0 <- gets t0_s_ ;;
  start_ns <- to_int64 (t0 * 1e9)%float ;;
  tend <- gets tend_s_ ;;
  end_ns <- to_int64 (tend * 1e9)%float ;;
  swd <- gets spline_weight_data_ ;;
  so3_ns <- to_int64 (dt_so3 swd * 1e9)%float ;;
  r3_ns <- to_int64 (dt_r3 swd * 1e9)%float ;;
  modify_trajectory (init_times so3_ns r3_ns start_ns) ;;
  modify_trajectory (setCalib calib_dataset) ;;
  modify_trajectory (setT_i_c T_i_c_init) ;;
  ret {| start_t_ns := start_ns; end_t_ns := end_ns;
         dt_so3_ns := so3_ns; dt_r3_ns := r3_ns |}.

(** lines 73-97, the body of the loop over the views *)
Definition ingest_view (calib_dataset : Reconstruction) (T_i_c_init : SE3)
    (view_id : ViewId) : M unit :=
  view <- deref (GetView calib_dataset view_id) ;;
  let timestamp := GetTimestamp view in
  tend <- gets tend_s_ ;;
  t0 <- gets t0_s_ ;;
  if ((tend <=? timestamp) || (timestamp <? t0))%float then ret tt
  else
    fid <- to_int64 (timestamp * 1e9)%float ;;
    let t_c_id := {| frame_id := fid; cam_id := 0 |} in
    cs <- collect (GetFeature view) (TrackIds view) ;;
    let corner_data := {| corners := cs; track_ids := TrackIds view |} in
    modify (fun s => set_calib_corners_
                       (map_assign TimeCamId_less t_c_id corner_data (calib_corners_ s)) s) ;;
    let pose_data :=
      {| T_a_c := SE3_make
                    (mat_transpose (GetOrientationAsRotationMatrix (GetCamera view)))
                    (GetPosition (GetCamera view)) |} in
    modify (fun s => set_calib_init_poses_
                       (map_assign TimeCamId_less t_c_id pose_data (calib_init_poses_ s)) s) ;;
    poses <- gets calib_init_poses_ ;;
    registered <- at_key (map_find TimeCamId_less t_c_id poses) ;;
    let T_w_i_init := SE3_mul (T_a_c registered) (SE3_inverse T_i_c_init) in
    let spline_pose_data := {| T_a_c := T_w_i_init |} in
    modify (fun s => set_spline_init_poses_
                       (map_assign TimeCamId_less t_c_id spline_pose_data
                                   (spline_init_poses_ s)) s).

(** lines 99-100: [(end_t_ns - start_t_ns) / dt_ns + SPLINE_N] on [int64_t] *)
Definition knot_count (start_ns end_ns dt_ns : Z) : M Z :=
  d <- int64_result (end_ns - start_ns) ;;
  q <- int64_div d dt_ns ;;
  int64_result (q + SPLINE_N).

(** lines 99-105 *)
Definition init_knots (w : WindowNs) : M unit :=
  n_so3 <- knot_count (start_t_ns w) (end_t_ns w) (dt_so3_ns w) ;;
  modify (set_nr_knots_so3_ n_so3) ;;
  n_r3 <- knot_count (start_t_ns w) (end_t_ns w) (dt_r3_ns w) ;;
  modify (set_nr_knots_r3_ n_r3) ;;
  poses <- gets spline_init_poses_ ;;
  modify_trajectory (initAll poses n_so3 n_r3).

(** lines 107-114, the body of the loop over [calib_corners_] *)
Definition add_corner (calib_dataset : Reconstruction) (w : WindowNs)
    (kv : TimeCamId * CalibCornerData) : M unit :=
  if (start_t_ns w <=? frame_id (fst kv)) && (frame_id (fst kv) <? end_t_ns w) then
    view0 <- deref (GetView calib_dataset 0%N) ;;
    modify_trajectory
      (addResidual (RSCornersResidual (snd kv) (GetCamera view0) (frame_id (fst kv))))
  else ret tt.

Definition add_corners (calib_dataset : Reconstruction) (w : WindowNs) : M unit :=
  cs <- gets calib_corners_ ;;
  for_each cs (add_corner calib_dataset w).

(** lines 117-129, the body of the loop over the accelerometer samples; the
    trajectory takes the time of a measurement as [int64_t] nanoseconds *)
Definition add_accl_sample (telemetry_data : CameraTelemetryData)
    (time_offset_imu_to_cam : float) (accl_bias : Vector3d) (i : nat) : M unit :=
  ms <- index (timestamp_ms (accelerometer telemetry_data)) i ;;
  let t := (ms * 1e-3 + time_offset_imu_to_cam)%float in
  t0 <- gets t0_s_ ;;
  tend <- gets tend_s_ ;;
  if ((t <? t0) || (tend <=? t))%float then ret tt
  else
    meas <- index (measurement (accelerometer telemetry_data)) i ;;
    let accl_unbiased := vec_add meas accl_bias in
    t_ns <- to_int64 (t * 1e9)%float ;;
    swd <- gets spline_weight_data_ ;;
    reestimate <- gets reestimate_biases_ ;;
    modify_trajectory
      (addResidual (AccelResidual accl_unbiased t_ns (1 / var_r3 swd)%float reestimate)) ;;
    modify (fun s => set_accl_measurements
                       (map_assign PrimFloat.ltb t accl_unbiased (accl_measurements s)) s).

(** lines 132-144, the body of the loop over the gyroscope samples *)
Definition add_gyro_sample (telemetry_data : CameraTelemetryData)
    (time_offset_imu_to_cam : float) (gyro_bias : Vector3d) (i : nat) : M unit :=
  ms <- index (timestamp_ms (gyroscope telemetry_data)) i ;;
  let t := (ms * 1e-3 + time_offset_imu_to_cam)%float in
  t0 <- gets t0_s_ ;;
  tend <- gets tend_s_ ;;
  if ((t <? t0) || (tend <=? t))%float then ret tt
  else
    meas <- index (measurement (gyroscope telemetry_data)) i ;;
    let gyro_unbiased := vec_add meas gyro_bias in
    t_ns <- to_int64 (t * 1e9)%float ;;
    swd <- gets spline_weight_data_ ;;
    reestimate <- gets reestimate_biases_ ;;
    modify_trajectory
      (addResidual (GyroResidual gyro_unbiased t_ns (1 / var_so3 swd)%float reestimate)) ;;
    modify (fun s => set_gyro_measurements
                       (map_assign PrimFloat.ltb t gyro_unbiased (gyro_measurements s)) s).

(** the index range [0, v.size()) of a loop *)
Definition indices {A : Type} (v : list A) : list nat := seq 0 (length v).

Definition InitSpline (calib_dataset : Reconstruction) (T_i_c_init : SE3)
    (spline_weight_data : SplineWeightingData) (time_offset_imu_to_cam : float)
    (gyro_bias accl_bias : Vector3d) (telemetry_data : CameraTelemetryData) : M unit :=
  modify (set_spline_weight_data_ spline_weight_data) ;;
  modify (set_T_i_c_init_ T_i_c_init) ;;
  collect_timestamps calib_dataset ;;
  init_line_delay calib_dataset spline_weight_data ;;
  find_window ;;
  w <- init_trajectory_times calib_dataset T_i_c_init ;;
  for_each (ViewIds calib_dataset) (ingest_view calib_dataset T_i_c_init) ;;
  init_knots w ;;
  add_corners calib_dataset w ;;
  for_each (indices (measurement (accelerometer telemetry_data)))
           (add_accl_sample telemetry_data time_offset_imu_to_cam accl_bias) ;;
  for_each (indices (measurement (gyroscope telemetry_data)))
           (add_gyro_sample telemetry_data time_offset_imu_to_cam gyro_bias).

(** lines 298-307: one accelerometer sample tried against camera timestamp
    [cam_t]; [accl_t] is declared [int64_t] in the source *)
Definition try_accl_sample (telemetry_data : CameraTelemetryData)
    (accl_bias : Vector3d) (T_a_i : SE3) (cam_t : float) (i : nat) : M unit :=
  meas <- index (measurement (accelerometer telemetry_data)) i ;;
  let ad := vec_add meas accl_bias in
  ms <- index (timestamp_ms (accelerometer telemetry_data)) i ;;
  accl_t <- to_int64 (ms * 1e-3)%float ;;
  if (abs (Double.of_int accl_t - cam_t) <? 1 / 30)%float then
    modify (set_gravity_init_ (SO3_apply T_a_i ad)) ;;
    modify (set_gravity_initialized_ true)
  else ret tt.

(** lines 294-308: the scan stops as soon as [gravity_initialized_] is set *)
Fixpoint scan_accl (body : nat -> M unit) (range : list nat) : M unit :=
  match range with
  | [] => ret tt
  | i :: range' =>
      initialized <- gets gravity_initialized_ ;;
      if initialized : bool then ret tt else body i ;; scan_accl body range'
  end.

(** lines 285-310, the body of the loop over the camera timestamps *)
Definition gravity_at (telemetry_data : CameraTelemetryData)
    (accl_bias : Vector3d) (j : nat) : M unit :=
  ts <- gets cam_timestamps_ ;;
  cam_t <- index ts j ;;
  timestamp_ns <- to_int64 (cam_t * 1e9)%float ;;
  let tcid := {| frame_id := timestamp_ns; cam_id := 0 |} in
  poses <- gets calib_init_poses_ ;;
  match map_find TimeCamId_less tcid poses with
  | Some pose =>
      T_i_c <- gets T_i_c_init_ ;;
      let T_a_i := SE3_mul (T_a_c pose) (SE3_inverse T_i_c) in
      initialized <- gets gravity_initialized_ ;;
      if initialized : bool then ret tt
      else scan_accl (try_accl_sample telemetry_data accl_bias T_a_i cam_t)
                     (indices (measurement (accelerometer telemetry_data)))
  | None => ret tt
  end.

Definition InitializeGravity (telemetry_data : CameraTelemetryData)
    (accl_bias : Vector3d) : M unit :=
  ts <- gets cam_timestamps_ ;;
  for_each (indices ts) (gravity_at telemetry_data accl_bias) ;;
  gravity <- gets gravity_init_ ;;
  modify_trajectory (setG gravity).

Definition Optimize {S : Solver} (iterations : Z) : M (list float) :=
  modify_trajectory (optimize iterations) ;;
  trajectory <- gets trajectory_ ;;
  cs <- gets calib_corners_ ;;
  ret [meanReprojection trajectory cs; meanRSReprojection trajectory cs].

Definition ClearSpline : M unit :=
  modify (set_cam_timestamps_ []) ;;
  modify (set_gyro_measurements []) ;;
  modify (set_accl_measurements []) ;;
  modify (set_calib_corners_ []) ;;
  modify (set_calib_init_poses_ []) ;;
  modify (set_spline_init_poses_ []) ;;
  modify_trajectory (fun _ => Trajectory_empty).

End Calibrator.

(** ** The spec's formulas, for comparison *)

(** "Knot count for each sub-spline = ceil((t_end - t0)/spacing) + (spline
    order)", on the exact values of the doubles. *)
Definition spec_knot_count {G : Geometry} (t0 tend spacing : float) : option Z :=
  match Double.to_Q t0, Double.to_Q tend, Double.to_Q spacing with
  | Some a, Some b, Some d => Some (Qceiling ((b - a) / d) + SPLINE_N)
  | _, _, _ => None
  end.

(** "within 1/30 s of the camera timestamp", on the exact values: the sample
    time in seconds is the millisecond stamp over 1000. *)
Definition spec_within_tolerance (sample_ms cam_t : float) : bool :=
  match Double.to_Q sample_ms, Double.to_Q cam_t with
  | Some ms, Some c =>
      match Qcompare (Qabs (ms / 1000 - c)) (1 # 30) with
      | Lt => true
      | _ => false
      end
  | _, _ => false
  end.

(** ** A concrete geometry and solver for the examples *)

(** Rigid transforms as a rotation matrix and a translation, computed in
    double arithmetic. *)
Record Mat3 := {
  m00 : float; m01 : float; m02 : float;
  m10 : float; m11 : float; m12 : float;
  m20 : float; m21 : float; m22 : float
}.

Definition mat3_transpose (a : Mat3) : Mat3 :=
  {| m00 := m00 a; m01 := m10 a; m02 := m20 a;
     m10 := m01 a; m11 := m11 a; m12 := m21 a;
     m20 := m02 a; m21 := m12 a; m22 := m22 a |}.

Definition mat3_mul (a b : Mat3) : Mat3 :=
  {| m00 := m00 a * m00 b + m01 a * m10 b + m02 a * m20 b;
     m01 := m00 a * m01 b + m01 a * m11 b + m02 a * m21 b;
     m02 := m00 a * m02 b + m01 a * m12 b + m02 a * m22 b;
     m10 := m10 a * m00 b + m11 a * m10 b + m12 a * m20 b;
     m11 := m10 a * m01 b + m11 a * m11 b + m12 a * m21 b;
     m12 := m10 a * m02 b + m11 a * m12 b + m12 a * m22 b;
     m20 := m20 a * m00 b + m21 a * m10 b + m22 a * m20 b;
     m21 := m20 a * m01 b + m21 a * m11 b + m22 a * m21 b;
     m22 := m20 a * m02 b + m21 a * m12 b + m22 a * m22 b |}%float.

Definition mat3_apply (a : Mat3) (v : Vector3d) : Vector3d :=
  {| vx := m00 a * vx v + m01 a * vy v + m02 a * vz v;
     vy := m10 a * vx v + m11 a * vy v + m12 a * vz v;
     vz := m20 a * vx v + m21 a * vy v + m22 a * vz v |}%float.

Definition mat3_identity : Mat3 :=
  {| m00 := 1; m01 := 0; m02 := 0;
     m10 := 0; m11 := 1; m12 := 0;
     m20 := 0; m21 := 0; m22 := 1 |}%float.

Record Rigid := { rotation : Mat3; translation : Vector3d }.

Definition rigid_mul (a b : Rigid) : Rigid :=
  {| rotation := mat3_mul (rotation a) (rotation b);
     translation := vec_add (mat3_apply (rotation a) (translation b)) (translation a) |}.

Definition vec_opp (v : Vector3d) : Vector3d :=
  {| vx := - vx v; vy := - vy v; vz := - vz v |}%float.

Definition rigid_inverse (a : Rigid) : Rigid :=
  {| rotation := mat3_transpose (rotation a);
     translation := vec_opp (mat3_apply (mat3_transpose (rotation a)) (translation a)) |}.

#[global] Instance MatrixGeometry : Geometry :=
  {| Matrix3d := Mat3;
     SE3 := Rigid;
     mat_transpose := mat3_transpose;
     SE3_make := fun R t => {| rotation := R; translation := t |};
     SE3_mul := rigid_mul;
     SE3_inverse := rigid_inverse;
     SO3_apply := fun T v => mat3_apply (rotation T) v;
     SPLINE_N := 5 |}.

(** A solver that leaves the trajectory as it is and reports zero errors. *)
#[global] Instance IdleSolver : Solver :=
  {| optimize := fun _ t => t;
     meanReprojection := fun _ _ => 0%float;
     meanRSReprojection := fun _ _ => 0%float |}.

Definition zero3 : Vector3d := {| vx := 0; vy := 0; vz := 0 |}%float.

Definition rigid_identity : Rigid :=
  {| rotation := mat3_identity; translation := zero3 |}.

(** Modelled from the spec: the header of the class is absent.  A calibrator
    as its constructor leaves it: the containers are empty and gravity is not
    initialized; the two calibration switches are as given, and the members
    [InitSpline] overwrites are zero. *)
Definition new_calibrator (calibrate_line_delay reestimate : bool) : ImuCameraCalibrator :=
  {| spline_weight_data_ :=
       {| dt_so3 := 0; dt_r3 := 0; var_so3 := 0; var_r3 := 0; cam_fps := 0 |}%float;
     T_i_c_init_ := rigid_identity;
     cam_timestamps_ := [];
     calibrate_cam_line_delay_ := calibrate_line_delay;
     reestimate_biases_ := reestimate;
     inital_cam_line_delay_s_ := 0%float;
     t0_s_ := 0%float;
     tend_s_ := 0%float;
     nr_knots_so3_ := 0;
     nr_knots_r3_ := 0;
     calib_corners_ := [];
     calib_init_poses_ := [];
     spline_init_poses_ := [];
     accl_measurements := [];
     gyro_measurements := [];
     gravity_initialized_ := false;
     gravity_init_ := zero3;
     trajectory_ := Trajectory_empty |}.


(** ** Export of the trajectory (lines 323-337) *)

Section ExportModel.
Context {G : Geometry}.

(** A view as [ToTheiaReconDataset] writes it: the arguments handed to
    [AddView] (the name is the decimal string of [view_name_ns]), the
    estimated flag and the camera pose. *)
Record OutputView := {
  view_name_ns : Z;
  view_group : Z;
  view_timestamp : Z;
  IsEstimated : bool;
  view_orientation : Matrix3d;
  view_position : Vector3d
}.

(** The trajectory's pose evaluation, Sophus' accessors and theia's decision
    whether [AddView] hands out a valid view id: parameters. *)
Class Exporter := {
  (** [trajectory_.getPose(t_ns)]: [None] for a time at which the trajectory
      cannot be evaluated, where the call is undefined *)
  getPose : Trajectory -> Z -> option SE3;
  (** [SE3d::rotationMatrix()] *)
  SE3_rotationMatrix : SE3 -> Matrix3d;
  (** [SE3d::translation()] *)
  SE3_translation : SE3 -> Vector3d;
  (** whether [output_recon.AddView(name, 0, t_ns)] returns a valid id, so
      that [MutableView] is not null *)
  AddView_valid : list OutputView -> Z -> bool
}.

(** lines 326-335, the body of the loop: the output reconstruction is
    threaded through; a trajectory evaluated where it has no pose is out of
    its range *)
Definition export_view {E : Exporter} (i : nat) (output_recon : list OutputView) :
    M (list OutputView) :=
  ts <- gets cam_timestamps_ ;;
  cam_t <- index ts i ;;
  t_ns <- to_int64 (cam_t * 1e9)%float ;;
  trajectory <- gets trajectory_ ;;
  match getPose trajectory t_ns with
  | Some spline_pose =>
      if AddView_valid output_recon t_ns then
        ret (output_recon
             ++ [{| view_name_ns := t_ns;
                    view_group := 0;
                    view_timestamp := t_ns;
                    IsEstimated := true;
                    view_orientation := mat_transpose (SE3_rotationMatrix spline_pose);
                    view_position := SE3_translation spline_pose |}])
      else undefined NullPointer
  | None => undefined OutOfRange
  end.

Fixpoint export_views {E : Exporter} (range : list nat) (output_recon : list OutputView) :
    M (list OutputView) :=
  match range with
  | [] => ret output_recon
  | i :: range' =>
      output_recon' <- export_view i output_recon ;;
      export_views range' output_recon'
  end.

Definition ToTheiaReconDataset {E : Exporter} (output_recon : list OutputView) :
    M (list OutputView) :=
  ts <- gets cam_timestamps_ ;;
  export_views (indices ts) output_recon.

End ExportModel.

(** An exporter for the examples: the trajectory's pose is the identity at
    every time, and a view is accepted unless its name is taken. *)
#[global] Instance IdentityExporter : Exporter :=
  {| getPose := fun _ _ => Some rigid_identity;
     SE3_rotationMatrix := rotation;
     SE3_translation := translation;
     AddView_valid := fun output_recon name =>
       negb (existsb (fun v => view_name_ns v =? name) output_recon) |}.

(** ** The board types (board_extractor.h, lines 16-24) *)

Module BoardExtractor.
Import String.
Local Open Scope string_scope.

Inductive BoardType := CHARUCO | RADON.

(** the enumerators' values *)
Definition BoardType_value (b : BoardType) : Z :=
  match b with
  | CHARUCO => 0
  | RADON => 1
  end.

(** For any other string the end of the function is reached without a
    [return]: undefined behaviour, [None] here. *)
Definition StringToBoardType (board_type : string) : option BoardType :=
  if String.eqb board_type "charuco" then Some CHARUCO
  else if String.eqb board_type "radon" then Some RADON
  else None.

End BoardExtractor.
(** ** Predicates the statements use *)

Definition no_nan (l : list float) : Prop :=
  Forall (fun x => is_nan x = false) l.

Definition is_minimum (m : float) (l : list float) : Prop :=
  In m l /\ Forall (fun y => (m <=? y)%float = true) l.

Definition is_maximum (m : float) (l : list float) : Prop :=
  In m l /\ Forall (fun y => (y <=? m)%float = true) l.

(** [a] and [b] are the elements of [l] at the positions
    [std::minmax_element] returns. *)
Definition picked_by_minmax (a b : float) (l : list float) : Prop :=
  nth_error l (fst (minmax_element l)) = Some a
  /\ nth_error l (snd (minmax_element l)) = Some b.

Definition ascending (l : list float) : Prop :=
  StronglySorted (fun a b => (a <=? b)%float = true) l.

Section Statements.
Context {G : Geometry}.

(** Every listed view exists: [View(id)] is not null for the ids of
    [ViewIds()]. *)
Definition views_exist (r : Reconstruction) : Prop :=
  forall id, In id (ViewIds r) -> GetView r id <> None.

(** The timestamps of the views, in the order of [ViewIds()]. *)
Definition view_timestamps (r : Reconstruction) : list float :=
  flat_map (fun id => match GetView r id with
                      | Some v => [GetTimestamp v]
                      | None => []
                      end) (ViewIds r).

(** The values behind a list of pointers, when none is null. *)
Fixpoint all_some {A B : Type} (f : A -> option B) (l : list A) : option (list B) :=
  match l with
  | [] => Some []
  | x :: l' =>
      match f x, all_some f l' with
      | Some b, Some bs => Some (b :: bs)
      | _, _ => None
      end
  end.

(** The key, the corner data and the poses [InitSpline] stores for a view. *)
Definition view_key (fid : Z) : TimeCamId := {| frame_id := fid; cam_id := 0 |}.

Definition view_corner_data (v : View) (cs : list Vector2d) : CalibCornerData :=
  {| corners := cs; track_ids := TrackIds v |}.

Definition view_pose (v : View) : CalibInitPoseData :=
  {| T_a_c := SE3_make (mat_transpose (GetOrientationAsRotationMatrix (GetCamera v)))
                       (GetPosition (GetCamera v)) |}.

Definition view_spline_pose (T_i_c_init : SE3) (v : View) : CalibInitPoseData :=
  {| T_a_c := SE3_mul (T_a_c (view_pose v)) (SE3_inverse T_i_c_init) |}.

(** A member (or a function of the members) that a computation leaves as it
    is, whatever its outcome. *)
Definition unchanged {A B : Type} (proj : ImuCameraCalibrator -> B) (m : M A) : Prop :=
  forall s, proj (state_of (m s)) = proj s.

(** A property of the members that a computation keeps, whatever its
    outcome. *)
Definition preserves {A : Type} (P : ImuCameraCalibrator -> Prop) (m : M A) : Prop :=
  forall s, P s -> P (state_of (m s)).

(** The camera timestamps and the window bounds. *)
Definition window_of (s : ImuCameraCalibrator) : list float * float * float :=
  (cam_timestamps_ s, t0_s_ s, tend_s_ s).

Definition knot_counts_of (s : ImuCameraCalibrator) : Z * Z :=
  (nr_knots_so3_ s, nr_knots_r3_ s).

(** The line delay, in the calibrator and in the trajectory. *)
Definition line_delay_of (s : ImuCameraCalibrator) : float * option float :=
  (inital_cam_line_delay_s_ s, rs_line_delay (trajectory_ s)).

(** The test of line 302 for sample [i] against camera timestamp [cam_t]: the
    time of the sample, in seconds, is held in an [int64_t]. *)
Definition whole_second_match (tel : CameraTelemetryData) (cam_t : float) (i : nat) : bool :=
  match nth_error (timestamp_ms (accelerometer tel)) i with
  | Some ms =>
      match Double.to_int64 (ms * 1e-3) with
      | Some accl_t => (abs (Double.of_int accl_t - cam_t) <? 1 / 30)%float
      | None => false
      end
  | None => false
  end.

(** The pose registered for camera timestamp [cam_t] (lines 285-288). *)
Definition registered_pose (s : ImuCameraCalibrator) (cam_t : float) :
    option CalibInitPoseData :=
  match Double.to_int64 (cam_t * 1e9) with
  | Some ns => map_find TimeCamId_less (view_key ns) (calib_init_poses_ s)
  | None => None
  end.

(** The assignment of lines 303-304. *)
Definition set_gravity (T_a_i : SE3) (ad : Vector3d) (s : ImuCameraCalibrator) :
    ImuCameraCalibrator :=
  set_gravity_initialized_ true (set_gravity_init_ (SO3_apply T_a_i ad) s).

(** No accelerometer sample passes the test against camera timestamp [j],
    or no pose is registered for it. *)
Definition no_match_at (tel : CameraTelemetryData) (s : ImuCameraCalibrator)
    (j : nat) : Prop :=
  forall cam_t pose i,
    nth_error (cam_timestamps_ s) j = Some cam_t ->
    registered_pose s cam_t = Some pose ->
    (i < length (measurement (accelerometer tel)))%nat ->
    whole_second_match tel cam_t i = false.

(** As long as gravity is not initialized, [gravity_init_] is what it was. *)
Definition gravity_untouched (g0 : Vector3d) (s : ImuCameraCalibrator) : Prop :=
  gravity_initialized_ s = false -> gravity_init_ s = g0.

(** What [InitSpline] does once the window is found (lines 61-144). *)
Definition InitSpline_from_window (calib_dataset : Reconstruction) (T_i_c_init : SE3)
    (time_offset_imu_to_cam : float) (gyro_bias accl_bias : Vector3d)
    (telemetry_data : CameraTelemetryData) : M unit :=
  w <- init_trajectory_times calib_dataset T_i_c_init ;;
  for_each (ViewIds calib_dataset) (ingest_view calib_dataset T_i_c_init) ;;
  init_knots w ;;
  add_corners calib_dataset w ;;
  for_each (indices (measurement (accelerometer telemetry_data)))
           (add_accl_sample telemetry_data time_offset_imu_to_cam accl_bias) ;;
  for_each (indices (measurement (gyroscope telemetry_data)))
           (add_gyro_sample telemetry_data time_offset_imu_to_cam gyro_bias).

(** The members when the window has been found: the arguments stored, the
    timestamps [ts], the line delay [d] and the bounds [a] and [b]. *)
Definition at_window (T_i_c_init : SE3) (spline_weight_data : SplineWeightingData)
    (ts : list float) (d a b : float) (s : ImuCameraCalibrator) : ImuCameraCalibrator :=
  set_tend_s_ b
    (set_t0_s_ a
       (set_trajectory_ (SetInitialRSLineDelay d (trajectory_ s))
          (set_inital_cam_line_delay_s_ d
             (set_cam_timestamps_ ts
                (set_T_i_c_init_ T_i_c_init
                   (set_spline_weight_data_ spline_weight_data s)))))).

(** The view behind a stored key: a listed view earlier than [tend] whose
    time in nanoseconds is the key. *)
Definition ingested_from (D : Reconstruction) (tend : float)
    (k : TimeCamId) (v : View) : Prop :=
  (exists id, In id (ViewIds D) /\ GetView D id = Some v)
  /\ (GetTimestamp v <? tend)%float = true
  /\ Double.to_int64 (GetTimestamp v * 1e9) = Some (frame_id k)
  /\ cam_id k = 0.

(** Every stored corner observation, initial pose and spline pose, and every
    reprojection residual of the trajectory, belongs to a view earlier than
    [tend]. *)
Definition stored_before (D : Reconstruction) (T_i_c_init : SE3) (tend : float)
    (s : ImuCameraCalibrator) : Prop :=
  (forall k cd, In (k, cd) (calib_corners_ s) ->
     exists v cs, ingested_from D tend k v
                  /\ all_some (GetFeature v) (TrackIds v) = Some cs
                  /\ cd = view_corner_data v cs)
  /\ (forall k p, In (k, p) (calib_init_poses_ s) ->
        exists v, ingested_from D tend k v /\ p = view_pose v)
  /\ (forall k p, In (k, p) (spline_init_poses_ s) ->
        exists v, ingested_from D tend k v /\ p = view_spline_pose T_i_c_init v)
  /\ (forall cd cam t, In (RSCornersResidual cd cam t) (residuals (trajectory_ s)) ->
        exists v cs, ingested_from D tend (view_key t) v
                     /\ all_some (GetFeature v) (TrackIds v) = Some cs
                     /\ cd = view_corner_data v cs).

(** The invariant of [InitSpline] after the window is found. *)
Definition window_invariant (D : Reconstruction) (T_i_c_init : SE3) (tend : float)
    (s : ImuCameraCalibrator) : Prop :=
  tend_s_ s = tend /\ stored_before D T_i_c_init tend s.

(** The gravity estimate: the members [ClearSpline] and [InitSpline] leave
    alone. *)
Definition gravity_of (s : ImuCameraCalibrator) : bool * Vector3d :=
  (gravity_initialized_ s, gravity_init_ s).

(** Modelled from the spec: the header of the class is absent.  A brand-new
    calibrator holds empty containers and an empty trajectory, and its
    gravity is not initialized ("gravity is considered uninitialized until
    ..."); its other members are not determined. *)
Definition brand_new (s : ImuCameraCalibrator) : Prop :=
  cam_timestamps_ s = []
  /\ calib_corners_ s = [] /\ calib_init_poses_ s = [] /\ spline_init_poses_ s = []
  /\ accl_measurements s = [] /\ gyro_measurements s = []
  /\ trajectory_ s = Trajectory_empty
  /\ gravity_initialized_ s = false.

(** Two calibrators hold the same containers, switches and trajectory. *)
Definition same_contents (a b : ImuCameraCalibrator) : Prop :=
  cam_timestamps_ a = cam_timestamps_ b
  /\ calibrate_cam_line_delay_ a = calibrate_cam_line_delay_ b
  /\ reestimate_biases_ a = reestimate_biases_ b
  /\ calib_corners_ a = calib_corners_ b
  /\ calib_init_poses_ a = calib_init_poses_ b
  /\ spline_init_poses_ a = spline_init_poses_ b
  /\ accl_measurements a = accl_measurements b
  /\ gyro_measurements a = gyro_measurements b
  /\ trajectory_ a = trajectory_ b.

(** ... and the arguments [InitSpline] stores first, *)
Definition same_arguments (a b : ImuCameraCalibrator) : Prop :=
  same_contents a b
  /\ spline_weight_data_ a = spline_weight_data_ b
  /\ T_i_c_init_ a = T_i_c_init_ b.

(** ... and the line delay, *)
Definition same_line_delay (a b : ImuCameraCalibrator) : Prop :=
  same_arguments a b
  /\ inital_cam_line_delay_s_ a = inital_cam_line_delay_s_ b.

(** ... and the window bounds, *)
Definition same_window (a b : ImuCameraCalibrator) : Prop :=
  same_line_delay a b /\ t0_s_ a = t0_s_ b /\ tend_s_ a = tend_s_ b.

(** ... and the knot counts: all members but the gravity estimate. *)
Definition same_but_gravity (a b : ImuCameraCalibrator) : Prop :=
  same_window a b
  /\ nr_knots_so3_ a = nr_knots_so3_ b /\ nr_knots_r3_ a = nr_knots_r3_ b.

Definition state_rel : Type := ImuCameraCalibrator -> ImuCameraCalibrator -> Prop.

(** Two runs of a computation from related members have the same kind of
    outcome, return the same value and leave related members. *)
Definition related {A : Type} (R R' : state_rel) (m : M A) : Prop :=
  forall a b, R a b ->
    match m a, m b with
    | Returns x a', Returns y b' => x = y /\ R' a' b'
    | Throws _, Throws _ => True
    | Undefined u _, Undefined u' _ => u = u'
    | _, _ => False
    end.

End Statements.

(** ** Example inputs *)

Definition example_camera : Camera :=
  {| GetOrientationAsRotationMatrix := mat3_identity;
     GetPosition := zero3;
     ImageHeight := 1080 |}.

(** A view at time [t] that sees track 7 at pixel (1, 2). *)
Definition example_view (t : float) : View :=
  {| GetTimestamp := t;
     TrackIds := [7%N];
     GetFeature := fun _ => Some {| px := 1; py := 2 |}%float;
     GetCamera := example_camera |}.

(** The reconstruction with views 0, 1, ... at the given times. *)
Definition example_reconstruction (ts : list float) : Reconstruction :=
  {| ViewIds := map N.of_nat (seq 0 (length ts));
     GetView := fun id => option_map example_view (nth_error ts (N.to_nat id)) |}.

Definition example_weights : SplineWeightingData :=
  {| dt_so3 := 1; dt_r3 := 0.5; var_so3 := 1; var_r3 := 1; cam_fps := 30 |}%float.

Definition example_readings (ms : list float) (v : list Vector3d) : ImuReadings :=
  {| timestamp_ms := ms; measurement := v |}.

Definition example_telemetry (ms : list float) (v : list Vector3d) : CameraTelemetryData :=
  {| accelerometer := example_readings ms v; gyroscope := example_readings ms v |}.

Definition gravity_reading : Vector3d := {| vx := 0; vy := 0; vz := 9.81 |}%float.

(** One camera timestamp at 10 s with a registered identity pose. *)
Definition one_frame_at_10s : ImuCameraCalibrator :=
  set_calib_init_poses_ [(view_key 10000000000, {| T_a_c := rigid_identity |})]
    (set_cam_timestamps_ [10%float] (new_calibrator false false)).

(** A calibrator after [InitSpline] on views at the given times, without
    inertial samples. *)
Definition initialized_at (ts : list float) : ImuCameraCalibrator :=
  state_of (InitSpline (example_reconstruction ts) rigid_identity example_weights
              0%float zero3 zero3 (example_telemetry [] [])
              (new_calibrator false false)).

Definition x_reading : Vector3d := {| vx := 1; vy := 0; vz := 0 |}%float.

(** A used calibrator: after [InitSpline] on views at 10 and 11 s and
    [InitializeGravity] with a sample 20 ms after the first view. *)
Definition used_calibrator : ImuCameraCalibrator :=
  state_of (InitializeGravity (example_telemetry [10020]%float [gravity_reading]) zero3
              (initialized_at [10; 11]%float)).

(** ** Further predicates *)

Section MoreStatements.
Context {G : Geometry}.

(** The trajectory without its gravity vector. *)
Definition without_g (t : Trajectory) : Trajectory :=
  {| rs_line_delay := rs_line_delay t; knot_times := knot_times t; calib := calib t;
     T_i_c := T_i_c t; knots := knots t; residuals := residuals t; g := None |}.

(** The members without the gravity estimate, in the calibrator and in the
    trajectory. *)
Definition without_gravity (s : ImuCameraCalibrator) : ImuCameraCalibrator :=
  set_trajectory_ (without_g (trajectory_ s))
    (set_gravity_init_ zero3 (set_gravity_initialized_ false s)).

(** No camera timestamp has a registered initial pose. *)
Definition no_registered_pose (s : ImuCameraCalibrator) : Prop :=
  forall cam_t, In cam_t (cam_timestamps_ s) -> registered_pose s cam_t = None.

(** Sample [i] and camera timestamp [j] are the first pair, in the order of
    the loops of [InitializeGravity], that passes the test of line 302 with a
    registered pose. *)
Definition first_match (tel : CameraTelemetryData) (s : ImuCameraCalibrator)
    (j : nat) (cam_t : float) (pose : CalibInitPoseData) (i : nat) : Prop :=
  nth_error (cam_timestamps_ s) j = Some cam_t
  /\ registered_pose s cam_t = Some pose
  /\ (i < length (measurement (accelerometer tel)))%nat
  /\ whole_second_match tel cam_t i = true
  /\ (forall j', (j' < j)%nat -> no_match_at tel s j')
  /\ (forall i', (i' < i)%nat -> whole_second_match tel cam_t i' = false).

(** The members [ClearSpline] does not assign. *)
Definition kept_by_clear (s : ImuCameraCalibrator) :=
  (spline_weight_data_ s, T_i_c_init_ s, calibrate_cam_line_delay_ s,
   reestimate_biases_ s, inital_cam_line_delay_s_ s, t0_s_ s, tend_s_ s,
   nr_knots_so3_ s, nr_knots_r3_ s, gravity_initialized_ s, gravity_init_ s).

(** The containers [ClearSpline] empties. *)
Definition cleared (s : ImuCameraCalibrator) : Prop :=
  cam_timestamps_ s = []
  /\ calib_corners_ s = [] /\ calib_init_poses_ s = [] /\ spline_init_poses_ s = []
  /\ accl_measurements s = [] /\ gyro_measurements s = []
  /\ trajectory_ s = Trajectory_empty.

(** A computation that throws on no input. *)
Definition never_throws {A : Type} (m : M A) : Prop :=
  forall s s', m s <> Throws s'.

(** From members that satisfy [P], a run that returns leaves [R] of its
    result, and one that stops early leaves [Q]. *)
Definition triple {A : Type} (P : ImuCameraCalibrator -> Prop) (m : M A)
    (R : A -> ImuCameraCalibrator -> Prop) (Q : ImuCameraCalibrator -> Prop) : Prop :=
  forall s, P s ->
    match m s with
    | Returns a s' => R a s'
    | Throws s' => Q s'
    | Undefined _ s' => Q s'
    end.

(** What [InitSpline] never assigns: the two switches and the gravity
    estimate, in the calibrator and in the trajectory. *)
Definition switches_and_gravity (s : ImuCameraCalibrator) :=
  (calibrate_cam_line_delay_ s, reestimate_biases_ s,
   gravity_initialized_ s, gravity_init_ s, g (trajectory_ s)).

(** The residuals of the trajectory extend [l]. *)
Definition residuals_extend (l : list Residual) (s : ImuCameraCalibrator) : Prop :=
  exists added, residuals (trajectory_ s) = l ++ added.

(** The test of line 109 on a stored corner observation. *)
Definition corner_in_window (start_ns end_ns : Z) (kv : TimeCamId * CalibCornerData) : bool :=
  (start_ns <=? frame_id (fst kv)) && (frame_id (fst kv) <? end_ns).

(** The reprojection residual of a stored corner observation: the camera is
    the one of view 0 (line 111). *)
Definition corner_residual (D : Reconstruction) (kv : TimeCamId * CalibCornerData)
    (r : Residual) : Prop :=
  exists view0,
    GetView D 0%N = Some view0
    /\ r = RSCornersResidual (snd kv) (GetCamera view0) (frame_id (fst kv)).

(** The window test of lines 76, 120 and 135: the item with timestamp [t] is
    kept when [t < t0_s_ || t >= tend_s_] is false. *)
Definition passes_window (t0 tend t : float) : bool :=
  negb ((t <? t0) || (tend <=? t))%float.

(** The test of lines 120 and 135 on inertial sample [i]. *)
Definition sample_in_window (t0 tend : float) (r : ImuReadings) (off : float)
    (i : nat) : bool :=
  match nth_error (timestamp_ms r) i with
  | Some ms => passes_window t0 tend (ms * 1e-3 + off)
  | None => false
  end.

(** The window test is that of the half-open interval from [t0] to [tend]:
    a timestamp equal to [t0] passes (when the window is not empty), one
    equal to [tend] does not, and a number passes exactly when it is at
    least [t0] and below [tend]. *)
Definition half_open (t0 tend : float) : Prop :=
  (forall t, (t =? t0)%float = true -> (t0 <? tend)%float = true ->
             passes_window t0 tend t = true)
  /\ (forall t, (t =? tend)%float = true -> passes_window t0 tend t = false)
  /\ (forall t, is_nan t = false ->
        (passes_window t0 tend t = true
         <-> (t0 <=? t)%float = true /\ (t <? tend)%float = true)).

(** The samples of a stream that pass the window test, in stream order. *)
Definition windowed_readings (t0 tend off : float) (r : ImuReadings) : ImuReadings :=
  let kept := filter (fun p => passes_window t0 tend (fst p * 1e-3 + off))
                     (combine (timestamp_ms r) (measurement r)) in
  {| timestamp_ms := map fst kept; measurement := map snd kept |}.

(** The telemetry without the inertial samples that fail the window test. *)
Definition windowed_telemetry (t0 tend off : float) (tel : CameraTelemetryData) :
    CameraTelemetryData :=
  {| accelerometer := windowed_readings t0 tend off (accelerometer tel);
     gyroscope := windowed_readings t0 tend off (gyroscope tel) |}.

(** A telemetry of one sample, with time stamp and reading [p], in both
    streams. *)
Definition one_sample (p : float * Vector3d) : CameraTelemetryData :=
  {| accelerometer := {| timestamp_ms := [fst p]; measurement := [snd p] |};
     gyroscope := {| timestamp_ms := [fst p]; measurement := [snd p] |} |}.

(** Every reading of the stream has a time stamp. *)
Definition stamped (r : ImuReadings) : Prop :=
  (length (measurement r) <= length (timestamp_ms r))%nat.

(** The residual of inertial sample [i]: the reading plus the bias at the
    corrected time in nanoseconds. *)
Definition sample_residual (mk : Vector3d -> Z -> float -> bool -> Residual)
    (weight : float) (reestimate : bool) (r : ImuReadings) (off : float)
    (bias : Vector3d) (i : nat) (res : Residual) : Prop :=
  exists ms meas t_ns,
    nth_error (timestamp_ms r) i = Some ms
    /\ nth_error (measurement r) i = Some meas
    /\ Double.to_int64 ((ms * 1e-3 + off) * 1e9) = Some t_ns
    /\ res = mk (vec_add meas bias) t_ns weight reestimate.

(** What the loops over the inertial samples read from the members. *)
Definition sample_context (s : ImuCameraCalibrator) :=
  (t0_s_ s, tend_s_ s, spline_weight_data_ s, reestimate_biases_ s).

(** Every stored inertial sample lies in the window of the members. *)
Definition inertial_in_window (s : ImuCameraCalibrator) : Prop :=
  forall t v,
    In (t, v) (accl_measurements s) \/ In (t, v) (gyro_measurements s) ->
    (t0_s_ s <=? t)%float = true /\ (t <? tend_s_ s)%float = true.

(** The window bounds are numbers and the stored inertial samples lie in
    the window. *)
Definition numbered_window (s : ImuCameraCalibrator) : Prop :=
  is_nan (t0_s_ s) = false /\ is_nan (tend_s_ s) = false /\ inertial_in_window s.

(** The inertial maps hold no sample. *)
Definition no_inertial_sample (s : ImuCameraCalibrator) : Prop :=
  accl_measurements s = [] /\ gyro_measurements s = [].

(** The pose the spline is initialized with, from a registered camera pose
    (lines 92-93). *)
Definition to_spline_pose (T_i_c_init : SE3) (kp : TimeCamId * CalibInitPoseData) :
    TimeCamId * CalibInitPoseData :=
  (fst kp, {| T_a_c := SE3_mul (T_a_c (snd kp)) (SE3_inverse T_i_c_init) |}).

Definition strictly_ascending (ks : list TimeCamId) : Prop :=
  StronglySorted (fun a b => TimeCamId_less a b = true) ks.

(** The three maps keyed by [TimeCamId] go together: the same keys, in
    strictly ascending order, and the spline poses are the registered poses
    times the inverse of [T_i_c_init]. *)
Definition lockstep (T_i_c_init : SE3) (s : ImuCameraCalibrator) : Prop :=
  map fst (calib_corners_ s) = map fst (calib_init_poses_ s)
  /\ spline_init_poses_ s = map (to_spline_pose T_i_c_init) (calib_init_poses_ s)
  /\ strictly_ascending (map fst (calib_init_poses_ s)).

(** The measurement maps and the residuals of the trajectory. *)
Definition stored_of (s : ImuCameraCalibrator) :=
  (calib_corners_ s, calib_init_poses_ s, spline_init_poses_ s,
   accl_measurements s, gyro_measurements s, residuals (trajectory_ s)).

(** Every listed view has the timestamp [t]. *)
Definition all_views_at (D : Reconstruction) (t : float) : Prop :=
  forall id v, In id (ViewIds D) -> GetView D id = Some v -> GetTimestamp v = t.

(** The window is the single instant [t], and the maps and the residuals
    are those of [s0]. *)
Definition empty_window_at (t : float) (s0 s : ImuCameraCalibrator) : Prop :=
  t0_s_ s = t /\ tend_s_ s = t /\ stored_of s = stored_of s0.

(** Both knot counts are the spline order. *)
Definition minimal_knots (s : ImuCameraCalibrator) : Prop :=
  nr_knots_so3_ s = SPLINE_N /\ nr_knots_r3_ s = SPLINE_N.

End MoreStatements.

Section ExportStatements.
Context {G : Geometry} {E : Exporter}.

(** The view [ToTheiaReconDataset] writes for the time [t_ns], from the
    pose the trajectory gave for it. *)
Definition exported_view (spline_pose : SE3) (t_ns : Z) : OutputView :=
  {| view_name_ns := t_ns;
     view_group := 0;
     view_timestamp := t_ns;
     IsEstimated := true;
     view_orientation := mat_transpose (SE3_rotationMatrix spline_pose);
     view_position := SE3_translation spline_pose |}.

(** [v] is the view written for camera timestamp [cam_t]: the trajectory
    was evaluated at the timestamp in whole nanoseconds. *)
Definition exported (trajectory : Trajectory) (cam_t : float) (v : OutputView) : Prop :=
  exists t_ns spline_pose,
    Double.to_int64 (cam_t * 1e9) = Some t_ns
    /\ getPose trajectory t_ns = Some spline_pose
    /\ v = exported_view spline_pose t_ns.

End ExportStatements.

(** ** More example inputs *)

(** The reconstruction with views 1, 2, ... at the given times: no view has
    the id 0. *)
Definition example_reconstruction_from_1 (ts : list float) : Reconstruction :=
  {| ViewIds := map N.of_nat (seq 1 (length ts));
     GetView := fun id =>
       if (id =? 0)%N then None
       else option_map example_view (nth_error ts (N.to_nat id - 1)) |}.

(** Knot spacings of a tenth of a nanosecond for the rotation. *)
Definition tiny_spacing_weights : SplineWeightingData :=
  {| dt_so3 := 1e-10; dt_r3 := 0.5; var_so3 := 1; var_r3 := 1; cam_fps := 30 |}%float.

Definition four_samples : CameraTelemetryData :=
  example_telemetry [0; 500; 2500; 3000]%float
    [gravity_reading; gravity_reading; gravity_reading; gravity_reading].

(** An exporter whose trajectory can be evaluated in [start_ns, end_ns)
    only, where its pose is the identity. *)
Definition example_windowed_exporter (start_ns end_ns : Z) : Exporter :=
  {| getPose := fun _ t_ns =>
       if (start_ns <=? t_ns) && (t_ns <? end_ns) then Some rigid_identity else None;
     SE3_rotationMatrix := rotation;
     SE3_translation := translation;
     AddView_valid := fun output_recon name =>
       negb (existsb (fun v => view_name_ns v =? name) output_recon) |}.

(** The views a returning export writes, and none otherwise. *)
Definition written {G : Geometry} (o : outcome (list OutputView)) : list OutputView :=
  match o with
  | Returns output_recon _ => output_recon
  | _ => []
  end.

(** * Properties *)

(** ** The order of the doubles *)

Module SFOrder.
Import Double.

Ltac order_cases :=
  repeat match goal with
    | b : bool |- _ => destruct b
    | |- context [PosDef.Pos.compare_cont Eq ?a ?b] =>
        change (PosDef.Pos.compare_cont Eq a b) with (Pos.compare a b)
    | H : context [PosDef.Pos.compare_cont Eq ?a ?b] |- _ =>
        change (PosDef.Pos.compare_cont Eq a b) with (Pos.compare a b) in H
    | |- context [Z.compare ?a ?b] => destruct (Z.compare_spec a b)
    | H : context [Z.compare ?a ?b] |- _ => destruct (Z.compare_spec a b)
    | |- context [Pos.compare ?a ?b] => destruct (Pos.compare_spec a b)
    | H : context [Pos.compare ?a ?b] |- _ => destruct (Pos.compare_spec a b)
    end;
  simpl in *; subst; try reflexivity; try discriminate; try lia.

Lemma SFeqb_refl f : SFis_nan f = false -> SFeqb f f = true.
Proof.
  destruct f as [s|s| |s m e]; simpl; intros H; try discriminate;
    unfold SFeqb, SFcompare; order_cases.
Qed.

Lemma SFleb_refl f : SFis_nan f = false -> SFleb f f = true.
Proof.
  destruct f as [s|s| |s m e]; simpl; intros H; try discriminate;
    unfold SFleb, SFcompare; order_cases.
Qed.

Lemma SFleb_not_nan f g :
  SFleb f g = true -> SFis_nan f = false /\ SFis_nan g = false.
Proof.
  destruct f, g; unfold SFleb; simpl; intros H; split;
    try reflexivity; discriminate.
Qed.

Lemma SFltb_SFleb f g : SFltb f g = true -> SFleb f g = true.
Proof.
  unfold SFltb, SFleb. destruct (SFcompare f g) as [[| |]|]; congruence.
Qed.

Lemma SFeqb_SFleb f g : SFeqb f g = true -> SFleb f g = true.
Proof.
  unfold SFeqb, SFleb. destruct (SFcompare f g) as [[| |]|]; congruence.
Qed.

Lemma SFeqb_sym f g : SFeqb f g = true -> SFeqb g f = true.
Proof.
  destruct f as [s|s| |s m e], g as [s'|s'| |s' m' e'];
    unfold SFeqb, SFcompare; intros H; order_cases.
Qed.

Lemma SFleb_SFltb_false f g : SFleb g f = true -> SFltb f g = false.
Proof.
  destruct f as [s|s| |s m e], g as [s'|s'| |s' m' e'];
    unfold SFltb, SFleb, SFcompare; intros H; order_cases.
Qed.

Lemma SFltb_false_SFleb f g :
  SFis_nan f = false -> SFis_nan g = false ->
  SFltb f g = false -> SFleb g f = true.
Proof.
  destruct f as [s|s| |s m e], g as [s'|s'| |s' m' e'];
    unfold SFltb, SFleb, SFcompare; simpl; intros Hf Hg H;
    try discriminate; order_cases.
Qed.

Lemma SFleb_trans f g h :
  SFleb f g = true -> SFleb g h = true -> SFleb f h = true.
Proof.
  destruct f as [s|s| |s m e], g as [s'|s'| |s' m' e'],
           h as [s''|s''| |s'' m'' e''];
    unfold SFleb, SFcompare; intros H1 H2;
    try discriminate; try reflexivity; order_cases.
Qed.

End SFOrder.

Module DoubleOrder.
Import Double.
Import SFOrder.

Lemma is_nan_spec x : is_nan x = SFis_nan (Prim2SF x).
Proof.
  unfold is_nan. rewrite FloatAxioms.eqb_spec.
  destruct (SFis_nan (Prim2SF x)) eqn:E.
  - destruct (Prim2SF x); try discriminate. reflexivity.
  - rewrite (SFeqb_refl _ E). reflexivity.
Qed.

Lemma leb_refl x : is_nan x = false -> (x <=? x)%float = true.
Proof. rewrite is_nan_spec, FloatAxioms.leb_spec. apply SFleb_refl. Qed.

Lemma leb_not_nan x y :
  (x <=? y)%float = true -> is_nan x = false /\ is_nan y = false.
Proof. rewrite !is_nan_spec, FloatAxioms.leb_spec. apply SFleb_not_nan. Qed.

Lemma ltb_leb x y : (x <? y)%float = true -> (x <=? y)%float = true.
Proof. rewrite FloatAxioms.ltb_spec, FloatAxioms.leb_spec. apply SFltb_SFleb. Qed.

Lemma eqb_leb x y : (x =? y)%float = true -> (x <=? y)%float = true.
Proof. rewrite FloatAxioms.eqb_spec, FloatAxioms.leb_spec. apply SFeqb_SFleb. Qed.

Lemma eqb_sym x y : (x =? y)%float = true -> (y =? x)%float = true.
Proof. rewrite !FloatAxioms.eqb_spec. apply SFeqb_sym. Qed.

Lemma leb_ltb_false x y : (y <=? x)%float = true -> (x <? y)%float = false.
Proof. rewrite FloatAxioms.ltb_spec, FloatAxioms.leb_spec. apply SFleb_SFltb_false. Qed.

Lemma ltb_false_leb x y :
  is_nan x = false -> is_nan y = false ->
  (x <? y)%float = false -> (y <=? x)%float = true.
Proof. rewrite !is_nan_spec, FloatAxioms.ltb_spec, FloatAxioms.leb_spec. apply SFltb_false_SFleb. Qed.

Lemma leb_trans x y z :
  (x <=? y)%float = true -> (y <=? z)%float = true -> (x <=? z)%float = true.
Proof. rewrite !FloatAxioms.leb_spec. apply SFleb_trans. Qed.

Lemma ltb_irrefl x : (x <? x)%float = false.
Proof.
  destruct (x <? x)%float eqn:E; [|reflexivity].
  pose proof (ltb_leb _ _ E) as L. apply leb_ltb_false in L. congruence.
Qed.

End DoubleOrder.

(** ** Sorting and extrema *)

Section SortFacts.
Import DoubleOrder.

Lemma sort_insert_perm x l : Permutation (sort_insert x l) (x :: l).
Proof.
  induction l as [|y l IH]; simpl.
  - apply Permutation_refl.
  - destruct (y <? x)%float.
    + apply perm_trans with (y :: x :: l).
      * apply perm_skip, IH.
      * apply perm_swap.
    + apply Permutation_refl.
Qed.

Lemma std_sort_perm l : Permutation (std_sort l) l.
Proof.
  induction l as [|x l IH]; simpl.
  - apply perm_nil.
  - apply perm_trans with (x :: std_sort l).
    + apply sort_insert_perm.
    + apply perm_skip, IH.
Qed.

Lemma no_nan_perm l l' : Permutation l l' -> no_nan l -> no_nan l'.
Proof. intros P H. unfold no_nan in *. eapply Permutation_Forall; eauto. Qed.

Lemma sort_insert_ascending x l :
  is_nan x = false -> no_nan l -> ascending l -> ascending (sort_insert x l).
Proof.
  intros Hx Hl Hs. induction Hs as [|y l Hs IH Hy]; simpl.
  - constructor; constructor.
  - inversion Hl as [|? ? Hny Hl']; subst.
    destruct (y <? x)%float eqn:E.
    + constructor; [apply IH; assumption|].
      apply (Permutation_Forall (Permutation_sym (sort_insert_perm x l))).
      constructor; [apply ltb_leb; assumption | assumption].
    + assert (L : (x <=? y)%float = true) by (apply ltb_false_leb; assumption).
      constructor; [constructor; assumption|].
      constructor; [assumption|].
      eapply Forall_impl; [|exact Hy].
      intros z Hz. simpl in Hz. eapply leb_trans; eassumption.
Qed.

Lemma std_sort_ascending l : no_nan l -> ascending (std_sort l).
Proof.
  induction l as [|x l IH]; simpl; intros H.
  - constructor.
  - inversion H; subst. apply sort_insert_ascending; auto.
    apply (no_nan_perm _ _ (Permutation_sym (std_sort_perm l))). assumption.
Qed.

Lemma nth_error_snoc_last {A : Type} (pre : list A) (x : A) (l : list A) :
  nth_error (pre ++ x :: l) (length pre) = Some x.
Proof. induction pre; simpl; auto. Qed.

Lemma nth_error_app_keep {A : Type} (pre l : list A) i (a : A) :
  nth_error pre i = Some a -> nth_error (pre ++ l) i = Some a.
Proof.
  revert i; induction pre as [|b pre IH]; intros [|i]; simpl;
    try discriminate; auto.
Qed.

(** The scan keeps the positions of a least and of a greatest element of
    what it has seen. *)
Lemma minmax_scan_spec l : forall pre imin vmin imax vmax,
  no_nan (pre ++ l) ->
  nth_error pre imin = Some vmin ->
  nth_error pre imax = Some vmax ->
  Forall (fun y => (vmin <=? y)%float = true) pre ->
  Forall (fun y => (y <=? vmax)%float = true) pre ->
  exists a b,
    nth_error (pre ++ l) (fst (minmax_scan l (length pre) imin vmin imax vmax)) = Some a
    /\ nth_error (pre ++ l) (snd (minmax_scan l (length pre) imin vmin imax vmax)) = Some b
    /\ Forall (fun y => (a <=? y)%float = true) (pre ++ l)
    /\ Forall (fun y => (y <=? b)%float = true) (pre ++ l).
Proof.
  induction l as [|x l IH]; intros pre imin vmin imax vmax Hn Hmin Hmax Fmin Fmax.
  - simpl. rewrite app_nil_r. exists vmin, vmax. repeat split; assumption.
  - assert (Nx : is_nan x = false).
    { unfold no_nan in Hn. rewrite Forall_forall in Hn. apply Hn.
      apply in_or_app; right; left; reflexivity. }
    assert (Nmin : is_nan vmin = false).
    { unfold no_nan in Hn. rewrite Forall_forall in Hn. apply Hn.
      apply in_or_app; left. eapply nth_error_In; eauto. }
    assert (Nmax : is_nan vmax = false).
    { unfold no_nan in Hn. rewrite Forall_forall in Hn. apply Hn.
      apply in_or_app; left. eapply nth_error_In; eauto. }
    simpl.
    replace (pre ++ x :: l) with ((pre ++ [x]) ++ l) in *
      by (rewrite <- app_assoc; reflexivity).
    replace (S (length pre)) with (length (pre ++ [x]))
      by (rewrite length_app; simpl; lia).
    destruct (x <? vmin)%float eqn:Emin; destruct (x <? vmax)%float eqn:Emax;
      apply IH; auto using nth_error_app_keep, nth_error_snoc_last;
      try (apply Forall_app; split; [|constructor; [|constructor]]);
      auto using leb_refl, ltb_leb, ltb_false_leb;
      try (eapply Forall_impl; [|exact Fmin]; intros z Hz; simpl in Hz;
           eapply leb_trans; [|exact Hz]; solve [auto using ltb_leb, ltb_false_leb]);
      try (eapply Forall_impl; [|exact Fmax]; intros z Hz; simpl in Hz;
           eapply leb_trans; [exact Hz|]; solve [auto using ltb_leb, ltb_false_leb]).
Qed.

Lemma minmax_element_spec l :
  l <> [] -> no_nan l ->
  exists a b,
    nth_error l (fst (minmax_element l)) = Some a
    /\ nth_error l (snd (minmax_element l)) = Some b
    /\ is_minimum a l /\ is_maximum b l.
Proof.
  destruct l as [|x l]; [congruence|]. intros _ Hn.
  assert (Nx : is_nan x = false) by (inversion Hn; assumption).
  destruct (minmax_scan_spec l [x] 0 x 0 x Hn eq_refl eq_refl) as (a & b & Ha & Hb & Fa & Fb).
  - constructor; [apply leb_refl; assumption | constructor].
  - constructor; [apply leb_refl; assumption | constructor].
  - exists a, b. simpl in *. repeat split; auto.
    + eapply nth_error_In; eauto.
    + eapply nth_error_In; eauto.
Qed.

End SortFacts.

(** ** The outcome monad *)

Section MonadFacts.
Context {G : Geometry}.

Lemma bind_returns {A B : Type} (m : M A) (k : A -> M B) s a s1 :
  m s = Returns a s1 -> bind m k s = k a s1.
Proof. unfold bind. intros ->. reflexivity. Qed.

Lemma bind_modify {B : Type} f (k : unit -> M B) s :
  bind (modify f) k s = k tt (f s).
Proof. reflexivity. Qed.

Lemma bind_gets {A B : Type} (f : ImuCameraCalibrator -> A) (k : A -> M B) s :
  bind (gets f) k s = k (f s) s.
Proof. reflexivity. Qed.

Lemma bind_returns_inv {A B : Type} (m : M A) (k : A -> M B) s b s' :
  bind m k s = Returns b s' ->
  exists a s1, m s = Returns a s1 /\ k a s1 = Returns b s'.
Proof.
  unfold bind. destruct (m s) as [a s1|s1|u s1]; intros H; try discriminate.
  exists a, s1. split; [reflexivity | assumption].
Qed.

(** *** Members a computation does not touch *)

Lemma unchanged_ret {A B : Type} (proj : ImuCameraCalibrator -> B) (a : A) :
  unchanged proj (ret a).
Proof. intros s. reflexivity. Qed.

Lemma unchanged_gets {A B : Type} (proj : ImuCameraCalibrator -> B)
    (f : ImuCameraCalibrator -> A) :
  unchanged proj (gets f).
Proof. intros s. reflexivity. Qed.

Lemma unchanged_undefined {A B : Type} (proj : ImuCameraCalibrator -> B) u :
  unchanged proj (@undefined G A u).
Proof. intros s. reflexivity. Qed.

Lemma unchanged_throw {A B : Type} (proj : ImuCameraCalibrator -> B) :
  unchanged proj (@throw G A).
Proof. intros s. reflexivity. Qed.

Lemma unchanged_modify {B : Type} (proj : ImuCameraCalibrator -> B) f :
  (forall s, proj (f s) = proj s) -> unchanged proj (modify f).
Proof. intros H s. apply H. Qed.

Lemma unchanged_bind {A B C : Type} (proj : ImuCameraCalibrator -> C)
    (m : M A) (k : A -> M B) :
  unchanged proj m -> (forall a, unchanged proj (k a)) -> unchanged proj (bind m k).
Proof.
  intros Hm Hk s. unfold bind. specialize (Hm s).
  destruct (m s) as [a s1|s1|u s1]; simpl in *; try assumption.
  rewrite Hk. assumption.
Qed.

Lemma unchanged_for_each {A C : Type} (proj : ImuCameraCalibrator -> C)
    (l : list A) (body : A -> M unit) :
  (forall x, unchanged proj (body x)) -> unchanged proj (for_each l body).
Proof.
  intros Hb. induction l as [|x l IH]; simpl.
  - apply unchanged_ret.
  - apply unchanged_bind; auto.
Qed.

Lemma unchanged_collect {A B C : Type} (proj : ImuCameraCalibrator -> C)
    (f : A -> option B) (l : list A) :
  unchanged proj (collect f l).
Proof.
  induction l as [|x l IH]; simpl.
  - apply unchanged_ret.
  - apply unchanged_bind.
    + destruct (f x); [apply unchanged_ret | apply unchanged_undefined].
    + intros b. apply unchanged_bind; [assumption|]. intros bs. apply unchanged_ret.
Qed.

Lemma unchanged_scan_accl {C : Type} (proj : ImuCameraCalibrator -> C)
    (body : nat -> M unit) (range : list nat) :
  (forall i, unchanged proj (body i)) -> unchanged proj (scan_accl body range).
Proof.
  intros Hb. induction range as [|i range IH]; simpl.
  - apply unchanged_ret.
  - apply unchanged_bind; [apply unchanged_gets|].
    intros [|]; [apply unchanged_ret|].
    apply unchanged_bind; auto.
Qed.

(** *** Properties a computation keeps *)

Lemma preserves_ret {A : Type} (P : ImuCameraCalibrator -> Prop) (a : A) :
  preserves P (ret a).
Proof. intros s H. exact H. Qed.

Lemma preserves_gets {A : Type} (P : ImuCameraCalibrator -> Prop)
    (f : ImuCameraCalibrator -> A) :
  preserves P (gets f).
Proof. intros s H. exact H. Qed.

Lemma preserves_undefined {A : Type} (P : ImuCameraCalibrator -> Prop) u :
  preserves P (@undefined G A u).
Proof. intros s H. exact H. Qed.

Lemma preserves_throw {A : Type} (P : ImuCameraCalibrator -> Prop) :
  preserves P (@throw G A).
Proof. intros s H. exact H. Qed.

Lemma preserves_modify (P : ImuCameraCalibrator -> Prop) f :
  (forall s, P s -> P (f s)) -> preserves P (modify f).
Proof. intros H s Hs. apply H, Hs. Qed.

Lemma preserves_bind {A B : Type} (P : ImuCameraCalibrator -> Prop)
    (m : M A) (k : A -> M B) :
  preserves P m -> (forall a, preserves P (k a)) -> preserves P (bind m k).
Proof.
  intros Hm Hk s Hs. unfold bind. specialize (Hm s Hs).
  destruct (m s) as [a s1|s1|u s1]; simpl in *; try assumption.
  apply Hk, Hm.
Qed.

Lemma preserves_for_each {A : Type} (P : ImuCameraCalibrator -> Prop)
    (l : list A) (body : A -> M unit) :
  (forall x, In x l -> preserves P (body x)) -> preserves P (for_each l body).
Proof.
  induction l as [|x l IH]; simpl; intros Hb.
  - apply preserves_ret.
  - apply preserves_bind; auto.
Qed.

Lemma preserves_collect {A B : Type} (P : ImuCameraCalibrator -> Prop)
    (f : A -> option B) (l : list A) :
  preserves P (collect f l).
Proof.
  induction l as [|x l IH]; simpl.
  - apply preserves_ret.
  - apply preserves_bind.
    + destruct (f x); [apply preserves_ret | apply preserves_undefined].
    + intros b. apply preserves_bind; [assumption|]. intros bs. apply preserves_ret.
Qed.

Lemma unchanged_returns {A B : Type} (proj : ImuCameraCalibrator -> B) (m : M A) s a s' :
  unchanged proj m -> m s = Returns a s' -> proj s' = proj s.
Proof. intros H E. specialize (H s). rewrite E in H. exact H. Qed.

End MonadFacts.

(** Decomposition of a goal [unchanged proj m] along the structure of [m]. *)
Ltac frame_step :=
  lazymatch goal with
  | |- unchanged _ (bind _ _) => apply unchanged_bind; [|intros ?]
  | |- unchanged _ (ret _) => apply unchanged_ret
  | |- unchanged _ (gets _) => apply unchanged_gets
  | |- unchanged _ (undefined _) => apply unchanged_undefined
  | |- unchanged _ throw => apply unchanged_throw
  | |- unchanged _ (for_each _ _) => apply unchanged_for_each; intros ?
  | |- unchanged _ (scan_accl _ _) => apply unchanged_scan_accl; intros ?
  | |- unchanged _ (collect _ _) => apply unchanged_collect
  | |- unchanged _ (modify _) => apply unchanged_modify; intros ?; reflexivity
  | |- unchanged _ (modify_trajectory _) =>
      unfold modify_trajectory; apply unchanged_modify; intros ?; reflexivity
  | |- unchanged _ (deref ?p) => unfold deref; destruct p
  | |- unchanged _ (index ?v ?i) => unfold index; destruct (nth_error v i)
  | |- unchanged _ (at_key ?p) => unfold at_key; destruct p
  | |- unchanged _ (to_int64 ?x) => unfold to_int64; destruct (Double.to_int64 x)
  | |- unchanged _ (int64_result ?z) => unfold int64_result; destruct (Double.in_int64 z)
  | |- unchanged _ (int64_div ?a ?b) => unfold int64_div; destruct (b =? 0)
  | |- unchanged _ (let _ := _ in _) => cbv zeta
  | |- unchanged _ (if ?c then _ else _) => destruct c
  | |- unchanged _ (match ?c with _ => _ end) => destruct c
  end.

Create HintDb blocks.

#[global] Hint Unfold collect_timestamps init_line_delay find_window
  init_trajectory_times ingest_view knot_count init_knots add_corner add_corners
  add_accl_sample add_gyro_sample try_accl_sample gravity_at : blocks.

Ltac frame := repeat (autounfold with blocks; frame_step).

(** From [H : m s = Returns a s'], the equation [proj s' = proj s] when [m]
    leaves [proj] alone. *)
Ltac carry proj H :=
  lazymatch type of H with
  | ?m ?s = Returns ?a ?s' =>
      let F := fresh "F" in
      assert (F : unchanged proj m) by frame;
      let E := fresh "Carry" in
      pose proof (unchanged_returns proj m s a s' F H) as E; clear F
  end.

(** Closed statements about concrete runs: the conjuncts are evaluated. *)
Ltac conjuncts := intros; repeat match goal with |- _ /\ _ => split end.
Ltac evaluate := conjuncts; vm_compute; try reflexivity.

(** ** The blocks of [InitSpline] *)

Section InitSplineFacts.
Context {G : Geometry}.

Lemma set_cam_timestamps_same (s : ImuCameraCalibrator) :
  set_cam_timestamps_ (cam_timestamps_ s) s = s.
Proof. destruct s; reflexivity. Qed.

Lemma collect_timestamps_returns D s :
  views_exist D ->
  collect_timestamps D s =
  Returns tt (set_cam_timestamps_ (std_sort (cam_timestamps_ s ++ view_timestamps D)) s).
Proof.
  unfold collect_timestamps, view_timestamps, views_exist.
  generalize (ViewIds D) as ids. intros ids Hex.
  rewrite bind_returns
    with (a := tt)
         (s1 := set_cam_timestamps_
                  (cam_timestamps_ s ++
                   flat_map (fun id => match GetView D id with
                                       | Some v => [GetTimestamp v]
                                       | None => []
                                       end) ids) s);
    [reflexivity|].
  revert s. induction ids as [|id ids IH]; intros s; simpl.
  - rewrite app_nil_r, set_cam_timestamps_same. reflexivity.
  - destruct (GetView D id) as [v|] eqn:E.
    2:{ exfalso. apply (Hex id); [left; reflexivity | assumption]. }
    unfold bind at 1. unfold bind at 1. simpl.
    rewrite IH by (intros; apply Hex; right; assumption).
    simpl. rewrite <- app_assoc. reflexivity.
Qed.

Lemma init_line_delay_off D W s :
  calibrate_cam_line_delay_ s = false ->
  init_line_delay D W s =
  Returns tt (set_trajectory_ (SetInitialRSLineDelay 0%float (trajectory_ s))
                (set_inital_cam_line_delay_s_ 0%float s)).
Proof.
  intros H. unfold init_line_delay, bind, gets. rewrite H. reflexivity.
Qed.

Lemma init_line_delay_on D W s id v :
  calibrate_cam_line_delay_ s = true ->
  nth_error (ViewIds D) 0 = Some id -> GetView D id = Some v ->
  let d := ((1 / cam_fps W) * (1 / Double.of_int (ImageHeight (GetCamera v))))%float in
  init_line_delay D W s =
  Returns tt (set_trajectory_ (SetInitialRSLineDelay d (trajectory_ s))
                (set_inital_cam_line_delay_s_ d s)).
Proof.
  intros H H0 Hv. unfold init_line_delay, bind, gets, index. rewrite H, H0.
  simpl. rewrite Hv. reflexivity.
Qed.

Lemma init_line_delay_returns D W s :
  views_exist D -> ViewIds D <> [] ->
  exists d,
    init_line_delay D W s =
    Returns tt (set_trajectory_ (SetInitialRSLineDelay d (trajectory_ s))
                  (set_inital_cam_line_delay_s_ d s)).
Proof.
  intros Hex Hne. destruct (calibrate_cam_line_delay_ s) eqn:E.
  - destruct (ViewIds D) as [|id ids] eqn:Eids; [congruence|].
    destruct (GetView D id) as [v|] eqn:Ev.
    + eexists. eapply init_line_delay_on; eauto. rewrite Eids. reflexivity.
    + exfalso. apply (Hex id); [rewrite Eids; left; reflexivity | assumption].
  - eexists. apply init_line_delay_off. assumption.
Qed.

Lemma find_window_returns s :
  cam_timestamps_ s <> [] -> no_nan (cam_timestamps_ s) ->
  exists a b,
    find_window s = Returns tt (set_tend_s_ b (set_t0_s_ a s))
    /\ picked_by_minmax a b (cam_timestamps_ s)
    /\ is_minimum a (cam_timestamps_ s) /\ is_maximum b (cam_timestamps_ s).
Proof.
  intros Hne Hn.
  destruct (minmax_element_spec _ Hne Hn) as (a & b & Ha & Hb & Hmin & Hmax).
  exists a, b. split; [|split; [split; assumption | split; assumption]].
  unfold find_window, bind, gets, index. rewrite Ha. simpl. rewrite Hb. reflexivity.
Qed.

Lemma std_sort_not_nil l : l <> [] -> std_sort l <> [].
Proof.
  intros H E. apply H. apply Permutation_nil.
  rewrite <- E. apply std_sort_perm.
Qed.

Lemma view_timestamps_not_nil D :
  views_exist D -> ViewIds D <> [] -> view_timestamps D <> [].
Proof.
  unfold view_timestamps, views_exist. destruct (ViewIds D) as [|id ids]; [congruence|].
  intros Hex _. simpl. destruct (GetView D id) eqn:E.
  - discriminate.
  - exfalso. apply (Hex id); [left; reflexivity | assumption].
Qed.

(** [InitSpline] up to the window: with at least one view, all existing and
    with numbers as timestamps, the run reaches the state [at_window]. *)
Lemma InitSpline_reaches_window D T W off gb ab tel s :
  ViewIds D <> [] -> views_exist D ->
  no_nan (cam_timestamps_ s ++ view_timestamps D) ->
  let ts := std_sort (cam_timestamps_ s ++ view_timestamps D) in
  exists d a b,
    InitSpline D T W off gb ab tel s
    = InitSpline_from_window D T off gb ab tel (at_window T W ts d a b s)
    /\ picked_by_minmax a b ts
    /\ is_minimum a ts /\ is_maximum b ts.
Proof.
  intros Hne Hex Hn L.
  assert (HL : L <> []).
  { apply std_sort_not_nil. intros E. apply app_eq_nil in E.
    apply (view_timestamps_not_nil D); tauto. }
  assert (HnL : no_nan L).
  { apply (no_nan_perm _ _ (Permutation_sym (std_sort_perm _))). assumption. }
  set (s1 := set_T_i_c_init_ T (set_spline_weight_data_ W s)).
  pose proof (collect_timestamps_returns D s1 Hex) as H2.
  set (s2 := set_cam_timestamps_ (std_sort (cam_timestamps_ s1 ++ view_timestamps D)) s1) in H2.
  destruct (init_line_delay_returns D W s2 Hex Hne) as (d & H3).
  set (s3 := set_trajectory_ _ _) in H3.
  destruct (find_window_returns s3 HL HnL) as (a & b & H4 & Hpick & Hmin & Hmax).
  exists d, a, b. split; [|split; [assumption | split; assumption]].
  unfold InitSpline. rewrite !bind_modify. fold s1.
  rewrite (bind_returns _ _ _ _ _ H2).
  rewrite (bind_returns _ _ _ _ _ H3).
  rewrite (bind_returns _ _ _ _ _ H4).
  reflexivity.
Qed.

Lemma InitSpline_from_window_keeps_window D T off gb ab tel :
  unchanged window_of (InitSpline_from_window D T off gb ab tel).
Proof. unfold InitSpline_from_window. frame. Qed.

(** The timestamps and the bounds [InitSpline] leaves. *)
Lemma InitSpline_window D T W off gb ab tel s :
  ViewIds D <> [] -> views_exist D ->
  no_nan (cam_timestamps_ s ++ view_timestamps D) ->
  let s' := state_of (InitSpline D T W off gb ab tel s) in
  cam_timestamps_ s' = std_sort (cam_timestamps_ s ++ view_timestamps D)
  /\ picked_by_minmax (t0_s_ s') (tend_s_ s') (cam_timestamps_ s')
  /\ is_minimum (t0_s_ s') (cam_timestamps_ s')
  /\ is_maximum (tend_s_ s') (cam_timestamps_ s').
Proof.
  intros Hne Hex Hn s'.
  destruct (InitSpline_reaches_window D T W off gb ab tel s Hne Hex Hn)
    as (d & a & b & E & Hpick & Hmin & Hmax).
  assert (Ew : window_of s' = (std_sort (cam_timestamps_ s ++ view_timestamps D), a, b)).
  { subst s'. rewrite E, InitSpline_from_window_keeps_window. reflexivity. }
  unfold window_of in Ew. inversion Ew as [[E1 E2 E3]].
  rewrite E1, E2, E3. auto.
Qed.

End InitSplineFacts.

(** ** Knot counts *)

Section KnotFacts.
Context {G : Geometry}.

Lemma to_int64_returns_inv x s z s' :
  to_int64 x s = Returns z s' -> Double.to_int64 x = Some z /\ s' = s.
Proof.
  unfold to_int64. destruct (Double.to_int64 x); unfold ret, undefined;
    intros H; inversion H; subst; auto.
Qed.

Lemma int64_result_returns_inv z s n s' :
  int64_result z s = Returns n s' -> n = z /\ s' = s.
Proof.
  unfold int64_result. destruct (Double.in_int64 z); unfold ret, undefined;
    intros H; inversion H; subst; auto.
Qed.

Lemma knot_count_returns_inv start_ns end_ns dt_ns s n s' :
  knot_count start_ns end_ns dt_ns s = Returns n s' ->
  n = Z.quot (end_ns - start_ns) dt_ns + SPLINE_N /\ dt_ns <> 0 /\ s' = s.
Proof.
  unfold knot_count. intros H.
  apply bind_returns_inv in H. destruct H as (d & s1 & H1 & H).
  apply int64_result_returns_inv in H1. destruct H1 as [-> ->].
  apply bind_returns_inv in H. destruct H as (q & s2 & H2 & H).
  unfold int64_div in H2. destruct (dt_ns =? 0) eqn:E; [discriminate|].
  apply int64_result_returns_inv in H2. destruct H2 as [-> ->].
  apply int64_result_returns_inv in H. destruct H as [-> ->].
  apply Z.eqb_neq in E. auto.
Qed.

Lemma init_trajectory_times_returns_inv D T s w s' :
  init_trajectory_times D T s = Returns w s' ->
  Double.to_int64 (t0_s_ s * 1e9) = Some (start_t_ns w)
  /\ Double.to_int64 (tend_s_ s * 1e9) = Some (end_t_ns w)
  /\ Double.to_int64 (dt_so3 (spline_weight_data_ s) * 1e9) = Some (dt_so3_ns w)
  /\ Double.to_int64 (dt_r3 (spline_weight_data_ s) * 1e9) = Some (dt_r3_ns w).
Proof.
  unfold init_trajectory_times. rewrite bind_gets. intros H.
  apply bind_returns_inv in H. destruct H as (a & s1 & H1 & H).
  apply to_int64_returns_inv in H1. destruct H1 as [E1 ->].
  rewrite bind_gets in H.
  apply bind_returns_inv in H. destruct H as (b & s1 & H2 & H).
  apply to_int64_returns_inv in H2. destruct H2 as [E2 ->].
  rewrite bind_gets in H.
  apply bind_returns_inv in H. destruct H as (c & s1 & H3 & H).
  apply to_int64_returns_inv in H3. destruct H3 as [E3 ->].
  apply bind_returns_inv in H. destruct H as (d & s1 & H4 & H).
  apply to_int64_returns_inv in H4. destruct H4 as [E4 ->].
  unfold modify_trajectory in H. rewrite !bind_modify in H.
  inversion H; subst; simpl. auto.
Qed.

Lemma init_knots_returns_inv w s s' :
  init_knots w s = Returns tt s' ->
  nr_knots_so3_ s' = Z.quot (end_t_ns w - start_t_ns w) (dt_so3_ns w) + SPLINE_N
  /\ nr_knots_r3_ s' = Z.quot (end_t_ns w - start_t_ns w) (dt_r3_ns w) + SPLINE_N
  /\ dt_so3_ns w <> 0 /\ dt_r3_ns w <> 0.
Proof.
  unfold init_knots. intros H.
  apply bind_returns_inv in H. destruct H as (n1 & s1 & H1 & H).
  apply knot_count_returns_inv in H1. destruct H1 as (-> & D1 & ->).
  rewrite bind_modify in H.
  apply bind_returns_inv in H. destruct H as (n2 & s2 & H2 & H).
  apply knot_count_returns_inv in H2. destruct H2 as (-> & D2 & ->).
  rewrite bind_modify, bind_gets in H.
  unfold modify_trajectory, modify in H. inversion H; subst; simpl. auto.
Qed.

(** The knots a spline of order [SPLINE_N] needs at time [t] are those of the
    interval of [t] and the [SPLINE_N - 1] following; the count covers them
    for every [t] of the window. *)
Lemma knot_count_covers start_ns end_ns dt_ns t :
  0 < dt_ns -> start_ns <= t < end_ns ->
  Z.quot (t - start_ns) dt_ns + SPLINE_N
  <= Z.quot (end_ns - start_ns) dt_ns + SPLINE_N.
Proof.
  intros Hd Ht.
  rewrite !Z.quot_div_nonneg by lia.
  assert ((t - start_ns) / dt_ns <= (end_ns - start_ns) / dt_ns)
    by (apply Z.div_le_mono; lia).
  lia.
Qed.

(** C7 (amended): when [InitSpline] returns, the knot count of each
    sub-spline is the quotient of the window length by the knot spacing, both
    in whole nanoseconds and the division truncating, plus [SPLINE_N]; for a
    positive spacing this count covers every nanosecond of the window. *)
Theorem InitSpline_knot_counts D T W off gb ab tel s s' :
  InitSpline D T W off gb ab tel s = Returns tt s' ->
  exists start_ns end_ns so3_ns r3_ns,
    Double.to_int64 (t0_s_ s' * 1e9) = Some start_ns
    /\ Double.to_int64 (tend_s_ s' * 1e9) = Some end_ns
    /\ Double.to_int64 (dt_so3 W * 1e9) = Some so3_ns
    /\ Double.to_int64 (dt_r3 W * 1e9) = Some r3_ns
    /\ nr_knots_so3_ s' = Z.quot (end_ns - start_ns) so3_ns + SPLINE_N
    /\ nr_knots_r3_ s' = Z.quot (end_ns - start_ns) r3_ns + SPLINE_N
    /\ (forall t, 0 < so3_ns -> start_ns <= t < end_ns ->
                  Z.quot (t - start_ns) so3_ns + SPLINE_N <= nr_knots_so3_ s')
    /\ (forall t, 0 < r3_ns -> start_ns <= t < end_ns ->
                  Z.quot (t - start_ns) r3_ns + SPLINE_N <= nr_knots_r3_ s').
Proof.
  unfold InitSpline. rewrite !bind_modify. intros H.
  set (s1 := set_T_i_c_init_ T (set_spline_weight_data_ W s)) in H.
  apply bind_returns_inv in H. destruct H as ([] & s2 & H2 & H).
  apply bind_returns_inv in H. destruct H as ([] & s3 & H3 & H).
  apply bind_returns_inv in H. destruct H as ([] & s4 & H4 & H).
  apply bind_returns_inv in H. destruct H as (w & s5 & H5 & H).
  apply bind_returns_inv in H. destruct H as ([] & s6 & H6 & H).
  apply bind_returns_inv in H. destruct H as ([] & s7 & H7 & H).
  assert (W4 : spline_weight_data_ s4 = W).
  { carry spline_weight_data_ H4. carry spline_weight_data_ H3.
    carry spline_weight_data_ H2. rewrite Carry, Carry0, Carry1. reflexivity. }
  apply init_trajectory_times_returns_inv in H5 as Hw.
  destruct Hw as (E1 & E2 & E3 & E4). rewrite W4 in E3, E4.
  apply init_knots_returns_inv in H7 as Hk. destruct Hk as (K1 & K2 & _ & _).
  assert (B : window_of s' = window_of s4).
  { carry window_of H. carry window_of H7. carry window_of H6. carry window_of H5.
    rewrite Carry, Carry0, Carry1, Carry2. reflexivity. }
  assert (C : knot_counts_of s' = knot_counts_of s7) by (carry knot_counts_of H; assumption).
  unfold window_of in B. unfold knot_counts_of in C.
  inversion B as [[B0 B1 B2]]. inversion C as [[C1 C2]].
  exists (start_t_ns w), (end_t_ns w), (dt_so3_ns w), (dt_r3_ns w).
  rewrite B1, B2, C1, C2, K1, K2.
  repeat split; auto; intros; apply knot_count_covers; assumption.
Qed.

End KnotFacts.


(** ** The half-open window *)

Section StdMapFacts.
Context {K V : Type} (less : K -> K -> bool).

Lemma map_find_assign_same k v (m : list (K * V)) :
  less k k = false -> map_find less k (map_assign less k v m) = Some v.
Proof.
  intros Hirr. induction m as [|[k' v'] m IH]; simpl.
  - rewrite Hirr. reflexivity.
  - destruct (less k k') eqn:E1; simpl.
    + rewrite Hirr. reflexivity.
    + destruct (less k' k) eqn:E2; simpl.
      * rewrite E1, E2. simpl. exact IH.
      * rewrite E1, E2. reflexivity.
Qed.

(** An entry of the map after [m[k] = v] is an entry of [m], or holds [v]
    under a key equivalent to [k]. *)
Lemma in_map_assign k v (m : list (K * V)) k' x :
  In (k', x) (map_assign less k v m) ->
  In (k', x) m \/ (x = v /\ less k k' = false /\ less k' k = false)
  \/ (k' = k /\ x = v).
Proof.
  induction m as [|[k0 v0] m IH]; simpl.
  - intros [E | []]. inversion E; subst. right; right; auto.
  - destruct (less k k0) eqn:E1; simpl.
    + intros [E | H]; [inversion E; subst; right; right; auto | left; exact H].
    + destruct (less k0 k) eqn:E2; simpl.
      * intros [E | H]; [left; left; exact E|].
        destruct (IH H) as [H1 | H1]; [left; right; exact H1 | right; exact H1].
      * intros [E | H]; [|left; right; exact H].
        inversion E; subst. right; left; auto.
Qed.

End StdMapFacts.

Section WindowFacts.
Context {G : Geometry}.
Import DoubleOrder.

Lemma TimeCamId_less_irrefl k : TimeCamId_less k k = false.
Proof.
  unfold TimeCamId_less. rewrite !Z.ltb_irrefl, andb_false_r. reflexivity.
Qed.

Lemma TimeCamId_equiv k k' :
  TimeCamId_less k k' = false -> TimeCamId_less k' k = false -> k' = k.
Proof.
  destruct k as [a b], k' as [a' b']. unfold TimeCamId_less; simpl.
  intros H1 H2.
  apply orb_false_iff in H1. destruct H1 as [H1 H1'].
  apply orb_false_iff in H2. destruct H2 as [H2 H2'].
  apply Z.ltb_ge in H1, H2. assert (a = a') by lia. subst.
  rewrite Z.eqb_refl in H1', H2'. simpl in *.
  apply Z.ltb_ge in H1', H2'. assert (b = b') by lia. subst. reflexivity.
Qed.

Lemma collect_spec {A B : Type} (f : A -> option B) (l : list A) s :
  collect f l s = match all_some f l with
                  | Some bs => Returns bs s
                  | None => Undefined NullPointer s
                  end.
Proof.
  induction l as [|x l IH]; simpl.
  - reflexivity.
  - unfold bind, deref. destruct (f x) as [b|]; simpl; [|reflexivity].
    rewrite IH. destruct (all_some f l); reflexivity.
Qed.

(** A view outside the window is skipped: the call returns and the members
    are as before. *)
Lemma ingest_view_skips D T id v s :
  GetView D id = Some v ->
  (tend_s_ s <=? GetTimestamp v)%float = true
  \/ (GetTimestamp v <? t0_s_ s)%float = true ->
  ingest_view D T id s = Returns tt s.
Proof.
  intros Hv Hout. unfold ingest_view, bind, deref, gets. rewrite Hv. simpl.
  destruct Hout as [-> | ->]; rewrite ?orb_true_r; reflexivity.
Qed.

(** A view in the window is stored under its nanosecond key. *)
Lemma ingest_view_accepts D T id v s fid cs :
  GetView D id = Some v ->
  (tend_s_ s <=? GetTimestamp v)%float = false ->
  (GetTimestamp v <? t0_s_ s)%float = false ->
  Double.to_int64 (GetTimestamp v * 1e9) = Some fid ->
  all_some (GetFeature v) (TrackIds v) = Some cs ->
  ingest_view D T id s =
  Returns tt
    (set_spline_init_poses_
       (map_assign TimeCamId_less (view_key fid) (view_spline_pose T v)
                   (spline_init_poses_ s))
       (set_calib_init_poses_
          (map_assign TimeCamId_less (view_key fid) (view_pose v) (calib_init_poses_ s))
          (set_calib_corners_
             (map_assign TimeCamId_less (view_key fid) (view_corner_data v cs)
                         (calib_corners_ s)) s))).
Proof.
  intros Hv H1 H2 Hf Hc. unfold ingest_view.
  unfold bind at 1. unfold deref. rewrite Hv. unfold ret.
  rewrite !bind_gets. rewrite H1, H2. simpl.
  unfold bind at 1. unfold to_int64. rewrite Hf. unfold ret.
  unfold bind at 1. rewrite collect_spec, Hc.
  rewrite !bind_modify, bind_gets. simpl.
  unfold bind at 1. fold (view_key fid).
  rewrite map_find_assign_same by apply TimeCamId_less_irrefl.
  unfold at_key, ret. reflexivity.
Qed.

(** An inertial sample outside the window is skipped. *)
Lemma add_accl_sample_skips tel off ab i ms s :
  nth_error (timestamp_ms (accelerometer tel)) i = Some ms ->
  (ms * 1e-3 + off <? t0_s_ s)%float = true
  \/ (tend_s_ s <=? ms * 1e-3 + off)%float = true ->
  add_accl_sample tel off ab i s = Returns tt s.
Proof.
  intros Hi Hout. unfold add_accl_sample, bind, index, gets. rewrite Hi. simpl.
  destruct Hout as [-> | ->]; rewrite ?orb_true_r; reflexivity.
Qed.

Lemma add_gyro_sample_skips tel off gb i ms s :
  nth_error (timestamp_ms (gyroscope tel)) i = Some ms ->
  (ms * 1e-3 + off <? t0_s_ s)%float = true
  \/ (tend_s_ s <=? ms * 1e-3 + off)%float = true ->
  add_gyro_sample tel off gb i s = Returns tt s.
Proof.
  intros Hi Hout. unfold add_gyro_sample, bind, index, gets. rewrite Hi. simpl.
  destruct Hout as [-> | ->]; rewrite ?orb_true_r; reflexivity.
Qed.

(** An inertial sample in the window is handed to the trajectory and stored
    under its corrected timestamp. *)
Lemma add_accl_sample_accepts tel off ab i ms meas t_ns s :
  nth_error (timestamp_ms (accelerometer tel)) i = Some ms ->
  nth_error (measurement (accelerometer tel)) i = Some meas ->
  (ms * 1e-3 + off <? t0_s_ s)%float = false ->
  (tend_s_ s <=? ms * 1e-3 + off)%float = false ->
  Double.to_int64 ((ms * 1e-3 + off) * 1e9) = Some t_ns ->
  add_accl_sample tel off ab i s =
  Returns tt
    (set_accl_measurements
       (map_assign PrimFloat.ltb (ms * 1e-3 + off)%float (vec_add meas ab)
                   (accl_measurements s))
       (set_trajectory_
          (addResidual
             (AccelResidual (vec_add meas ab) t_ns
                (1 / var_r3 (spline_weight_data_ s))%float (reestimate_biases_ s))
             (trajectory_ s)) s)).
Proof.
  intros Hi Hm H1 H2 Ht. unfold add_accl_sample, bind, index, gets, to_int64.
  rewrite Hi. simpl. rewrite H1, H2. simpl. rewrite Hm. simpl. rewrite Ht.
  reflexivity.
Qed.

Lemma add_gyro_sample_accepts tel off gb i ms meas t_ns s :
  nth_error (timestamp_ms (gyroscope tel)) i = Some ms ->
  nth_error (measurement (gyroscope tel)) i = Some meas ->
  (ms * 1e-3 + off <? t0_s_ s)%float = false ->
  (tend_s_ s <=? ms * 1e-3 + off)%float = false ->
  Double.to_int64 ((ms * 1e-3 + off) * 1e9) = Some t_ns ->
  add_gyro_sample tel off gb i s =
  Returns tt
    (set_gyro_measurements
       (map_assign PrimFloat.ltb (ms * 1e-3 + off)%float (vec_add meas gb)
                   (gyro_measurements s))
       (set_trajectory_
          (addResidual
             (GyroResidual (vec_add meas gb) t_ns
                (1 / var_so3 (spline_weight_data_ s))%float (reestimate_biases_ s))
             (trajectory_ s)) s)).
Proof.
  intros Hi Hm H1 H2 Ht. unfold add_gyro_sample, bind, index, gets, to_int64.
  rewrite Hi. simpl. rewrite H1, H2. simpl. rewrite Hm. simpl. rewrite Ht.
  reflexivity.
Qed.

(** A stored corner observation whose key is outside the window in
    nanoseconds adds no residual. *)
Lemma add_corner_skips D w kv s :
  frame_id (fst kv) < start_t_ns w \/ end_t_ns w <= frame_id (fst kv) ->
  add_corner D w kv s = Returns tt s.
Proof.
  intros Hout. unfold add_corner.
  destruct Hout as [H | H].
  - apply Z.leb_gt in H. rewrite H. reflexivity.
  - apply Z.ltb_ge in H. rewrite H, andb_false_r. reflexivity.
Qed.

Lemma add_corner_accepts D w kv view0 s :
  start_t_ns w <= frame_id (fst kv) < end_t_ns w ->
  GetView D 0%N = Some view0 ->
  add_corner D w kv s =
  Returns tt
    (set_trajectory_
       (addResidual (RSCornersResidual (snd kv) (GetCamera view0) (frame_id (fst kv)))
                    (trajectory_ s)) s).
Proof.
  intros [H1 H2] Hv. unfold add_corner.
  apply Z.leb_le in H1. apply Z.ltb_lt in H2. rewrite H1, H2. simpl.
  unfold bind, deref. rewrite Hv. reflexivity.
Qed.

(** A timestamp equal to [t0] lies in a non-empty window; one equal to
    [t_end] does not. *)
Lemma at_t0_in_window t t0 tend :
  (t =? t0)%float = true -> (t0 <? tend)%float = true ->
  (t <? t0)%float = false /\ (tend <=? t)%float = false.
Proof.
  intros Heq Hlt. split.
  - apply leb_ltb_false. apply eqb_leb. apply eqb_sym. assumption.
  - destruct (tend <=? t)%float eqn:E; [|reflexivity].
    assert (L : (tend <=? t0)%float = true)
      by (eapply leb_trans; [exact E | apply eqb_leb; assumption]).
    apply leb_ltb_false in L. congruence.
Qed.

Lemma at_tend_outside t tend :
  (t =? tend)%float = true -> (tend <=? t)%float = true.
Proof. intros H. apply eqb_leb, eqb_sym. assumption. Qed.

End WindowFacts.

(** ** Gravity initialisation *)

(** Decomposition of a goal [preserves P m] along the structure of [m]; the
    assignments are left to the caller. *)
Ltac keep_step :=
  lazymatch goal with
  | |- preserves _ (bind _ _) => apply preserves_bind; [|intros ?]
  | |- preserves _ (ret _) => apply preserves_ret
  | |- preserves _ (gets _) => apply preserves_gets
  | |- preserves _ (undefined _) => apply preserves_undefined
  | |- preserves _ throw => apply preserves_throw
  | |- preserves _ (collect _ _) => apply preserves_collect
  | |- preserves _ (deref ?p) => unfold deref; destruct p
  | |- preserves _ (index ?v ?i) => unfold index; destruct (nth_error v i)
  | |- preserves _ (at_key ?p) => unfold at_key; destruct p
  | |- preserves _ (to_int64 ?x) => unfold to_int64; destruct (Double.to_int64 x)
  | |- preserves _ (int64_result ?z) => unfold int64_result; destruct (Double.in_int64 z)
  | |- preserves _ (int64_div ?a ?b) => unfold int64_div; destruct (b =? 0)
  | |- preserves _ (let _ := _ in _) => cbv zeta
  | |- preserves _ (if ?c then _ else _) => destruct c eqn:?
  | |- preserves _ (match ?c with _ => _ end) => destruct c eqn:?
  end.

Ltac keep := repeat keep_step.

Section GravityFacts.
Context {G : Geometry}.

Lemma preserves_scan_accl (P : ImuCameraCalibrator -> Prop)
    (body : nat -> M unit) (range : list nat) :
  (forall i, preserves P (body i)) -> preserves P (scan_accl body range).
Proof.
  intros Hb. induction range as [|i range IH]; simpl.
  - apply preserves_ret.
  - apply preserves_bind; [apply preserves_gets|].
    intros [|]; [apply preserves_ret|].
    apply preserves_bind; auto.
Qed.

Lemma try_accl_sample_untouched g0 tel ab T_a_i cam_t i :
  preserves (gravity_untouched g0) (try_accl_sample tel ab T_a_i cam_t i).
Proof.
  unfold try_accl_sample.
  apply preserves_bind; [keep|intros meas]. cbv zeta.
  apply preserves_bind; [keep|intros ms].
  apply preserves_bind; [keep|intros accl_t].
  destruct (abs (Double.of_int accl_t - cam_t) <? 1 / 30)%float;
    [|apply preserves_ret].
  intros s _. simpl. intros H. discriminate.
Qed.

Lemma gravity_at_untouched g0 tel ab j :
  preserves (gravity_untouched g0) (gravity_at tel ab j).
Proof.
  unfold gravity_at. keep.
  apply preserves_scan_accl. intros i. apply try_accl_sample_untouched.
Qed.

(** When no match was found, [gravity_init_] is as before, and it has been
    handed to the trajectory all the same. *)
Lemma InitializeGravity_unmatched tel ab s s' :
  InitializeGravity tel ab s = Returns tt s' ->
  gravity_initialized_ s' = false ->
  gravity_init_ s' = gravity_init_ s
  /\ g (trajectory_ s') = Some (gravity_init_ s).
Proof.
  unfold InitializeGravity. rewrite bind_gets. intros H Hflag.
  apply bind_returns_inv in H. destruct H as ([] & s1 & H1 & H).
  assert (P1 : gravity_untouched (gravity_init_ s) s1).
  { pose proof (preserves_for_each (gravity_untouched (gravity_init_ s))
                  (indices (cam_timestamps_ s)) (gravity_at tel ab)
                  (fun j _ => gravity_at_untouched _ tel ab j) s) as P.
    rewrite H1 in P. apply P. intros _. reflexivity. }
  rewrite bind_gets in H. unfold modify_trajectory, modify in H.
  inversion H; subst; clear H. simpl in *.
  rewrite (P1 Hflag). split; reflexivity.
Qed.

(** [Optimize] runs the solver and returns the two diagnostics in every
    state. *)
Lemma Optimize_returns {S : Solver} iterations s :
  Optimize iterations s =
  Returns [meanReprojection (optimize iterations (trajectory_ s)) (calib_corners_ s);
           meanRSReprojection (optimize iterations (trajectory_ s)) (calib_corners_ s)]
          (set_trajectory_ (optimize iterations (trajectory_ s)) s).
Proof. reflexivity. Qed.

(** C2 (amended): when [InitializeGravity] returns without a match
    ([gravity_initialized_] still false), [gravity_init_] is as it was before
    the call and has nevertheless been handed to the trajectory by [setG];
    [Optimize] does not consult [gravity_initialized_]: it runs the solver and
    returns the two diagnostics. *)
Theorem InitializeGravity_unmatched_not_surfaced {S : Solver} tel ab s s' iterations :
  InitializeGravity tel ab s = Returns tt s' ->
  gravity_initialized_ s' = false ->
  gravity_init_ s' = gravity_init_ s
  /\ g (trajectory_ s') = Some (gravity_init_ s)
  /\ exists errors s'',
       Optimize iterations s' = Returns errors s''
       /\ length errors = 2%nat
       /\ trajectory_ s'' = optimize iterations (trajectory_ s')
       /\ gravity_initialized_ s'' = false.
Proof.
  intros H Hflag.
  destruct (InitializeGravity_unmatched tel ab s s' H Hflag) as [E1 E2].
  repeat split; try assumption.
  eexists. eexists. split; [apply Optimize_returns|].
  simpl. repeat split. assumption.
Qed.

End GravityFacts.


(** ** The frames that are ingested *)

Section LastFrameFacts.
Context {G : Geometry}.
Import DoubleOrder.

(** What a call of the loop body over the views does to the members: nothing,
    or the three assignments of an accepted view. *)
Lemma ingest_view_state D T id s :
  state_of (ingest_view D T id s) = s
  \/ exists v fid cs,
       GetView D id = Some v
       /\ (tend_s_ s <=? GetTimestamp v)%float = false
       /\ Double.to_int64 (GetTimestamp v * 1e9) = Some fid
       /\ all_some (GetFeature v) (TrackIds v) = Some cs
       /\ state_of (ingest_view D T id s)
          = set_spline_init_poses_
              (map_assign TimeCamId_less (view_key fid) (view_spline_pose T v)
                          (spline_init_poses_ s))
              (set_calib_init_poses_
                 (map_assign TimeCamId_less (view_key fid) (view_pose v)
                             (calib_init_poses_ s))
                 (set_calib_corners_
                    (map_assign TimeCamId_less (view_key fid) (view_corner_data v cs)
                                (calib_corners_ s)) s)).
Proof.
  destruct (GetView D id) as [v|] eqn:Hv.
  2:{ left. unfold ingest_view, bind, deref. rewrite Hv. reflexivity. }
  destruct (tend_s_ s <=? GetTimestamp v)%float eqn:H1.
  { left. rewrite (ingest_view_skips D T id v s Hv); auto. }
  destruct (GetTimestamp v <? t0_s_ s)%float eqn:H2.
  { left. rewrite (ingest_view_skips D T id v s Hv); auto. }
  destruct (Double.to_int64 (GetTimestamp v * 1e9)) as [fid|] eqn:Hf.
  2:{ left. unfold ingest_view, bind, deref, gets, to_int64. rewrite Hv. simpl.
      rewrite H1, H2. simpl. rewrite Hf. reflexivity. }
  destruct (all_some (GetFeature v) (TrackIds v)) as [cs|] eqn:Hc.
  2:{ left. unfold ingest_view.
      unfold bind at 1. unfold deref. rewrite Hv. unfold ret.
      rewrite !bind_gets. rewrite H1, H2. simpl.
      unfold bind at 1. unfold to_int64. rewrite Hf. unfold ret.
      unfold bind at 1. rewrite collect_spec, Hc. reflexivity. }
  right. exists v, fid, cs. repeat split; auto.
  rewrite (ingest_view_accepts D T id v s fid cs Hv H1 H2 Hf Hc). reflexivity.
Qed.

Lemma ingested_from_view_key D tend k v :
  ingested_from D tend k v -> ingested_from D tend (view_key (frame_id k)) v.
Proof. unfold ingested_from. simpl. tauto. Qed.

Lemma ingest_view_invariant D T tend id :
  views_exist D -> no_nan (view_timestamps D) -> is_nan tend = false ->
  In id (ViewIds D) ->
  preserves (window_invariant D T tend) (ingest_view D T id).
Proof.
  intros Hex Hn Hnt Hin s [Ht HS].
  destruct (ingest_view_state D T id s) as [-> | (v & fid & cs & Hv & H1 & Hf & Hc & ->)].
  { split; assumption. }
  assert (Hlt : (GetTimestamp v <? tend)%float = true).
  { destruct (GetTimestamp v <? tend)%float eqn:E; [reflexivity|].
    assert (Nv : is_nan (GetTimestamp v) = false).
    { unfold no_nan in Hn. rewrite Forall_forall in Hn. apply Hn.
      unfold view_timestamps. apply in_flat_map. exists id. split; [assumption|].
      rewrite Hv. left. reflexivity. }
    rewrite Ht in H1. rewrite (ltb_false_leb _ _ Nv Hnt E) in H1. discriminate. }
  assert (From : ingested_from D tend (view_key fid) v).
  { unfold ingested_from. simpl. repeat split; eauto. }
  destruct HS as (Sc & Sp & Ss & Sr).
  split; [exact Ht|]. unfold stored_before. simpl.
  split; [|split; [|split]].
  - intros k cd Hk. apply in_map_assign in Hk.
    destruct Hk as [Hk | [(-> & E1 & E2) | (-> & ->)]].
    + apply Sc. assumption.
    + apply TimeCamId_equiv in E1; [|assumption]. subst k. eauto.
    + eauto.
  - intros k p Hk. apply in_map_assign in Hk.
    destruct Hk as [Hk | [(-> & E1 & E2) | (-> & ->)]].
    + apply Sp. assumption.
    + apply TimeCamId_equiv in E1; [|assumption]. subst k. eauto.
    + eauto.
  - intros k p Hk. apply in_map_assign in Hk.
    destruct Hk as [Hk | [(-> & E1 & E2) | (-> & ->)]].
    + apply Ss. assumption.
    + apply TimeCamId_equiv in E1; [|assumption]. subst k. eauto.
    + eauto.
  - exact Sr.
Qed.

Lemma init_trajectory_times_invariant D T tend :
  preserves (window_invariant D T tend) (init_trajectory_times D T).
Proof.
  unfold init_trajectory_times, modify_trajectory. keep;
    try (apply preserves_modify; intros s HP; exact HP).
Qed.

Lemma init_knots_invariant D T tend w :
  preserves (window_invariant D T tend) (init_knots w).
Proof.
  unfold init_knots, knot_count, modify_trajectory. keep;
    try (apply preserves_modify; intros s HP; exact HP).
Qed.

Lemma add_residual_invariant D T tend r :
  (forall cd cam t, r <> RSCornersResidual cd cam t) ->
  preserves (window_invariant D T tend) (modify_trajectory (addResidual r)).
Proof.
  intros Hr. unfold modify_trajectory. apply preserves_modify.
  intros s [Ht (Sc & Sp & Ss & Sr)]. split; [exact Ht|].
  unfold stored_before. simpl. repeat split; try assumption.
  intros cd cam t Hin. apply in_app_or in Hin. destruct Hin as [Hin | [E | []]].
  - apply Sr with (cam := cam). assumption.
  - exfalso. apply (Hr cd cam t). assumption.
Qed.

Lemma add_accl_sample_invariant D T tend tel off ab i :
  preserves (window_invariant D T tend) (add_accl_sample tel off ab i).
Proof.
  unfold add_accl_sample. keep;
    try (apply preserves_modify; intros s HP; exact HP).
  apply add_residual_invariant. intros; discriminate.
Qed.

Lemma add_gyro_sample_invariant D T tend tel off gb i :
  preserves (window_invariant D T tend) (add_gyro_sample tel off gb i).
Proof.
  unfold add_gyro_sample. keep;
    try (apply preserves_modify; intros s HP; exact HP).
  apply add_residual_invariant. intros; discriminate.
Qed.

Lemma add_corner_invariant D T tend w k cd :
  (exists v cs, ingested_from D tend k v
                /\ all_some (GetFeature v) (TrackIds v) = Some cs
                /\ cd = view_corner_data v cs) ->
  preserves (window_invariant D T tend) (add_corner D w (k, cd)).
Proof.
  intros (v & cs & From & Hc & ->). unfold add_corner. simpl. keep.
  unfold modify_trajectory. apply preserves_modify.
  intros s [Ht (Sc & Sp & Ss & Sr)]. split; [exact Ht|].
  unfold stored_before. simpl. repeat split; try assumption.
  intros cd cam t Hin. apply in_app_or in Hin. destruct Hin as [Hin | [E | []]].
  - apply Sr with (cam := cam). assumption.
  - injection E as E1 E2 E3. subst cd cam t. exists v, cs.
    split; [apply ingested_from_view_key; assumption|].
    split; [assumption | reflexivity].
Qed.

Lemma add_corners_invariant D T tend w :
  preserves (window_invariant D T tend) (add_corners D w).
Proof.
  intros s HP. unfold add_corners. rewrite bind_gets.
  apply preserves_for_each; [|exact HP].
  intros [k cd] Hin. apply add_corner_invariant.
  destruct HP as [_ (Sc & _)]. apply Sc. assumption.
Qed.

Lemma InitSpline_from_window_invariant D T tend off gb ab tel :
  views_exist D -> no_nan (view_timestamps D) -> is_nan tend = false ->
  preserves (window_invariant D T tend) (InitSpline_from_window D T off gb ab tel).
Proof.
  intros Hex Hn Hnt. unfold InitSpline_from_window.
  apply preserves_bind; [apply init_trajectory_times_invariant|]. intros w.
  apply preserves_bind.
  { apply preserves_for_each. intros id Hin. apply ingest_view_invariant; assumption. }
  intros _. apply preserves_bind; [apply init_knots_invariant|]. intros _.
  apply preserves_bind; [apply add_corners_invariant|]. intros _.
  apply preserves_bind.
  { apply preserves_for_each. intros i _. apply add_accl_sample_invariant. }
  intros _. apply preserves_for_each. intros i _. apply add_gyro_sample_invariant.
Qed.

Lemma is_maximum_perm b l l' :
  Permutation l l' -> is_maximum b l -> is_maximum b l'.
Proof.
  intros P [Hin Hall]. split.
  - eapply Permutation_in; eassumption.
  - eapply Permutation_Forall; eassumption.
Qed.

Lemma is_maximum_not_nan b l : is_maximum b l -> is_nan b = false.
Proof.
  intros [Hin Hall]. rewrite Forall_forall in Hall.
  apply (leb_not_nan b b). apply Hall. assumption.
Qed.

(** C10: on a calibrator that holds no stored views and no residuals,
    [InitSpline] never ingests a frame whose timestamp is the largest camera
    timestamp: [tend_s_] is the maximum of the camera timestamps (those of
    the views, for a calibrator that held none), the loop body does nothing
    for a view whose timestamp equals it, and every corner observation,
    initial pose, spline pose and reprojection residual the calibrator ends
    up with belongs to a view strictly earlier than it. *)
Theorem InitSpline_never_ingests_last_frame D T W off gb ab tel s :
  ViewIds D <> [] -> views_exist D ->
  no_nan (cam_timestamps_ s ++ view_timestamps D) ->
  calib_corners_ s = [] -> calib_init_poses_ s = [] -> spline_init_poses_ s = [] ->
  residuals (trajectory_ s) = [] ->
  let s' := state_of (InitSpline D T W off gb ab tel s) in
  is_maximum (tend_s_ s') (cam_timestamps_ s ++ view_timestamps D)
  /\ (forall id v s1,
        GetView D id = Some v ->
        (GetTimestamp v =? tend_s_ s')%float = true ->
        tend_s_ s1 = tend_s_ s' ->
        ingest_view D T id s1 = Returns tt s1)
  /\ stored_before D T (tend_s_ s') s'.
Proof.
  intros Hne Hex Hn Hc Hp Hs Hr s'.
  assert (Hnv : no_nan (view_timestamps D)).
  { unfold no_nan in *. apply Forall_app in Hn. apply Hn. }
  destruct (InitSpline_reaches_window D T W off gb ab tel s Hne Hex Hn)
    as (d & a & b & E & _ & Hmin & Hmax).
  apply (is_maximum_perm _ _ _ (std_sort_perm _)) in Hmax.
  pose proof (is_maximum_not_nan _ _ Hmax) as Hnb.
  set (s4 := at_window T W _ d a b s) in E.
  assert (I4 : window_invariant D T b s4).
  { split; [reflexivity|]. unfold stored_before, s4. simpl.
    rewrite Hc, Hp, Hs, Hr. repeat split; intros; contradiction. }
  pose proof (InitSpline_from_window_invariant D T b off gb ab tel Hex Hnv Hnb s4 I4) as I.
  subst s'. rewrite E. destruct I as [Eb Stored].
  rewrite Eb. split; [exact Hmax|]. split; [|exact Stored].
  intros id v s1 Hv Heq Hs1. apply (ingest_view_skips D T id v s1 Hv).
  left. rewrite Hs1. apply at_tend_outside. assumption.
Qed.

End LastFrameFacts.


(** ** Reuse after [ClearSpline] *)

Section RelatedRuns.
Context {G : Geometry}.

Lemma related_ret {A : Type} (R : state_rel) (x : A) : related R R (ret x).
Proof. intros a b H. simpl. auto. Qed.

Lemma related_undefined {A : Type} (R R' : state_rel) u : related R R' (@undefined G A u).
Proof. intros a b H. reflexivity. Qed.

Lemma related_throw {A : Type} (R R' : state_rel) : related R R' (@throw G A).
Proof. intros a b H. exact I. Qed.

Lemma related_gets {A : Type} (R : state_rel) (f : ImuCameraCalibrator -> A) :
  (forall a b, R a b -> f a = f b) -> related R R (gets f).
Proof. intros Hf a b H. simpl. auto. Qed.

Lemma related_modify (R R' : state_rel) f :
  (forall a b, R a b -> R' (f a) (f b)) -> related R R' (modify f).
Proof. intros Hf a b H. simpl. auto. Qed.

Lemma related_bind {A B : Type} (R R' R'' : state_rel) (m : M A) (k : A -> M B) :
  related R R' m -> (forall x, related R' R'' (k x)) -> related R R'' (bind m k).
Proof.
  intros Hm Hk a b H. specialize (Hm a b H). unfold bind.
  destruct (m a) as [x a'|a'|u a'], (m b) as [y b'|b'|u' b']; try contradiction; auto.
  destruct Hm as [<- H']. apply Hk. assumption.
Qed.

Lemma related_for_each {A : Type} (R : state_rel) (l : list A) (body : A -> M unit) :
  (forall x, related R R (body x)) -> related R R (for_each l body).
Proof.
  intros Hb. induction l as [|x l IH]; simpl.
  - apply related_ret.
  - eapply related_bind; [apply Hb | intros _; exact IH].
Qed.

Lemma related_collect {A B : Type} (R : state_rel) (f : A -> option B) (l : list A) :
  related R R (collect f l).
Proof.
  intros a b H. rewrite !collect_spec. destruct (all_some f l); simpl; auto.
Qed.

End RelatedRuns.

Ltac unfold_same :=
  unfold same_but_gravity, same_window, same_line_delay, same_arguments,
    same_contents in *.

(** Assignments and reads on related members. *)
Ltac same_fields :=
  let a := fresh "a" in
  let b := fresh "b" in
  let H := fresh "H" in
  intros a b H; unfold_same; simpl; intuition congruence.

(** Decomposition of a goal [related R R m] along the structure of [m], for
    computations that stay within one relation. *)
Ltac related_step :=
  lazymatch goal with
  | |- related ?R ?R' (bind _ _) => apply (related_bind R R R'); [|intros ?]
  | |- related _ _ (ret _) => apply related_ret
  | |- related _ _ (undefined _) => apply related_undefined
  | |- related _ _ throw => apply related_throw
  | |- related _ _ (gets _) => apply related_gets; same_fields
  | |- related _ _ (modify _) => apply related_modify; same_fields
  | |- related _ _ (modify_trajectory _) =>
      unfold modify_trajectory; apply related_modify; same_fields
  | |- related _ _ (for_each _ _) => apply related_for_each; intros ?
  | |- related _ _ (collect _ _) => apply related_collect
  | |- related _ _ (deref ?p) => unfold deref; destruct p
  | |- related _ _ (index ?v ?i) => unfold index; destruct (nth_error v i)
  | |- related _ _ (at_key ?p) => unfold at_key; destruct p
  | |- related _ _ (to_int64 ?x) => unfold to_int64; destruct (Double.to_int64 x)
  | |- related _ _ (int64_result ?z) => unfold int64_result; destruct (Double.in_int64 z)
  | |- related _ _ (int64_div ?a ?b) => unfold int64_div; destruct (b =? 0)
  | |- related _ _ (let _ := _ in _) => cbv zeta
  | |- related _ _ (if ?c then _ else _) => destruct c
  | |- related _ _ (match ?c with _ => _ end) => destruct c
  end.

Ltac related_run := repeat (autounfold with blocks; related_step).

Section ClearFacts.
Context {G : Geometry}.

Lemma collect_timestamps_related D :
  related same_arguments same_arguments (collect_timestamps D).
Proof. related_run. Qed.

Lemma init_line_delay_related D W :
  related same_arguments same_line_delay (init_line_delay D W).
Proof.
  unfold init_line_delay.
  eapply related_bind; [apply related_gets; same_fields|]. intros calibrate.
  eapply related_bind with (R' := same_line_delay).
  - destruct calibrate.
    + eapply related_bind; [related_run|]. intros view_id.
      eapply related_bind; [related_run|]. intros view.
      apply related_modify. same_fields.
    + apply related_modify. same_fields.
  - intros _. related_run.
Qed.

Lemma find_window_related : related same_line_delay same_window find_window.
Proof.
  unfold find_window.
  eapply related_bind; [apply related_gets; same_fields|]. intros ts. cbv zeta.
  eapply related_bind; [related_run|]. intros t0.
  eapply related_bind
    with (R' := fun a b => same_line_delay a b /\ t0_s_ a = t0_s_ b).
  { apply related_modify. same_fields. }
  intros _. eapply related_bind; [related_run|]. intros tend.
  apply related_modify. same_fields.
Qed.

Lemma init_trajectory_times_related D T :
  related same_window same_window (init_trajectory_times D T).
Proof. related_run. Qed.

Lemma ingest_view_related D T id :
  related same_window same_window (ingest_view D T id).
Proof. related_run. Qed.

Lemma knot_count_related (R : state_rel) start_ns end_ns dt_ns :
  related R R (knot_count start_ns end_ns dt_ns).
Proof.
  unfold knot_count.
  eapply related_bind; [|intros d; eapply related_bind; [|intros q]].
  - unfold int64_result. destruct (Double.in_int64 _);
      [apply related_ret | apply related_undefined].
  - unfold int64_div. destruct (dt_ns =? 0); [apply related_undefined|].
    unfold int64_result. destruct (Double.in_int64 _);
      [apply related_ret | apply related_undefined].
  - unfold int64_result. destruct (Double.in_int64 _);
      [apply related_ret | apply related_undefined].
Qed.

Lemma init_knots_related w :
  related same_window same_but_gravity (init_knots w).
Proof.
  unfold init_knots.
  eapply related_bind; [apply knot_count_related|]. intros n_so3.
  eapply related_bind
    with (R' := fun a b => same_window a b /\ nr_knots_so3_ a = nr_knots_so3_ b).
  { apply related_modify. same_fields. }
  intros _. eapply related_bind; [apply knot_count_related|]. intros n_r3.
  eapply related_bind with (R' := same_but_gravity).
  { apply related_modify. same_fields. }
  intros _. related_run.
Qed.

Lemma add_corners_related D w :
  related same_but_gravity same_but_gravity (add_corners D w).
Proof. related_run. Qed.

Lemma add_accl_sample_related tel off ab i :
  related same_but_gravity same_but_gravity (add_accl_sample tel off ab i).
Proof. related_run. Qed.

Lemma add_gyro_sample_related tel off gb i :
  related same_but_gravity same_but_gravity (add_gyro_sample tel off gb i).
Proof. related_run. Qed.

(** [InitSpline] reads no member before it has written it, except the
    containers, the switches and the trajectory: from calibrators that agree
    on those, two runs end alike and agree on all members but the gravity
    estimate. *)
Lemma InitSpline_related D T W off gb ab tel :
  related same_contents same_but_gravity (InitSpline D T W off gb ab tel).
Proof.
  unfold InitSpline.
  eapply related_bind
    with (R' := fun a b => same_contents a b
                           /\ spline_weight_data_ a = spline_weight_data_ b).
  { apply related_modify. same_fields. }
  intros _. eapply related_bind with (R' := same_arguments).
  { apply related_modify. same_fields. }
  intros _. eapply related_bind; [apply collect_timestamps_related|].
  intros _. eapply related_bind; [apply init_line_delay_related|].
  intros _. eapply related_bind; [apply find_window_related|].
  intros _. eapply related_bind; [apply init_trajectory_times_related|].
  intros w. eapply related_bind.
  { apply related_for_each. intros id. apply ingest_view_related. }
  intros _. eapply related_bind; [apply init_knots_related|].
  intros _. eapply related_bind; [apply add_corners_related|].
  intros _. eapply related_bind.
  { apply related_for_each. intros i. apply add_accl_sample_related. }
  intros _. apply related_for_each. intros i. apply add_gyro_sample_related.
Qed.

Lemma InitSpline_keeps_gravity D T W off gb ab tel :
  unchanged gravity_of (InitSpline D T W off gb ab tel).
Proof. unfold InitSpline. frame. Qed.

Lemma ClearSpline_returns s :
  ClearSpline s =
  Returns tt
    (set_trajectory_ Trajectory_empty
       (set_spline_init_poses_ []
          (set_calib_init_poses_ []
             (set_calib_corners_ []
                (set_accl_measurements []
                   (set_gyro_measurements [] (set_cam_timestamps_ [] s))))))).
Proof. reflexivity. Qed.

Lemma cleared_same_contents_as_new used new :
  brand_new new ->
  calibrate_cam_line_delay_ new = calibrate_cam_line_delay_ used ->
  reestimate_biases_ new = reestimate_biases_ used ->
  forall cleared, ClearSpline used = Returns tt cleared ->
  same_contents cleared new /\ gravity_of cleared = gravity_of used.
Proof.
  intros (N1 & N2 & N3 & N4 & N5 & N6 & N7 & N8) Hc Hr cleared E.
  rewrite ClearSpline_returns in E. injection E as <-.
  unfold same_contents, gravity_of. simpl.
  rewrite N1, N2, N3, N4, N5, N6, N7, Hc, Hr. repeat split; reflexivity.
Qed.

(** C9 (amended): [ClearSpline] followed by [InitSpline] on a used calibrator
    and [InitSpline] on a brand-new one with the same switches end alike, and
    when they return the two calibrators agree on every member (timestamps,
    window bounds, line delay, knot counts, measurement maps, trajectory)
    except the gravity estimate: [gravity_initialized_] and [gravity_init_]
    are those the used calibrator had, and those of the new one. *)
Theorem ClearSpline_InitSpline_as_new D T W off gb ab tel used new :
  brand_new new ->
  calibrate_cam_line_delay_ new = calibrate_cam_line_delay_ used ->
  reestimate_biases_ new = reestimate_biases_ used ->
  (forall s1,
     (ClearSpline ;; InitSpline D T W off gb ab tel) used = Returns tt s1 ->
     exists s2,
       InitSpline D T W off gb ab tel new = Returns tt s2
       /\ same_but_gravity s1 s2
       /\ gravity_of s1 = gravity_of used /\ gravity_of s2 = gravity_of new)
  /\ (forall s2,
        InitSpline D T W off gb ab tel new = Returns tt s2 ->
        exists s1,
          (ClearSpline ;; InitSpline D T W off gb ab tel) used = Returns tt s1
          /\ same_but_gravity s1 s2
          /\ gravity_of s1 = gravity_of used /\ gravity_of s2 = gravity_of new).
Proof.
  intros Hnew Hc Hr.
  destruct (cleared_same_contents_as_new used new Hnew Hc Hr _ (ClearSpline_returns used))
    as [Same Grav].
  rewrite (bind_returns _ _ _ _ _ (ClearSpline_returns used)).
  set (cleared := set_trajectory_ _ _) in *.
  pose proof (InitSpline_related D T W off gb ab tel cleared new Same) as Rel.
  pose proof (InitSpline_keeps_gravity D T W off gb ab tel cleared) as G1.
  pose proof (InitSpline_keeps_gravity D T W off gb ab tel new) as G2.
  split.
  - intros s1 E1. rewrite E1 in Rel, G1.
    destruct (InitSpline D T W off gb ab tel new) as [[] s2|s2|u s2];
      try contradiction.
    destruct Rel as [_ Rel]. exists s2. simpl in G1, G2.
    split; [reflexivity|]. split; [exact Rel|].
    split; [rewrite G1; exact Grav | exact G2].
  - intros s2 E2. rewrite E2 in Rel, G2.
    destruct (InitSpline D T W off gb ab tel cleared) as [[] s1|s1|u s1];
      try contradiction.
    destruct Rel as [_ Rel]. exists s1. simpl in G1, G2.
    split; [reflexivity|]. split; [exact Rel|].
    split; [rewrite G1; exact Grav | exact G2].
Qed.

End ClearFacts.

(** ** The first match wins *)

Section FirstMatch.
Context {G : Geometry}.

(** One sample tried: gravity is assigned exactly when the test of line 302
    succeeds. *)
Lemma try_accl_sample_returns_inv tel ab T_a_i cam_t i s s' :
  try_accl_sample tel ab T_a_i cam_t i s = Returns tt s' ->
  exists meas,
    nth_error (measurement (accelerometer tel)) i = Some meas
    /\ ((whole_second_match tel cam_t i = true
         /\ s' = set_gravity T_a_i (vec_add meas ab) s)
        \/ (whole_second_match tel cam_t i = false /\ s' = s)).
Proof.
  unfold try_accl_sample, whole_second_match, set_gravity, bind, index, to_int64,
    modify, ret, undefined.
  destruct (nth_error (measurement (accelerometer tel)) i) as [meas|];
    [|discriminate].
  destruct (nth_error (timestamp_ms (accelerometer tel)) i) as [ms|];
    [|discriminate].
  destruct (Double.to_int64 (ms * 1e-3)) as [accl_t|]; [|discriminate].
  destruct (abs (Double.of_int accl_t - cam_t) <? 1 / 30)%float;
    intros H; inversion H; subst; exists meas; auto.
Qed.

(** The scan over the samples stops at the first one that passes the test. *)
Lemma scan_accl_returns_inv tel ab T_a_i cam_t range : forall s s',
  gravity_initialized_ s = false ->
  scan_accl (try_accl_sample tel ab T_a_i cam_t) range s = Returns tt s' ->
  (exists pre i post meas,
      range = pre ++ i :: post
      /\ (forall i', In i' pre -> whole_second_match tel cam_t i' = false)
      /\ whole_second_match tel cam_t i = true
      /\ nth_error (measurement (accelerometer tel)) i = Some meas
      /\ s' = set_gravity T_a_i (vec_add meas ab) s)
  \/ ((forall i, In i range -> whole_second_match tel cam_t i = false) /\ s' = s).
Proof.
  induction range as [|i range IH]; intros s s' Hflag H; simpl in H.
  - injection H as <-. right. split; [intros i []|reflexivity].
  - rewrite bind_gets, Hflag in H.
    apply bind_returns_inv in H. destruct H as ([] & s1 & H1 & H).
    apply try_accl_sample_returns_inv in H1.
    destruct H1 as (meas & Hm & [[Hmatch ->] | [Hno ->]]).
    + left. exists [], i, range, meas. repeat split; auto.
      * intros i' [].
      * destruct range as [|i2 range']; simpl in H.
        -- injection H as <-. reflexivity.
        -- rewrite bind_gets in H. simpl in H. injection H as <-. reflexivity.
    + destruct (IH s s' Hflag H)
        as [(pre & i0 & post & meas0 & -> & Hpre & Hi0 & Hm0 & ->) | [Hall ->]].
      * left. exists (i :: pre), i0, post, meas0. repeat split; auto.
        intros i' [<- | Hin]; auto.
      * right. split; [|reflexivity]. intros i' [<- | Hin]; auto.
Qed.

Lemma seq_split a n pre i post :
  seq a n = pre ++ i :: post -> i = (a + length pre)%nat /\ pre = seq a (length pre).
Proof.
  revert a n. induction pre as [|x pre IH]; intros a n H; simpl in *.
  - destruct n as [|n]; simpl in H; [discriminate|].
    injection H as -> _. split; [lia | reflexivity].
  - destruct n as [|n]; simpl in H; [discriminate|].
    injection H as <- H. destruct (IH _ _ H) as [-> E].
    split; [lia|]. f_equal. exact E.
Qed.

Lemma indices_split {A : Type} (v : list A) pre i post :
  indices v = pre ++ i :: post ->
  (i < length v)%nat /\ forall i', (i' < i)%nat <-> In i' pre.
Proof.
  unfold indices. intros H. destruct (seq_split _ _ _ _ _ H) as [-> E].
  split.
  - assert (In (0 + length pre)%nat (seq 0 (length v)))
      by (rewrite H; apply in_or_app; right; left; reflexivity).
    apply in_seq in H0. lia.
  - intros i'. rewrite E at 2. rewrite in_seq. simpl. lia.
Qed.

(** Once gravity is initialized, the loop over the camera timestamps changes
    nothing. *)
Lemma gravity_at_initialized tel ab j s :
  gravity_initialized_ s = true -> state_of (gravity_at tel ab j s) = s.
Proof.
  intros Hflag. unfold gravity_at. rewrite bind_gets. unfold bind, index, to_int64.
  destruct (nth_error (cam_timestamps_ s) j) as [cam_t|]; [|reflexivity]. simpl.
  destruct (Double.to_int64 (cam_t * 1e9)) as [ns|]; [|reflexivity]. simpl.
  destruct (map_find _ _ _); [|reflexivity]. simpl. rewrite Hflag. reflexivity.
Qed.

Lemma gravity_loop_initialized tel ab js : forall s s',
  gravity_initialized_ s = true ->
  for_each js (gravity_at tel ab) s = Returns tt s' -> s' = s.
Proof.
  induction js as [|j js IH]; intros s s' Hflag H; simpl in H.
  - injection H as <-. reflexivity.
  - apply bind_returns_inv in H. destruct H as ([] & s1 & H1 & H).
    pose proof (gravity_at_initialized tel ab j s Hflag) as E.
    rewrite H1 in E. simpl in E. subst s1. apply IH; assumption.
Qed.

(** One camera timestamp: nothing changes, or gravity is taken from the first
    sample that passes the test against it. *)
Lemma gravity_at_returns_inv tel ab j s s' :
  gravity_initialized_ s = false ->
  gravity_at tel ab j s = Returns tt s' ->
  (no_match_at tel s j /\ s' = s)
  \/ exists cam_t pose i meas,
       nth_error (cam_timestamps_ s) j = Some cam_t
       /\ registered_pose s cam_t = Some pose
       /\ nth_error (measurement (accelerometer tel)) i = Some meas
       /\ whole_second_match tel cam_t i = true
       /\ (forall i', (i' < i)%nat -> whole_second_match tel cam_t i' = false)
       /\ s' = set_gravity (SE3_mul (T_a_c pose) (SE3_inverse (T_i_c_init_ s)))
                           (vec_add meas ab) s.
Proof.
  intros Hflag H. unfold gravity_at in H. rewrite bind_gets in H.
  apply bind_returns_inv in H. destruct H as (cam_t & s1 & H1 & H).
  unfold index in H1.
  destruct (nth_error (cam_timestamps_ s) j) as [c|] eqn:Ej; [|discriminate].
  injection H1 as E1 E2. subst cam_t s1.
  apply bind_returns_inv in H. destruct H as (ns & s1 & H1 & H).
  apply to_int64_returns_inv in H1. destruct H1 as [Ens ->].
  rewrite bind_gets in H. cbv zeta in H. fold (view_key ns) in H.
  assert (Ereg : registered_pose s c
                 = map_find TimeCamId_less (view_key ns) (calib_init_poses_ s)).
  { unfold registered_pose. rewrite Ens. reflexivity. }
  destruct (map_find TimeCamId_less (view_key ns) (calib_init_poses_ s))
    as [pose|] eqn:Ep.
  2:{ left. injection H as <-. split; [|reflexivity].
      intros c' p i Hc Hp. rewrite Ej in Hc. injection Hc as <-.
      rewrite Ereg in Hp. discriminate. }
  rewrite !bind_gets, Hflag in H.
  apply scan_accl_returns_inv in H; [|exact Hflag].
  destruct H as [(pre & i & post & meas & Hsplit & Hpre & Hi & Hm & ->) | [Hall ->]].
  - right. exists c, pose, i, meas.
    destruct (indices_split _ _ _ _ Hsplit) as [_ Hlt].
    repeat split; auto. intros i' Hi'. apply Hpre, Hlt. exact Hi'.
  - left. split; [|reflexivity].
    intros c' p i Hc Hp Hi. rewrite Ej in Hc. injection Hc as <-.
    apply Hall. unfold indices. apply in_seq. lia.
Qed.

(** The loop over the camera timestamps: nothing changes, or gravity is taken
    at the first camera timestamp that has a match. *)
Lemma gravity_loop_returns_inv tel ab js : forall s s',
  gravity_initialized_ s = false ->
  for_each js (gravity_at tel ab) s = Returns tt s' ->
  ((forall j, In j js -> no_match_at tel s j) /\ s' = s)
  \/ exists jpre j jpost cam_t pose i meas,
       js = jpre ++ j :: jpost
       /\ (forall j', In j' jpre -> no_match_at tel s j')
       /\ nth_error (cam_timestamps_ s) j = Some cam_t
       /\ registered_pose s cam_t = Some pose
       /\ nth_error (measurement (accelerometer tel)) i = Some meas
       /\ whole_second_match tel cam_t i = true
       /\ (forall i', (i' < i)%nat -> whole_second_match tel cam_t i' = false)
       /\ s' = set_gravity (SE3_mul (T_a_c pose) (SE3_inverse (T_i_c_init_ s)))
                           (vec_add meas ab) s.
Proof.
  induction js as [|j js IH]; intros s s' Hflag H; simpl in H.
  - injection H as <-. left. split; [intros j []|reflexivity].
  - apply bind_returns_inv in H. destruct H as ([] & s1 & H1 & H).
    apply gravity_at_returns_inv in H1; [|exact Hflag].
    destruct H1 as [[Hno ->] | (cam_t & pose & i & meas & Hc & Hp & Hm & Hi & Hfirst & ->)].
    + destruct (IH s s' Hflag H)
        as [[Hall ->] | (jpre & j0 & jpost & cam_t & pose & i & meas
                         & -> & Hpre & Hc & Hp & Hm & Hi & Hfirst & ->)].
      * left. split; [|reflexivity]. intros j' [<- | Hin]; auto.
      * right. exists (j :: jpre), j0, jpost, cam_t, pose, i, meas.
        repeat split; auto. intros j' [<- | Hin]; auto.
    + apply gravity_loop_initialized in H; [|reflexivity]. subst s'.
      right. exists [], j, js, cam_t, pose, i, meas.
      repeat split; auto. intros j' [].
Qed.

(** What [InitializeGravity] does on a calibrator whose gravity is not
    initialized, when it returns: in the order of the loops (camera timestamps
    outside, samples inside), the first pair of a camera timestamp with a
    registered pose and a sample that passes the test of line 302 decides.
    Gravity is the rotation of (pose * T_i_c_init^-1) applied to the reading
    plus the bias; without such a pair nothing is assigned.  In both cases
    [gravity_init_] is handed to the trajectory. *)
Lemma InitializeGravity_first_match tel ab s s' :
  gravity_initialized_ s = false ->
  InitializeGravity tel ab s = Returns tt s' ->
  g (trajectory_ s') = Some (gravity_init_ s')
  /\ ((gravity_initialized_ s' = false
       /\ gravity_init_ s' = gravity_init_ s
       /\ forall j, (j < length (cam_timestamps_ s))%nat -> no_match_at tel s j)
      \/ exists j cam_t pose i meas,
           nth_error (cam_timestamps_ s) j = Some cam_t
           /\ registered_pose s cam_t = Some pose
           /\ nth_error (measurement (accelerometer tel)) i = Some meas
           /\ whole_second_match tel cam_t i = true
           /\ (forall j', (j' < j)%nat -> no_match_at tel s j')
           /\ (forall i', (i' < i)%nat -> whole_second_match tel cam_t i' = false)
           /\ gravity_initialized_ s' = true
           /\ gravity_init_ s'
              = SO3_apply (SE3_mul (T_a_c pose) (SE3_inverse (T_i_c_init_ s)))
                          (vec_add meas ab)).
Proof.
  intros Hflag H. unfold InitializeGravity in H. rewrite bind_gets in H.
  apply bind_returns_inv in H. destruct H as ([] & s1 & H1 & H).
  rewrite bind_gets in H. unfold modify_trajectory, modify in H.
  injection H as <-. split; [reflexivity|].
  apply gravity_loop_returns_inv in H1; [|exact Hflag].
  destruct H1 as [[Hall ->] | (jpre & j & jpost & cam_t & pose & i & meas
                              & Hsplit & Hpre & Hc & Hp & Hm & Hi & Hfirst & ->)].
  - left. simpl. repeat split; auto.
    intros j Hj. apply Hall. unfold indices. apply in_seq. lia.
  - right. exists j, cam_t, pose, i, meas.
    destruct (indices_split _ _ _ _ Hsplit) as [_ Hlt].
    simpl. repeat split; auto. intros j' Hj'. apply Hpre, Hlt. exact Hj'.
Qed.

End FirstMatch.

(** ** More on the gravity search *)

Section GravityMore.
Context {G : Geometry}.

Lemma first_match_unique tel s j cam_t pose i j0 cam_t0 pose0 i0 :
  first_match tel s j cam_t pose i -> first_match tel s j0 cam_t0 pose0 i0 ->
  j = j0 /\ cam_t = cam_t0 /\ pose = pose0 /\ i = i0.
Proof.
  intros (Hc & Hp & Hi & Hm & Hj & Hfirst) (Hc0 & Hp0 & Hi0 & Hm0 & Hj0 & Hfirst0).
  assert (Ej : j = j0).
  { destruct (Nat.lt_trichotomy j j0) as [L | [E | L]]; [|exact E|].
    - pose proof (Hj0 j L cam_t pose i Hc Hp Hi). congruence.
    - pose proof (Hj j0 L cam_t0 pose0 i0 Hc0 Hp0 Hi0). congruence. }
  subst j0. rewrite Hc in Hc0. injection Hc0 as <-.
  rewrite Hp in Hp0. injection Hp0 as <-.
  repeat split; try reflexivity.
  destruct (Nat.lt_trichotomy i i0) as [L | [E | L]]; [|exact E|].
  - pose proof (Hfirst0 i L). congruence.
  - pose proof (Hfirst i0 L). congruence.
Qed.

(** X9: on a calibrator whose gravity is not initialized, a returning
    [InitializeGravity] hands [gravity_init_] to the trajectory, and

    - when no camera timestamp with a registered pose has a sample that passes
      the test of line 302, gravity stays uninitialized and [gravity_init_]
      is as before;
    - otherwise the first pair in loop order (camera timestamps outside,
      samples inside) decides: gravity is initialized to the rotation of
      (pose * T_i_c_init_^-1) applied to that sample's reading plus the
      bias, and no later pair changes it. *)
Theorem InitializeGravity_first_pair_decides tel ab s s' :
  gravity_initialized_ s = false ->
  InitializeGravity tel ab s = Returns tt s' ->
  g (trajectory_ s') = Some (gravity_init_ s')
  /\ ((forall j, (j < length (cam_timestamps_ s))%nat -> no_match_at tel s j) ->
      gravity_of s' = (false, gravity_init_ s))
  /\ (forall j cam_t pose i,
        first_match tel s j cam_t pose i ->
        exists meas,
          nth_error (measurement (accelerometer tel)) i = Some meas
          /\ gravity_of s'
             = (true, SO3_apply (SE3_mul (T_a_c pose) (SE3_inverse (T_i_c_init_ s)))
                                (vec_add meas ab))).
Proof.
  intros Hflag H.
  destruct (InitializeGravity_first_match tel ab s s' Hflag H) as [Hg Hcases].
  split; [exact Hg|]. split.
  - intros Hnone.
    destruct Hcases as [(F & E & _) | (j & cam_t & pose & i & meas & Hc & Hp & Hm & Hi & _)].
    + unfold gravity_of. rewrite F, E. reflexivity.
    + exfalso.
      assert (Hj : (j < length (cam_timestamps_ s))%nat)
        by (apply nth_error_Some; congruence).
      assert (Hi' : (i < length (measurement (accelerometer tel)))%nat)
        by (apply nth_error_Some; congruence).
      pose proof (Hnone j Hj cam_t pose i Hc Hp Hi'). congruence.
  - intros j cam_t pose i Hfirst.
    destruct Hcases as [(_ & _ & Hnone)
                       | (j0 & cam_t0 & pose0 & i0 & meas & Hc & Hp & Hm & Hi & Hj & Hfirst0 & F & E)].
    + exfalso. destruct Hfirst as (Hc & Hp & Hi & Hm & _).
      assert (Hj : (j < length (cam_timestamps_ s))%nat)
        by (apply nth_error_Some; congruence).
      pose proof (Hnone j Hj cam_t pose i Hc Hp Hi). congruence.
    + assert (Hi0 : (i0 < length (measurement (accelerometer tel)))%nat)
        by (apply nth_error_Some; congruence).
      assert (F0 : first_match tel s j0 cam_t0 pose0 i0)
        by (unfold first_match; auto 10).
      destruct (first_match_unique _ _ _ _ _ _ _ _ _ _ Hfirst F0) as (-> & -> & -> & ->).
      exists meas. split; [exact Hm|]. unfold gravity_of. rewrite F, E. reflexivity.
Qed.

(** X10: once gravity is initialized, [InitializeGravity] never estimates it
    again: in every outcome [gravity_initialized_] and [gravity_init_] are as
    before, and a returning call has changed nothing but the trajectory's
    gravity vector, which is set to the old [gravity_init_]. *)
Theorem InitializeGravity_initialized_is_kept tel ab s :
  gravity_initialized_ s = true ->
  gravity_of (state_of (InitializeGravity tel ab s)) = gravity_of s
  /\ (forall s', InitializeGravity tel ab s = Returns tt s' ->
                 s' = set_trajectory_ (setG (gravity_init_ s) (trajectory_ s)) s).
Proof.
  intros Hflag.
  assert (Loop : forall js, state_of (for_each js (gravity_at tel ab) s) = s).
  { induction js as [|j js IH]; [reflexivity|]. simpl.
    pose proof (gravity_at_initialized tel ab j s Hflag) as E. unfold bind.
    destruct (gravity_at tel ab j s) as [[] s1|s1|u s1]; simpl in E; subst s1;
      try reflexivity.
    exact IH. }
  unfold InitializeGravity. rewrite bind_gets.
  specialize (Loop (indices (cam_timestamps_ s))). unfold bind at 1. unfold bind at 2.
  destruct (for_each (indices (cam_timestamps_ s)) (gravity_at tel ab) s)
    as [[] s1|s1|u s1]; simpl in Loop; subst s1.
  - rewrite bind_gets. unfold modify_trajectory, modify. simpl.
    split; [reflexivity|]. intros s' E. injection E as <-. reflexivity.
  - simpl. split; [reflexivity|]. intros s' E. discriminate.
  - simpl. split; [reflexivity|]. intros s' E. discriminate.
Qed.

(** X11: whatever its outcome, [InitializeGravity] changes nothing but the
    gravity estimate: the timestamps, the window, the knot counts, the
    measurement maps and, in the trajectory, everything but the gravity
    vector are as before. *)
Theorem InitializeGravity_changes_gravity_only tel ab s :
  without_gravity (state_of (InitializeGravity tel ab s)) = without_gravity s.
Proof.
  revert s.
  change (unchanged without_gravity (InitializeGravity tel ab)).
  unfold InitializeGravity. frame.
Qed.

Lemma gravity_at_no_pose tel ab j s :
  no_registered_pose s -> state_of (gravity_at tel ab j s) = s.
Proof.
  intros Hno. unfold gravity_at. rewrite bind_gets. unfold bind, index, to_int64.
  destruct (nth_error (cam_timestamps_ s) j) as [cam_t|] eqn:Ej; [|reflexivity]. simpl.
  pose proof (Hno cam_t (nth_error_In _ _ Ej)) as Hreg. unfold registered_pose in Hreg.
  destruct (Double.to_int64 (cam_t * 1e9)) as [ns|]; [|reflexivity]. simpl.
  fold (view_key ns). rewrite Hreg. reflexivity.
Qed.

(** X12: without a registered initial pose for any camera timestamp (after
    [ClearSpline], or when no view lies in the window) [InitializeGravity]
    assigns no gravity, whatever the accelerometer samples: the estimate is as
    before in every outcome. *)
Theorem InitializeGravity_needs_a_registered_pose tel ab s :
  no_registered_pose s ->
  gravity_of (state_of (InitializeGravity tel ab s)) = gravity_of s
  /\ (forall s', InitializeGravity tel ab s = Returns tt s' ->
                 s' = set_trajectory_ (setG (gravity_init_ s) (trajectory_ s)) s).
Proof.
  intros Hno.
  assert (Loop : forall js, state_of (for_each js (gravity_at tel ab) s) = s).
  { induction js as [|j js IH]; [reflexivity|]. simpl.
    pose proof (gravity_at_no_pose tel ab j s Hno) as E. unfold bind.
    destruct (gravity_at tel ab j s) as [[] s1|s1|u s1]; simpl in E; subst s1;
      try reflexivity.
    exact IH. }
  unfold InitializeGravity. rewrite bind_gets.
  specialize (Loop (indices (cam_timestamps_ s))). unfold bind at 1. unfold bind at 2.
  destruct (for_each (indices (cam_timestamps_ s)) (gravity_at tel ab) s)
    as [[] s1|s1|u s1]; simpl in Loop; subst s1.
  - rewrite bind_gets. unfold modify_trajectory, modify. simpl.
    split; [reflexivity|]. intros s' E. injection E as <-. reflexivity.
  - simpl. split; [reflexivity|]. intros s' E. discriminate.
  - simpl. split; [reflexivity|]. intros s' E. discriminate.
Qed.

End GravityMore.

(** ** More on the doubles *)

Module DoubleMore.
Import Double SFOrder DoubleOrder.

Lemma SFleb_false_SFltb f g :
  SFis_nan f = false -> SFis_nan g = false ->
  SFleb f g = false -> SFltb g f = true.
Proof.
  destruct f as [s|s| |s m e], g as [s'|s'| |s' m' e'];
    unfold SFltb, SFleb, SFcompare; simpl; intros Hf Hg H;
    try discriminate; order_cases.
Qed.

Lemma leb_false_ltb x y :
  is_nan x = false -> is_nan y = false ->
  (x <=? y)%float = false -> (y <? x)%float = true.
Proof.
  rewrite !is_nan_spec, FloatAxioms.ltb_spec, FloatAxioms.leb_spec.
  apply SFleb_false_SFltb.
Qed.

Lemma SFltb_SFleb_false f g : SFltb f g = true -> SFleb g f = false.
Proof.
  destruct f as [s|s| |s m e], g as [s'|s'| |s' m' e'];
    unfold SFltb, SFleb, SFcompare; simpl; intros H;
    try discriminate; order_cases.
Qed.

Lemma ltb_leb_false x y : (x <? y)%float = true -> (y <=? x)%float = false.
Proof.
  rewrite FloatAxioms.ltb_spec, FloatAxioms.leb_spec. apply SFltb_SFleb_false.
Qed.

Lemma to_int64_not_nan x z : to_int64 x = Some z -> is_nan x = false.
Proof.
  rewrite is_nan_spec. unfold to_int64.
  destruct (Prim2SF x); simpl; intros H; try reflexivity; discriminate.
Qed.

Lemma mul_not_nan x y : is_nan (x * y) = false -> is_nan x = false.
Proof.
  rewrite !is_nan_spec, FloatAxioms.mul_spec.
  destruct (Prim2SF x); try reflexivity. simpl. intros H. exact H.
Qed.

Lemma to_int64_mul_not_nan x c z : to_int64 (x * c) = Some z -> is_nan x = false.
Proof. intros H. apply (mul_not_nan x c). apply (to_int64_not_nan _ z H). Qed.


End DoubleMore.

(** ** Runs that stop early, and runs that return *)

Section LogicFacts.
Context {G : Geometry}.

Lemma triple_bind {A B : Type} (P : ImuCameraCalibrator -> Prop) (m : M A)
    (R : A -> ImuCameraCalibrator -> Prop) (k : A -> M B)
    (R' : B -> ImuCameraCalibrator -> Prop) (Q : ImuCameraCalibrator -> Prop) :
  triple P m R Q -> (forall a, triple (R a) (k a) R' Q) -> triple P (bind m k) R' Q.
Proof.
  intros Hm Hk s Hs. unfold bind. specialize (Hm s Hs).
  destruct (m s) as [a s1|s1|u s1]; try assumption.
  apply Hk, Hm.
Qed.

Lemma triple_preserves {A : Type} (P Q : ImuCameraCalibrator -> Prop) (m : M A) :
  preserves P m -> (forall s, P s -> Q s) -> triple P m (fun _ => P) Q.
Proof.
  intros Hm HQ s Hs. specialize (Hm s Hs).
  destruct (m s) as [a s1|s1|u s1]; simpl in Hm; auto.
Qed.

Lemma triple_state_of {A : Type} (P Q : ImuCameraCalibrator -> Prop) (m : M A) s :
  triple P m (fun _ => Q) Q -> P s -> Q (state_of (m s)).
Proof.
  intros Hm Hs. specialize (Hm s Hs). destruct (m s); exact Hm.
Qed.

(** A property of a projection is kept by what leaves the projection alone. *)
Lemma preserves_unchanged {A B : Type} (proj : ImuCameraCalibrator -> B)
    (P : B -> Prop) (m : M A) :
  unchanged proj m -> preserves (fun s => P (proj s)) m.
Proof. intros Hm s Hs. rewrite Hm. exact Hs. Qed.

Lemma never_throws_ret {A : Type} (a : A) : never_throws (ret a).
Proof. intros s s'. discriminate. Qed.

Lemma never_throws_gets {A : Type} (f : ImuCameraCalibrator -> A) :
  never_throws (gets f).
Proof. intros s s'. discriminate. Qed.

Lemma never_throws_modify f : never_throws (modify f).
Proof. intros s s'. discriminate. Qed.

Lemma never_throws_undefined {A : Type} u : never_throws (@undefined G A u).
Proof. intros s s'. discriminate. Qed.

Lemma never_throws_bind {A B : Type} (m : M A) (k : A -> M B) :
  never_throws m -> (forall a, never_throws (k a)) -> never_throws (bind m k).
Proof.
  intros Hm Hk s s'. unfold bind. specialize (Hm s).
  destruct (m s) as [a s1|s1|u s1].
  - apply Hk.
  - exfalso. apply (Hm s1). reflexivity.
  - discriminate.
Qed.

Lemma never_throws_for_each {A : Type} (l : list A) (body : A -> M unit) :
  (forall x, never_throws (body x)) -> never_throws (for_each l body).
Proof.
  intros Hb. induction l as [|x l IH]; simpl.
  - apply never_throws_ret.
  - apply never_throws_bind; auto.
Qed.

Lemma never_throws_collect {A B : Type} (f : A -> option B) (l : list A) :
  never_throws (collect f l).
Proof.
  intros s s'. rewrite collect_spec. destruct (all_some f l); discriminate.
Qed.

End LogicFacts.

(** Decomposition of a goal [never_throws m] along the structure of [m];
    [at_key], the one operation that throws, is left to the caller. *)
Ltac nothrow_step :=
  lazymatch goal with
  | |- never_throws (bind _ _) => apply never_throws_bind; [|intros ?]
  | |- never_throws (ret _) => apply never_throws_ret
  | |- never_throws (gets _) => apply never_throws_gets
  | |- never_throws (undefined _) => apply never_throws_undefined
  | |- never_throws (for_each _ _) => apply never_throws_for_each; intros ?
  | |- never_throws (collect _ _) => apply never_throws_collect
  | |- never_throws (modify _) => apply never_throws_modify
  | |- never_throws (modify_trajectory _) =>
      unfold modify_trajectory; apply never_throws_modify
  | |- never_throws (deref ?p) => unfold deref; destruct p
  | |- never_throws (index ?v ?i) => unfold index; destruct (nth_error v i)
  | |- never_throws (to_int64 ?x) => unfold to_int64; destruct (Double.to_int64 x)
  | |- never_throws (int64_result ?z) => unfold int64_result; destruct (Double.in_int64 z)
  | |- never_throws (int64_div ?a ?b) => unfold int64_div; destruct (b =? 0)
  | |- never_throws (let _ := _ in _) => cbv zeta
  | |- never_throws (if ?c then _ else _) => destruct c
  end.

Ltac nothrow := repeat (autounfold with blocks; nothrow_step).

(** [keep], with the loops. *)
Ltac keep_all :=
  repeat first [ keep_step
               | lazymatch goal with
                 | |- preserves _ (for_each _ _) => apply preserves_for_each; intros ? _
                 | |- preserves _ (scan_accl _ _) => apply preserves_scan_accl; intros ?
                 end ].

Section InitSplineMore.
Context {G : Geometry}.

(** The blocks of a returning [InitSpline]. *)
Lemma InitSpline_returns_inv D T W off gb ab tel s s' :
  InitSpline D T W off gb ab tel s = Returns tt s' ->
  exists s4 w s5 s6 s7 s8 s9,
    (collect_timestamps D ;; init_line_delay D W ;; find_window)
      (set_T_i_c_init_ T (set_spline_weight_data_ W s)) = Returns tt s4
    /\ init_trajectory_times D T s4 = Returns w s5
    /\ for_each (ViewIds D) (ingest_view D T) s5 = Returns tt s6
    /\ init_knots w s6 = Returns tt s7
    /\ add_corners D w s7 = Returns tt s8
    /\ for_each (indices (measurement (accelerometer tel)))
                (add_accl_sample tel off ab) s8 = Returns tt s9
    /\ for_each (indices (measurement (gyroscope tel)))
                (add_gyro_sample tel off gb) s9 = Returns tt s'.
Proof.
  unfold InitSpline. rewrite !bind_modify. intros H.
  apply bind_returns_inv in H. destruct H as ([] & s2 & H2 & H).
  apply bind_returns_inv in H. destruct H as ([] & s3 & H3 & H).
  apply bind_returns_inv in H. destruct H as ([] & s4 & H4 & H).
  apply bind_returns_inv in H. destruct H as (w & s5 & H5 & H).
  apply bind_returns_inv in H. destruct H as ([] & s6 & H6 & H).
  apply bind_returns_inv in H. destruct H as ([] & s7 & H7 & H).
  apply bind_returns_inv in H. destruct H as ([] & s8 & H8 & H).
  apply bind_returns_inv in H. destruct H as ([] & s9 & H9 & H).
  exists s4, w, s5, s6, s7, s8, s9.
  split; [|auto 10].
  rewrite (bind_returns _ _ _ _ _ H2). rewrite (bind_returns _ _ _ _ _ H3). exact H4.
Qed.

Lemma ingest_view_never_throws D T id : never_throws (ingest_view D T id).
Proof.
  intros s s'.
  destruct (GetView D id) as [v|] eqn:Hv.
  2:{ unfold ingest_view, bind, deref. rewrite Hv. discriminate. }
  destruct (tend_s_ s <=? GetTimestamp v)%float eqn:H1.
  { rewrite (ingest_view_skips D T id v s Hv); auto. discriminate. }
  destruct (GetTimestamp v <? t0_s_ s)%float eqn:H2.
  { rewrite (ingest_view_skips D T id v s Hv); auto. discriminate. }
  destruct (Double.to_int64 (GetTimestamp v * 1e9)) as [fid|] eqn:Hf.
  2:{ unfold ingest_view, bind, deref, gets, to_int64. rewrite Hv. simpl.
      rewrite H1, H2. simpl. rewrite Hf. discriminate. }
  destruct (all_some (GetFeature v) (TrackIds v)) as [cs|] eqn:Hc.
  2:{ unfold ingest_view.
      unfold bind at 1. unfold deref. rewrite Hv. unfold ret.
      rewrite !bind_gets. rewrite H1, H2. simpl.
      unfold bind at 1. unfold to_int64. rewrite Hf. unfold ret.
      unfold bind at 1. rewrite collect_spec, Hc. discriminate. }
  rewrite (ingest_view_accepts D T id v s fid cs Hv H1 H2 Hf Hc). discriminate.
Qed.

Lemma InitSpline_no_throw D T W off gb ab tel :
  never_throws (InitSpline D T W off gb ab tel).
Proof.
  unfold InitSpline.
  do 6 (apply never_throws_bind; [nothrow|intros ?]).
  apply never_throws_bind.
  - apply never_throws_for_each. intros id. apply ingest_view_never_throws.
  - intros _. nothrow.
Qed.

(** X1: [InitSpline] never throws.  Its one throwing operation, the
    [calib_init_poses_.at(t_c_id)] of line 93, looks up the key assigned on
    line 90; a run that does not return ends in undefined behaviour. *)
Theorem InitSpline_never_throws D T W off gb ab tel :
  never_throws (InitSpline D T W off gb ab tel)
  /\ forall s, exists s',
       InitSpline D T W off gb ab tel s = Returns tt s'
       \/ exists u, InitSpline D T W off gb ab tel s = Undefined u s'.
Proof.
  pose proof (InitSpline_no_throw D T W off gb ab tel) as N.
  split; [exact N|]. intros s. specialize (N s).
  destruct (InitSpline D T W off gb ab tel s) as [[] s'|s'|u s'].
  - exists s'. left. reflexivity.
  - exfalso. apply (N s'). reflexivity.
  - exists s'. right. exists u. reflexivity.
Qed.

(** X2: a knot spacing below one nanosecond is not rejected: [InitSpline]
    converts the spacings to whole nanoseconds and divides by them, so with a
    spacing that converts to 0 it cannot return, and the run ends in
    undefined behaviour. *)
Theorem InitSpline_needs_a_spacing_of_a_nanosecond D T W off gb ab tel s :
  Double.to_int64 (dt_so3 W * 1e9) = Some 0
  \/ Double.to_int64 (dt_r3 W * 1e9) = Some 0 ->
  exists u s', InitSpline D T W off gb ab tel s = Undefined u s'.
Proof.
  intros Hzero.
  pose proof (InitSpline_no_throw D T W off gb ab tel s) as N.
  destruct (InitSpline D T W off gb ab tel s) as [[] s'|s'|u s'] eqn:H.
  - exfalso.
    destruct (InitSpline_returns_inv _ _ _ _ _ _ _ _ _ H)
      as (s4 & w & s5 & s6 & s7 & s8 & s9 & H4 & H5 & H6 & H7 & _).
    assert (W4 : spline_weight_data_ s4 = W) by (carry spline_weight_data_ H4; exact Carry).
    apply init_trajectory_times_returns_inv in H5. destruct H5 as (_ & _ & E3 & E4).
    rewrite W4 in E3, E4.
    apply init_knots_returns_inv in H7. destruct H7 as (_ & _ & N3 & N4).
    destruct Hzero as [Z | Z]; congruence.
  - exfalso. apply (N s'). reflexivity.
  - exists u, s'. reflexivity.
Qed.

(** X8: whatever its outcome, [InitSpline] leaves the two switches and the
    gravity estimate (in the calibrator and in the trajectory) as they are,
    and it only appends to the residuals of the trajectory: what an earlier
    call added stays. *)
Theorem InitSpline_keeps_switches_and_residuals D T W off gb ab tel s :
  let s' := state_of (InitSpline D T W off gb ab tel s) in
  switches_and_gravity s' = switches_and_gravity s
  /\ exists added, residuals (trajectory_ s') = residuals (trajectory_ s) ++ added.
Proof.
  intros s'. subst s'. split.
  - revert s. change (unchanged switches_and_gravity (InitSpline D T W off gb ab tel)).
    unfold InitSpline. frame.
  - assert (P : preserves (residuals_extend (residuals (trajectory_ s)))
                          (InitSpline D T W off gb ab tel)).
    { unfold InitSpline. autounfold with blocks. unfold modify_trajectory.
      keep_all;
        apply preserves_modify; intros s1 [added HP];
        first [ exists added; exact HP
              | eexists; simpl; rewrite HP, <- app_assoc; reflexivity ]. }
    apply P. exists []. rewrite app_nil_r. reflexivity.
Qed.

(** X13: [ClearSpline] always returns.  It empties the timestamps, the five
    measurement maps and the trajectory, and assigns nothing else: the
    window bounds, the knot counts, the line delay, the stored arguments and
    the gravity estimate of the last run stay.  Clearing twice is clearing
    once, and an [InitializeGravity] that follows finds no camera timestamp:
    it returns without a search and hands the stale [gravity_init_] to the
    empty trajectory. *)
Theorem ClearSpline_clears_containers_only s :
  exists s',
    ClearSpline s = Returns tt s'
    /\ cleared s'
    /\ kept_by_clear s' = kept_by_clear s
    /\ ClearSpline s' = Returns tt s'
    /\ forall tel ab,
         InitializeGravity tel ab s'
         = Returns tt (set_trajectory_ (setG (gravity_init_ s) Trajectory_empty) s').
Proof.
  destruct s. eexists. split; [reflexivity|].
  unfold cleared. conjuncts; vm_compute; reflexivity.
Qed.

End InitSplineMore.

(** ** The residuals a returning [InitSpline] adds *)

Section ResidualFacts.
Context {G : Geometry}.

(** A loop whose body appends one residual for an accepted item, and none
    otherwise, appends the residuals of the accepted items in order. *)
Lemma for_each_appends {A C : Type} (ctx : ImuCameraCalibrator -> C)
    (accept : C -> A -> bool) (R : C -> A -> Residual -> Prop)
    (body : A -> M unit) (l : list A) :
  (forall x, unchanged ctx (body x)) ->
  (forall x s s', body x s = Returns tt s' ->
     if accept (ctx s) x
     then exists r, R (ctx s) x r
                    /\ residuals (trajectory_ s') = residuals (trajectory_ s) ++ [r]
     else residuals (trajectory_ s') = residuals (trajectory_ s)) ->
  forall s s', for_each l body s = Returns tt s' ->
    exists rs,
      residuals (trajectory_ s') = residuals (trajectory_ s) ++ rs
      /\ Forall2 (R (ctx s)) (filter (accept (ctx s)) l) rs.
Proof.
  intros Hctx Hbody. induction l as [|x l IH]; simpl; intros s s' H.
  - injection H as <-. exists []. rewrite app_nil_r. split; [reflexivity | constructor].
  - apply bind_returns_inv in H. destruct H as ([] & s1 & H1 & H).
    pose proof (unchanged_returns ctx _ _ _ _ (Hctx x) H1) as E.
    destruct (IH s1 s' H) as (rs & Hrs & Hall). rewrite E in Hall.
    specialize (Hbody x s s1 H1).
    destruct (accept (ctx s) x).
    + destruct Hbody as (r & Hr & Hres). exists (r :: rs). split.
      * rewrite Hrs, Hres, <- app_assoc. reflexivity.
      * constructor; assumption.
    + exists rs. split; [rewrite Hrs, Hbody; reflexivity | assumption].
Qed.

Lemma add_corner_returns_inv D w kv s s' :
  add_corner D w kv s = Returns tt s' ->
  if corner_in_window (start_t_ns w) (end_t_ns w) kv
  then exists r, corner_residual D kv r
                 /\ residuals (trajectory_ s') = residuals (trajectory_ s) ++ [r]
  else residuals (trajectory_ s') = residuals (trajectory_ s).
Proof.
  unfold add_corner, corner_in_window.
  destruct ((start_t_ns w <=? frame_id (fst kv)) && (frame_id (fst kv) <? end_t_ns w)).
  - unfold bind, deref. destruct (GetView D 0%N) as [view0|] eqn:E; [|discriminate].
    intros H. injection H as <-. eexists. split; [|reflexivity].
    exists view0. split; [exact E | reflexivity].
  - intros H. injection H as <-. reflexivity.
Qed.

Lemma add_corners_returns_inv D w s s' :
  add_corners D w s = Returns tt s' ->
  exists rs,
    residuals (trajectory_ s') = residuals (trajectory_ s) ++ rs
    /\ Forall2 (corner_residual D)
               (filter (corner_in_window (start_t_ns w) (end_t_ns w)) (calib_corners_ s)) rs.
Proof.
  unfold add_corners. rewrite bind_gets. intros H.
  apply (for_each_appends (fun _ => tt)
           (fun _ => corner_in_window (start_t_ns w) (end_t_ns w))
           (fun _ => corner_residual D) (add_corner D w) (calib_corners_ s)); try assumption.
  - intros kv s1. reflexivity.
  - intros kv s1 s2. apply add_corner_returns_inv.
Qed.

Lemma add_accl_sample_returns_inv tel off ab i s s' :
  add_accl_sample tel off ab i s = Returns tt s' ->
  if sample_in_window (t0_s_ s) (tend_s_ s) (accelerometer tel) off i
  then exists r,
         sample_residual AccelResidual (1 / var_r3 (spline_weight_data_ s))
           (reestimate_biases_ s) (accelerometer tel) off ab i r
         /\ residuals (trajectory_ s') = residuals (trajectory_ s) ++ [r]
  else residuals (trajectory_ s') = residuals (trajectory_ s).
Proof.
  intros H. unfold sample_in_window, passes_window.
  destruct (nth_error (timestamp_ms (accelerometer tel)) i) as [ms|] eqn:Hi.
  2:{ unfold add_accl_sample, bind, index in H. rewrite Hi in H. discriminate. }
  destruct ((ms * 1e-3 + off <? t0_s_ s) || (tend_s_ s <=? ms * 1e-3 + off))%float eqn:Hout;
    simpl.
  - apply orb_true_iff in Hout.
    rewrite (add_accl_sample_skips tel off ab i ms s Hi Hout) in H.
    injection H as <-. reflexivity.
  - apply orb_false_iff in Hout. destruct Hout as [H1 H2].
    destruct (nth_error (measurement (accelerometer tel)) i) as [meas|] eqn:Hm.
    2:{ unfold add_accl_sample, bind, index, gets in H. rewrite Hi in H. simpl in H.
        rewrite H1, H2 in H. simpl in H. rewrite Hm in H. discriminate. }
    destruct (Double.to_int64 ((ms * 1e-3 + off) * 1e9)) as [t_ns|] eqn:Ht.
    2:{ unfold add_accl_sample, bind, index, gets, to_int64 in H. rewrite Hi in H.
        simpl in H. rewrite H1, H2 in H. simpl in H. rewrite Hm in H. simpl in H.
        rewrite Ht in H. discriminate. }
    rewrite (add_accl_sample_accepts tel off ab i ms meas t_ns s Hi Hm H1 H2 Ht) in H.
    injection H as <-. eexists. split; [|reflexivity].
    exists ms, meas, t_ns. auto.
Qed.

Lemma add_gyro_sample_returns_inv tel off gb i s s' :
  add_gyro_sample tel off gb i s = Returns tt s' ->
  if sample_in_window (t0_s_ s) (tend_s_ s) (gyroscope tel) off i
  then exists r,
         sample_residual GyroResidual (1 / var_so3 (spline_weight_data_ s))
           (reestimate_biases_ s) (gyroscope tel) off gb i r
         /\ residuals (trajectory_ s') = residuals (trajectory_ s) ++ [r]
  else residuals (trajectory_ s') = residuals (trajectory_ s).
Proof.
  intros H. unfold sample_in_window, passes_window.
  destruct (nth_error (timestamp_ms (gyroscope tel)) i) as [ms|] eqn:Hi.
  2:{ unfold add_gyro_sample, bind, index in H. rewrite Hi in H. discriminate. }
  destruct ((ms * 1e-3 + off <? t0_s_ s) || (tend_s_ s <=? ms * 1e-3 + off))%float eqn:Hout;
    simpl.
  - apply orb_true_iff in Hout.
    rewrite (add_gyro_sample_skips tel off gb i ms s Hi Hout) in H.
    injection H as <-. reflexivity.
  - apply orb_false_iff in Hout. destruct Hout as [H1 H2].
    destruct (nth_error (measurement (gyroscope tel)) i) as [meas|] eqn:Hm.
    2:{ unfold add_gyro_sample, bind, index, gets in H. rewrite Hi in H. simpl in H.
        rewrite H1, H2 in H. simpl in H. rewrite Hm in H. discriminate. }
    destruct (Double.to_int64 ((ms * 1e-3 + off) * 1e9)) as [t_ns|] eqn:Ht.
    2:{ unfold add_gyro_sample, bind, index, gets, to_int64 in H. rewrite Hi in H.
        simpl in H. rewrite H1, H2 in H. simpl in H. rewrite Hm in H. simpl in H.
        rewrite Ht in H. discriminate. }
    rewrite (add_gyro_sample_accepts tel off gb i ms meas t_ns s Hi Hm H1 H2 Ht) in H.
    injection H as <-. eexists. split; [|reflexivity].
    exists ms, meas, t_ns. auto.
Qed.

Lemma accl_loop_returns_inv tel off ab l s s' :
  for_each l (add_accl_sample tel off ab) s = Returns tt s' ->
  exists rs,
    residuals (trajectory_ s') = residuals (trajectory_ s) ++ rs
    /\ Forall2 (sample_residual AccelResidual (1 / var_r3 (spline_weight_data_ s))
                  (reestimate_biases_ s) (accelerometer tel) off ab)
               (filter (sample_in_window (t0_s_ s) (tend_s_ s) (accelerometer tel) off) l)
               rs.
Proof.
  intros H.
  apply (for_each_appends sample_context
           (fun c => sample_in_window (fst (fst (fst c))) (snd (fst (fst c)))
                       (accelerometer tel) off)
           (fun c => sample_residual AccelResidual (1 / var_r3 (snd (fst c))) (snd c)
                       (accelerometer tel) off ab)
           (add_accl_sample tel off ab) l); try assumption.
  - intros i. frame.
  - intros i s1 s2. apply add_accl_sample_returns_inv.
Qed.

Lemma gyro_loop_returns_inv tel off gb l s s' :
  for_each l (add_gyro_sample tel off gb) s = Returns tt s' ->
  exists rs,
    residuals (trajectory_ s') = residuals (trajectory_ s) ++ rs
    /\ Forall2 (sample_residual GyroResidual (1 / var_so3 (spline_weight_data_ s))
                  (reestimate_biases_ s) (gyroscope tel) off gb)
               (filter (sample_in_window (t0_s_ s) (tend_s_ s) (gyroscope tel) off) l)
               rs.
Proof.
  intros H.
  apply (for_each_appends sample_context
           (fun c => sample_in_window (fst (fst (fst c))) (snd (fst (fst c)))
                       (gyroscope tel) off)
           (fun c => sample_residual GyroResidual (1 / var_so3 (snd (fst c))) (snd c)
                       (gyroscope tel) off gb)
           (add_gyro_sample tel off gb) l); try assumption.
  - intros i. frame.
  - intros i s1 s2. apply add_gyro_sample_returns_inv.
Qed.

(** The members a returning [InitSpline] reads in its last three loops, in
    terms of the members it leaves. *)
Lemma InitSpline_returns_frames D T W off gb ab tel s s' s4 w s5 s6 s7 s8 s9 :
  (collect_timestamps D ;; init_line_delay D W ;; find_window)
    (set_T_i_c_init_ T (set_spline_weight_data_ W s)) = Returns tt s4 ->
  init_trajectory_times D T s4 = Returns w s5 ->
  for_each (ViewIds D) (ingest_view D T) s5 = Returns tt s6 ->
  init_knots w s6 = Returns tt s7 ->
  add_corners D w s7 = Returns tt s8 ->
  for_each (indices (measurement (accelerometer tel)))
           (add_accl_sample tel off ab) s8 = Returns tt s9 ->
  for_each (indices (measurement (gyroscope tel)))
           (add_gyro_sample tel off gb) s9 = Returns tt s' ->
  residuals (trajectory_ s7) = residuals (trajectory_ s)
  /\ calib_corners_ s7 = calib_corners_ s'
  /\ sample_context s8 = (t0_s_ s', tend_s_ s', W, reestimate_biases_ s)
  /\ sample_context s9 = (t0_s_ s', tend_s_ s', W, reestimate_biases_ s)
  /\ Double.to_int64 (t0_s_ s' * 1e9) = Some (start_t_ns w)
  /\ Double.to_int64 (tend_s_ s' * 1e9) = Some (end_t_ns w).
Proof.
  intros H4 H5 H6 H7 H8 H9 H10.
  assert (R7 : residuals (trajectory_ s7) = residuals (trajectory_ s)).
  { carry (fun s => residuals (trajectory_ s)) H7.
    carry (fun s => residuals (trajectory_ s)) H6.
    carry (fun s => residuals (trajectory_ s)) H5.
    carry (fun s => residuals (trajectory_ s)) H4.
    simpl in *. congruence. }
  assert (C7 : calib_corners_ s7 = calib_corners_ s').
  { carry calib_corners_ H10. carry calib_corners_ H9. carry calib_corners_ H8.
    congruence. }
  assert (X9 : sample_context s' = sample_context s9) by (carry sample_context H10; assumption).
  assert (X8 : sample_context s9 = sample_context s8) by (carry sample_context H9; assumption).
  assert (B4 : (t0_s_ s', tend_s_ s') = (t0_s_ s4, tend_s_ s4)).
  { carry (fun s => (t0_s_ s, tend_s_ s)) H10. carry (fun s => (t0_s_ s, tend_s_ s)) H9.
    carry (fun s => (t0_s_ s, tend_s_ s)) H8. carry (fun s => (t0_s_ s, tend_s_ s)) H7.
    carry (fun s => (t0_s_ s, tend_s_ s)) H6. carry (fun s => (t0_s_ s, tend_s_ s)) H5.
    simpl in *. congruence. }
  assert (A8 : (spline_weight_data_ s', reestimate_biases_ s')
               = (W, reestimate_biases_ s)).
  { carry (fun s => (spline_weight_data_ s, reestimate_biases_ s)) H10.
    carry (fun s => (spline_weight_data_ s, reestimate_biases_ s)) H9.
    carry (fun s => (spline_weight_data_ s, reestimate_biases_ s)) H8.
    carry (fun s => (spline_weight_data_ s, reestimate_biases_ s)) H7.
    carry (fun s => (spline_weight_data_ s, reestimate_biases_ s)) H6.
    carry (fun s => (spline_weight_data_ s, reestimate_biases_ s)) H5.
    carry (fun s => (spline_weight_data_ s, reestimate_biases_ s)) H4.
    simpl in *. congruence. }
  apply init_trajectory_times_returns_inv in H5. destruct H5 as (E1 & E2 & _).
  injection B4 as B0 B1. injection A8 as A0 A1.
  assert (X : sample_context s' = (t0_s_ s', tend_s_ s', W, reestimate_biases_ s)).
  { unfold sample_context. rewrite A0, A1. reflexivity. }
  rewrite B0, B1.
  repeat split; try assumption; congruence.
Qed.

(** X3: the residuals a returning [InitSpline] hands to the trajectory.  The
    residuals held before stay; after them come, in this order,

    - one reprojection residual for every stored corner observation whose
      key lies in the window in whole nanoseconds, in key order, each with
      the camera of view 0;
    - one accelerometer residual for every sample whose corrected time
      passes the test of line 120, in stream order, with the reading plus
      the bias, the time in nanoseconds and the weight 1 / var_r3;
    - the same for the gyroscope samples, with the weight 1 / var_so3. *)
Theorem InitSpline_residuals D T W off gb ab tel s s' :
  InitSpline D T W off gb ab tel s = Returns tt s' ->
  exists start_ns end_ns Rc Ra Rg,
    Double.to_int64 (t0_s_ s' * 1e9) = Some start_ns
    /\ Double.to_int64 (tend_s_ s' * 1e9) = Some end_ns
    /\ residuals (trajectory_ s') = residuals (trajectory_ s) ++ Rc ++ Ra ++ Rg
    /\ Forall2 (corner_residual D)
               (filter (corner_in_window start_ns end_ns) (calib_corners_ s')) Rc
    /\ Forall2 (sample_residual AccelResidual (1 / var_r3 W) (reestimate_biases_ s)
                  (accelerometer tel) off ab)
               (filter (sample_in_window (t0_s_ s') (tend_s_ s') (accelerometer tel) off)
                       (indices (measurement (accelerometer tel)))) Ra
    /\ Forall2 (sample_residual GyroResidual (1 / var_so3 W) (reestimate_biases_ s)
                  (gyroscope tel) off gb)
               (filter (sample_in_window (t0_s_ s') (tend_s_ s') (gyroscope tel) off)
                       (indices (measurement (gyroscope tel)))) Rg.
Proof.
  intros H.
  destruct (InitSpline_returns_inv _ _ _ _ _ _ _ _ _ H)
    as (s4 & w & s5 & s6 & s7 & s8 & s9 & H4 & H5 & H6 & H7 & H8 & H9 & H10).
  destruct (InitSpline_returns_frames _ _ _ _ _ _ _ _ _ _ _ _ _ _ _ _
              H4 H5 H6 H7 H8 H9 H10) as (R7 & C7 & X8 & X9 & E1 & E2).
  destruct (add_corners_returns_inv _ _ _ _ H8) as (Rc & Hc & Fc).
  destruct (accl_loop_returns_inv _ _ _ _ _ _ H9) as (Ra & Ha & Fa).
  destruct (gyro_loop_returns_inv _ _ _ _ _ _ H10) as (Rg & Hg & Fg).
  unfold sample_context in X8, X9.
  injection X8 as A1 A2 A3 A4. injection X9 as B1 B2 B3 B4.
  rewrite A1, A2, A3, A4 in Fa. rewrite B1, B2, B3, B4 in Fg. rewrite C7 in Fc.
  exists (start_t_ns w), (end_t_ns w), Rc, Ra, Rg.
  split; [exact E1|]. split; [exact E2|].
  split; [|split; [exact Fc | split; [exact Fa | exact Fg]]].
  rewrite Hg, Ha, Hc, R7, <- !app_assoc. reflexivity.
Qed.

(** X4: the camera of every reprojection residual is read from view id 0
    (line 111), whatever ids the reconstruction uses.  When the
    reconstruction has no view with id 0, [InitSpline] returns only if no
    stored corner observation lies in the window in nanoseconds, and then
    it has added no reprojection residual. *)
Theorem InitSpline_reads_the_camera_of_view_0 D T W off gb ab tel s s' :
  InitSpline D T W off gb ab tel s = Returns tt s' ->
  GetView D 0%N = None ->
  (forall k cd start_ns end_ns,
     In (k, cd) (calib_corners_ s') ->
     Double.to_int64 (t0_s_ s' * 1e9) = Some start_ns ->
     Double.to_int64 (tend_s_ s' * 1e9) = Some end_ns ->
     frame_id k < start_ns \/ end_ns <= frame_id k)
  /\ (forall cd cam t,
        In (RSCornersResidual cd cam t) (residuals (trajectory_ s')) ->
        In (RSCornersResidual cd cam t) (residuals (trajectory_ s))).
Proof.
  intros H Hno.
  destruct (InitSpline_returns_inv _ _ _ _ _ _ _ _ _ H)
    as (s4 & w & s5 & s6 & s7 & s8 & s9 & H4 & H5 & H6 & H7 & H8 & H9 & H10).
  destruct (InitSpline_returns_frames _ _ _ _ _ _ _ _ _ _ _ _ _ _ _ _
              H4 H5 H6 H7 H8 H9 H10) as (R7 & C7 & _ & _ & E1 & E2).
  destruct (add_corners_returns_inv _ _ _ _ H8) as (Rc & Hc & Fc).
  destruct (accl_loop_returns_inv _ _ _ _ _ _ H9) as (Ra & Ha & Fa).
  destruct (gyro_loop_returns_inv _ _ _ _ _ _ H10) as (Rg & Hg & Fg).
  assert (Empty : filter (corner_in_window (start_t_ns w) (end_t_ns w)) (calib_corners_ s7)
                  = []).
  { destruct Fc as [|kv r l rs (view0 & Ev & _) _]; [reflexivity|]. congruence. }
  rewrite Empty in Fc. inversion Fc; subst Rc. rewrite app_nil_r in Hc.
  split.
  - intros k cd start_ns end_ns Hin Es Ee.
    rewrite E1 in Es. rewrite E2 in Ee. injection Es as <-. injection Ee as <-.
    rewrite <- C7 in Hin.
    destruct (corner_in_window (start_t_ns w) (end_t_ns w) (k, cd)) eqn:Ein.
    + exfalso. assert (Hf : In (k, cd) (filter (corner_in_window (start_t_ns w) (end_t_ns w))
                                           (calib_corners_ s7)))
        by (apply filter_In; split; assumption).
      rewrite Empty in Hf. exact Hf.
    + unfold corner_in_window in Ein. simpl in Ein.
      apply andb_false_iff in Ein. destruct Ein as [E | E].
      * left. apply Z.leb_gt. exact E.
      * right. apply Z.ltb_ge. exact E.
  - intros cd cam t Hin. rewrite Hg, Ha, Hc, R7 in Hin.
    apply in_app_or in Hin. destruct Hin as [Hin | Hin].
    + apply in_app_or in Hin. destruct Hin as [Hin | Hin]; [exact Hin|].
      exfalso. clear - Fa Hin.
      induction Fa as [|i r l rs (ms & meas & t_ns & _ & _ & _ & Er) _ IH];
        [exact Hin|].
      destruct Hin as [E | Hin]; [congruence | exact (IH Hin)].
    + exfalso. clear - Fg Hin.
      induction Fg as [|i r l rs (ms & meas & t_ns & _ & _ & _ & Er) _ IH];
        [exact Hin|].
      destruct Hin as [E | Hin]; [congruence | exact (IH Hin)].
Qed.

End ResidualFacts.

(** ** What the maps hold *)

Section StdMapMore.
Context {K V : Type} (less : K -> K -> bool).

(** A key of the map after [m[k] = v] is [k] or a key of [m]. *)
Lemma in_map_assign_key k v (m : list (K * V)) k' x :
  In (k', x) (map_assign less k v m) -> k' = k \/ exists v0, In (k', v0) m.
Proof.
  induction m as [|[k0 v0] m IH]; simpl.
  - intros [E | []]. inversion E; subst. left. reflexivity.
  - destruct (less k k0) eqn:E1; simpl.
    + intros [E | [E | H]].
      * inversion E; subst. left. reflexivity.
      * inversion E; subst. right. exists x. left. reflexivity.
      * right. exists x. right. exact H.
    + destruct (less k0 k) eqn:E2; simpl.
      * intros [E | H].
        -- inversion E; subst. right. exists x. left. reflexivity.
        -- destruct (IH H) as [-> | (v1 & H1)]; [left; reflexivity|].
           right. exists v1. right. exact H1.
      * intros [E | H].
        -- inversion E; subst. right. exists v0. left. reflexivity.
        -- right. exists x. right. exact H.
Qed.

Lemma map_assign_key_in k v (m : list (K * V)) k' :
  In k' (map fst (map_assign less k v m)) -> k' = k \/ In k' (map fst m).
Proof.
  intros H. apply in_map_iff in H. destruct H as ([k1 x] & <- & H). simpl.
  apply in_map_assign_key in H. destruct H as [-> | (v0 & H)]; [left; reflexivity|].
  right. apply in_map_iff. exists (k1, v0). split; [reflexivity | exact H].
Qed.

(** Assignment keeps the keys strictly ascending. *)
Lemma map_assign_sorted k v (m : list (K * V)) :
  (forall a b c, less a b = true -> less b c = true -> less a c = true) ->
  StronglySorted (fun a b => less a b = true) (map fst m) ->
  StronglySorted (fun a b => less a b = true) (map fst (map_assign less k v m)).
Proof.
  intros Htrans. induction m as [|[k0 v0] m IH]; simpl; intros Hs.
  - constructor; constructor.
  - inversion Hs as [|? ? Hs' Hall]; subst.
    destruct (less k k0) eqn:E1; simpl.
    + constructor; [exact Hs|]. constructor; [exact E1|].
      eapply Forall_impl; [|exact Hall]. intros a Ha. simpl in Ha.
      apply (Htrans _ _ _ E1 Ha).
    + destruct (less k0 k) eqn:E2; simpl.
      * constructor; [apply IH; exact Hs'|].
        apply Forall_forall. intros a Ha. apply map_assign_key_in in Ha.
        destruct Ha as [-> | Ha]; [exact E2|].
        rewrite Forall_forall in Hall. apply Hall. exact Ha.
      * constructor; assumption.
Qed.

End StdMapMore.

Section StdMapValues.
Context {K V V' : Type} (less : K -> K -> bool).

(** The keys after an assignment depend on the keys before only. *)
Lemma map_assign_keys k (v : V) (v' : V') (m : list (K * V)) (m' : list (K * V')) :
  map fst m = map fst m' ->
  map fst (map_assign less k v m) = map fst (map_assign less k v' m').
Proof.
  revert m'. induction m as [|[k0 v0] m IH]; intros [|[k1 v1] m']; simpl;
    intros E; try discriminate; [reflexivity|].
  injection E as -> E.
  destruct (less k k1); simpl; [rewrite E; reflexivity|].
  destruct (less k1 k); simpl; [rewrite (IH m' E)|rewrite E]; reflexivity.
Qed.

End StdMapValues.

Section StdMapMap.
Context {K V : Type} (less : K -> K -> bool).

(** Assignment commutes with a function applied to the values. *)
Lemma map_assign_map (f : V -> V) k v (m : list (K * V)) :
  map_assign less k (f v) (map (fun kv => (fst kv, f (snd kv))) m)
  = map (fun kv => (fst kv, f (snd kv))) (map_assign less k v m).
Proof.
  induction m as [|[k0 v0] m IH]; simpl; [reflexivity|].
  destruct (less k k0); simpl; [reflexivity|].
  destruct (less k0 k); simpl; [rewrite IH|]; reflexivity.
Qed.

End StdMapMap.

Section MapFacts.
Context {G : Geometry}.
Import DoubleOrder DoubleMore.

Lemma TimeCamId_less_trans a b c :
  TimeCamId_less a b = true -> TimeCamId_less b c = true -> TimeCamId_less a c = true.
Proof.
  destruct a as [a1 a2], b as [b1 b2], c as [c1 c2]. unfold TimeCamId_less; simpl.
  rewrite !orb_true_iff, !andb_true_iff, !Z.ltb_lt, !Z.eqb_eq. lia.
Qed.

Lemma ingest_view_lockstep D T id : preserves (lockstep T) (ingest_view D T id).
Proof.
  intros s (Hk & Hp & Hs).
  destruct (ingest_view_state D T id s) as [-> | (v & fid & cs & _ & _ & _ & _ & ->)].
  { repeat split; assumption. }
  unfold lockstep. simpl. split; [|split].
  - apply map_assign_keys. exact Hk.
  - rewrite Hp. unfold to_spline_pose.
    apply (map_assign_map TimeCamId_less
             (fun p => {| T_a_c := SE3_mul (T_a_c p) (SE3_inverse T) |})).
  - apply map_assign_sorted; [apply TimeCamId_less_trans | exact Hs].
Qed.

(** X6: [InitSpline] keeps the three maps keyed by [TimeCamId] in
    lockstep, whatever its outcome: [calib_corners_], [calib_init_poses_]
    and [spline_init_poses_] have the same keys, each once and in ascending
    order, and every spline pose is the registered camera pose times the
    inverse of [T_i_c_init]. *)
Theorem InitSpline_keeps_the_maps_in_lockstep D T W off gb ab tel s :
  lockstep T s ->
  lockstep T (state_of (InitSpline D T W off gb ab tel s)).
Proof.
  revert s. change (preserves (lockstep T) (InitSpline D T W off gb ab tel)).
  assert (Frame : forall (A : Type) (m : M A),
            unchanged (fun s => (calib_corners_ s, calib_init_poses_ s, spline_init_poses_ s)) m ->
            preserves (lockstep T) m).
  { intros A m Hm s (Hk & Hp & Hs). specialize (Hm s).
    remember (state_of (m s)) as s1. injection Hm as E1 E2 E3.
    unfold lockstep. rewrite E1, E2, E3. auto. }
  unfold InitSpline.
  do 6 (apply preserves_bind; [apply Frame; frame | intros ?]).
  apply preserves_bind.
  - apply preserves_for_each. intros id _. apply ingest_view_lockstep.
  - intros _. apply Frame. frame.
Qed.

(** What a call of a loop body over the inertial samples does to the
    members: nothing, or the residual and the map entry of an accepted
    sample. *)
Lemma add_accl_sample_state tel off ab i s :
  state_of (add_accl_sample tel off ab i s) = s
  \/ exists ms meas t_ns,
       (ms * 1e-3 + off <? t0_s_ s)%float = false
       /\ (tend_s_ s <=? ms * 1e-3 + off)%float = false
       /\ Double.to_int64 ((ms * 1e-3 + off) * 1e9) = Some t_ns
       /\ state_of (add_accl_sample tel off ab i s)
          = set_accl_measurements
              (map_assign PrimFloat.ltb (ms * 1e-3 + off)%float (vec_add meas ab)
                          (accl_measurements s))
              (set_trajectory_
                 (addResidual
                    (AccelResidual (vec_add meas ab) t_ns
                       (1 / var_r3 (spline_weight_data_ s))%float (reestimate_biases_ s))
                    (trajectory_ s)) s).
Proof.
  destruct (nth_error (timestamp_ms (accelerometer tel)) i) as [ms|] eqn:Hi.
  2:{ left. unfold add_accl_sample, bind, index. rewrite Hi. reflexivity. }
  destruct (ms * 1e-3 + off <? t0_s_ s)%float eqn:H1.
  { left. rewrite (add_accl_sample_skips tel off ab i ms s Hi); auto. }
  destruct (tend_s_ s <=? ms * 1e-3 + off)%float eqn:H2.
  { left. rewrite (add_accl_sample_skips tel off ab i ms s Hi); auto. }
  destruct (nth_error (measurement (accelerometer tel)) i) as [meas|] eqn:Hm.
  2:{ left. unfold add_accl_sample, bind, index, gets. rewrite Hi. simpl.
      rewrite H1, H2. simpl. rewrite Hm. reflexivity. }
  destruct (Double.to_int64 ((ms * 1e-3 + off) * 1e9)) as [t_ns|] eqn:Ht.
  2:{ left. unfold add_accl_sample, bind, index, gets, to_int64. rewrite Hi. simpl.
      rewrite H1, H2. simpl. rewrite Hm. simpl. rewrite Ht. reflexivity. }
  right. exists ms, meas, t_ns. repeat split; auto.
  rewrite (add_accl_sample_accepts tel off ab i ms meas t_ns s Hi Hm H1 H2 Ht).
  reflexivity.
Qed.

Lemma add_gyro_sample_state tel off gb i s :
  state_of (add_gyro_sample tel off gb i s) = s
  \/ exists ms meas t_ns,
       (ms * 1e-3 + off <? t0_s_ s)%float = false
       /\ (tend_s_ s <=? ms * 1e-3 + off)%float = false
       /\ Double.to_int64 ((ms * 1e-3 + off) * 1e9) = Some t_ns
       /\ state_of (add_gyro_sample tel off gb i s)
          = set_gyro_measurements
              (map_assign PrimFloat.ltb (ms * 1e-3 + off)%float (vec_add meas gb)
                          (gyro_measurements s))
              (set_trajectory_
                 (addResidual
                    (GyroResidual (vec_add meas gb) t_ns
                       (1 / var_so3 (spline_weight_data_ s))%float (reestimate_biases_ s))
                    (trajectory_ s)) s).
Proof.
  destruct (nth_error (timestamp_ms (gyroscope tel)) i) as [ms|] eqn:Hi.
  2:{ left. unfold add_gyro_sample, bind, index. rewrite Hi. reflexivity. }
  destruct (ms * 1e-3 + off <? t0_s_ s)%float eqn:H1.
  { left. rewrite (add_gyro_sample_skips tel off gb i ms s Hi); auto. }
  destruct (tend_s_ s <=? ms * 1e-3 + off)%float eqn:H2.
  { left. rewrite (add_gyro_sample_skips tel off gb i ms s Hi); auto. }
  destruct (nth_error (measurement (gyroscope tel)) i) as [meas|] eqn:Hm.
  2:{ left. unfold add_gyro_sample, bind, index, gets. rewrite Hi. simpl.
      rewrite H1, H2. simpl. rewrite Hm. reflexivity. }
  destruct (Double.to_int64 ((ms * 1e-3 + off) * 1e9)) as [t_ns|] eqn:Ht.
  2:{ left. unfold add_gyro_sample, bind, index, gets, to_int64. rewrite Hi. simpl.
      rewrite H1, H2. simpl. rewrite Hm. simpl. rewrite Ht. reflexivity. }
  right. exists ms, meas, t_ns. repeat split; auto.
  rewrite (add_gyro_sample_accepts tel off gb i ms meas t_ns s Hi Hm H1 H2 Ht).
  reflexivity.
Qed.

Lemma accepted_in_window t t0 tend t_ns :
  is_nan t0 = false -> is_nan tend = false ->
  (t <? t0)%float = false -> (tend <=? t)%float = false ->
  Double.to_int64 (t * 1e9) = Some t_ns ->
  (t0 <=? t)%float = true /\ (t <? tend)%float = true.
Proof.
  intros N0 N1 H1 H2 Ht.
  pose proof (to_int64_mul_not_nan _ _ _ Ht) as Nt.
  split; [apply ltb_false_leb | apply leb_false_ltb]; assumption.
Qed.

Lemma add_accl_sample_numbered tel off ab i :
  preserves numbered_window (add_accl_sample tel off ab i).
Proof.
  intros s (N0 & N1 & HK).
  destruct (add_accl_sample_state tel off ab i s)
    as [-> | (ms & meas & t_ns & H1 & H2 & Ht & ->)].
  { exact (conj N0 (conj N1 HK)). }
  unfold numbered_window, inertial_in_window. simpl.
  split; [exact N0|]. split; [exact N1|].
  intros t v [Hin | Hin]; [|apply (HK t v); right; exact Hin].
  apply in_map_assign_key in Hin. destruct Hin as [-> | (v0 & Hin)].
  - apply (accepted_in_window _ _ _ t_ns); assumption.
  - apply (HK t v0). left. exact Hin.
Qed.

Lemma add_gyro_sample_numbered tel off gb i :
  preserves numbered_window (add_gyro_sample tel off gb i).
Proof.
  intros s (N0 & N1 & HK).
  destruct (add_gyro_sample_state tel off gb i s)
    as [-> | (ms & meas & t_ns & H1 & H2 & Ht & ->)].
  { exact (conj N0 (conj N1 HK)). }
  unfold numbered_window, inertial_in_window. simpl.
  split; [exact N0|]. split; [exact N1|].
  intros t v [Hin | Hin]; [apply (HK t v); left; exact Hin|].
  apply in_map_assign_key in Hin. destruct Hin as [-> | (v0 & Hin)].
  - apply (accepted_in_window _ _ _ t_ns); assumption.
  - apply (HK t v0). right. exact Hin.
Qed.

Lemma no_inertial_sample_in_window s : no_inertial_sample s -> inertial_in_window s.
Proof. intros [Ea Eg] t v. rewrite Ea, Eg. intros [[] | []]. Qed.

Lemma numbered_window_in_window s : numbered_window s -> inertial_in_window s.
Proof. intros (_ & _ & H). exact H. Qed.

Lemma InitSpline_inertial_in_window D T W off gb ab tel s :
  no_inertial_sample s ->
  inertial_in_window (state_of (InitSpline D T W off gb ab tel s)).
Proof.
  apply (triple_state_of no_inertial_sample inertial_in_window).
  assert (Early : forall (A : Type) (m : M A),
            unchanged (fun s => (accl_measurements s, gyro_measurements s)) m ->
            triple no_inertial_sample m (fun _ => no_inertial_sample) inertial_in_window).
  { intros A m Hm. apply triple_preserves; [|apply no_inertial_sample_in_window].
    intros s1 [Ea Eg]. specialize (Hm s1).
    remember (state_of (m s1)) as s2. injection Hm as E1 E2.
    unfold no_inertial_sample. rewrite E1, E2. auto. }
  assert (Late : forall (A : Type) (m : M A),
            unchanged (fun s => (t0_s_ s, tend_s_ s, accl_measurements s, gyro_measurements s)) m ->
            preserves numbered_window m).
  { intros A m Hm s1 (N0 & N1 & HK). specialize (Hm s1).
    remember (state_of (m s1)) as s2. injection Hm as E1 E2 E3 E4.
    unfold numbered_window, inertial_in_window. rewrite E1, E2, E3, E4. auto. }
  unfold InitSpline.
  do 5 (apply triple_bind with (R := fun _ => no_inertial_sample);
        [apply Early; frame | intros _]).
  apply triple_bind with (R := fun _ => numbered_window).
  { intros s1 Hs1.
    pose proof (Early _ (init_trajectory_times D T)
                  ltac:(unfold init_trajectory_times; frame) s1 Hs1) as HE.
    destruct (init_trajectory_times D T s1) as [w s2|s2|u s2] eqn:E; try exact HE.
    simpl in HE.
    carry (fun s => (t0_s_ s, tend_s_ s)) E. injection Carry as C0 C1.
    apply init_trajectory_times_returns_inv in E. destruct E as (E1 & E2 & _).
    unfold numbered_window. rewrite C0, C1.
    split; [apply (to_int64_mul_not_nan _ _ _ E1)|].
    split; [apply (to_int64_mul_not_nan _ _ _ E2)|].
    apply no_inertial_sample_in_window. exact HE. }
  intros w.
  do 3 (apply triple_bind with (R := fun _ => numbered_window);
        [apply triple_preserves; [apply Late; frame | apply numbered_window_in_window]
        | intros _]).
  apply triple_bind with (R := fun _ => numbered_window).
  { apply triple_preserves; [|apply numbered_window_in_window].
    apply preserves_for_each. intros i _. apply add_accl_sample_numbered. }
  intros _. intros s1 Hs1.
  assert (P : preserves numbered_window
                (for_each (indices (measurement (gyroscope tel)))
                          (add_gyro_sample tel off gb))).
  { apply preserves_for_each. intros i _. apply add_gyro_sample_numbered. }
  specialize (P s1 Hs1). apply numbered_window_in_window in P.
  destruct (for_each _ _ s1); exact P.
Qed.

(** X5: on a calibrator that holds no inertial sample, every sample
    [InitSpline] stores lies in the half-open window it leaves:
    t0 <= t < t_end for each key of [accl_measurements] and
    [gyro_measurements], whatever the outcome.  (A sample is stored only
    after the window bounds have been converted to nanoseconds, so the bounds
    are numbers by then.) *)
Theorem InitSpline_stores_samples_of_the_window D T W off gb ab tel s :
  no_inertial_sample s ->
  let s' := state_of (InitSpline D T W off gb ab tel s) in
  Forall (fun sample => (t0_s_ s' <=? fst sample)%float = true
                        /\ (fst sample <? tend_s_ s')%float = true)
         (accl_measurements s')
  /\ Forall (fun sample => (t0_s_ s' <=? fst sample)%float = true
                           /\ (fst sample <? tend_s_ s')%float = true)
            (gyro_measurements s').
Proof.
  intros Hs s'.
  pose proof (InitSpline_inertial_in_window D T W off gb ab tel s Hs) as H.
  fold s' in H.
  split; apply Forall_forall; intros [t v] Hin; apply (H t v); [left | right]; exact Hin.
Qed.

End MapFacts.

(** ** A reconstruction whose views share one timestamp *)

Section SingleTimestamp.
Context {G : Geometry}.
Import DoubleOrder DoubleMore.

Lemma triple_pure {A : Type} (P : ImuCameraCalibrator -> Prop) (phi : Prop) (m : M A)
    (R : A -> ImuCameraCalibrator -> Prop) (Q : ImuCameraCalibrator -> Prop) :
  (phi -> triple P m R Q) -> triple (fun s => P s /\ phi) m R Q.
Proof. intros H s [Hs Hphi]. apply (H Hphi s Hs). Qed.

(** A computation that leaves the members satisfying [P] as they are. *)
Lemma triple_idle {A : Type} (P : ImuCameraCalibrator -> Prop) (m : M A)
    (Q : ImuCameraCalibrator -> Prop) :
  (forall s, P s -> state_of (m s) = s) -> (forall s, P s -> Q s) ->
  triple P m (fun _ => P) Q.
Proof.
  intros Hm HQ s Hs. specialize (Hm s Hs).
  destruct (m s) as [a s1|s1|u s1]; simpl in Hm; subst s1; auto.
Qed.

Lemma for_each_idle {A : Type} (l : list A) (body : A -> M unit) s :
  (forall x, In x l -> state_of (body x s) = s) -> state_of (for_each l body s) = s.
Proof.
  induction l as [|x l IH]; intros Hb; [reflexivity|]. simpl.
  pose proof (Hb x (or_introl eq_refl)) as E. unfold bind.
  destruct (body x s) as [[] s1|s1|u s1]; simpl in E; subst s1; try reflexivity.
  apply IH. intros y Hy. apply Hb. right. exact Hy.
Qed.

Lemma view_timestamps_all_at D t :
  all_views_at D t -> Forall (eq t) (view_timestamps D).
Proof.
  intros H. apply Forall_forall. intros x Hx. unfold view_timestamps in Hx.
  apply in_flat_map in Hx. destruct Hx as (id & Hid & Hx).
  destruct (GetView D id) as [v|] eqn:E; [|destruct Hx].
  destruct Hx as [<- | []]. symmetry. apply (H id v Hid E).
Qed.

Lemma ingest_view_empty_window D T id t s :
  all_views_at D t -> is_nan t = false -> In id (ViewIds D) ->
  tend_s_ s = t -> state_of (ingest_view D T id s) = s.
Proof.
  intros Hall Hn Hid Ht.
  destruct (ingest_view_state D T id s) as [E | (v & fid & cs & Hv & H1 & _)];
    [exact E|].
  rewrite (Hall id v Hid Hv), Ht, (leb_refl t Hn) in H1. discriminate.
Qed.

Lemma add_corners_empty_window D w s :
  start_t_ns w = end_t_ns w -> add_corners D w s = Returns tt s.
Proof.
  intros Hw. unfold add_corners. rewrite bind_gets.
  induction (calib_corners_ s) as [|kv l IH]; [reflexivity|]. simpl.
  rewrite (bind_returns _ _ s tt s); [exact IH|].
  apply add_corner_skips. lia.
Qed.

Lemma sample_outside_empty_window t x t_ns :
  is_nan t = false ->
  (x <? t)%float = false -> (t <=? x)%float = false ->
  Double.to_int64 (x * 1e9) = Some t_ns -> False.
Proof.
  intros Hn H1 H2 Hx. pose proof (to_int64_mul_not_nan _ _ _ Hx) as Nx.
  rewrite (ltb_false_leb x t Nx Hn H1) in H2. discriminate.
Qed.

Lemma add_accl_sample_empty_window tel off ab i t s :
  is_nan t = false -> t0_s_ s = t -> tend_s_ s = t ->
  state_of (add_accl_sample tel off ab i s) = s.
Proof.
  intros Hn H0 Ht.
  destruct (add_accl_sample_state tel off ab i s)
    as [E | (ms & meas & t_ns & H1 & H2 & Hx & _)]; [exact E|].
  rewrite H0 in H1. rewrite Ht in H2.
  destruct (sample_outside_empty_window _ _ _ Hn H1 H2 Hx).
Qed.

Lemma add_gyro_sample_empty_window tel off gb i t s :
  is_nan t = false -> t0_s_ s = t -> tend_s_ s = t ->
  state_of (add_gyro_sample tel off gb i s) = s.
Proof.
  intros Hn H0 Ht.
  destruct (add_gyro_sample_state tel off gb i s)
    as [E | (ms & meas & t_ns & H1 & H2 & Hx & _)]; [exact E|].
  rewrite H0 in H1. rewrite Ht in H2.
  destruct (sample_outside_empty_window _ _ _ Hn H1 H2 Hx).
Qed.

Lemma InitSpline_from_window_empty D T off gb ab tel t s0 :
  all_views_at D t -> is_nan t = false ->
  triple (empty_window_at t s0) (InitSpline_from_window D T off gb ab tel)
         (fun _ s => empty_window_at t s0 s /\ minimal_knots s)
         (empty_window_at t s0).
Proof.
  intros Hall Hn.
  assert (Frame : forall (A : Type) (m : M A),
            unchanged (fun s => (t0_s_ s, tend_s_ s, stored_of s)) m ->
            preserves (empty_window_at t s0) m).
  { intros A m Hm s (H0 & H1 & H2). specialize (Hm s).
    pose proof (f_equal (fun p => fst (fst p)) Hm) as E0.
    pose proof (f_equal (fun p => snd (fst p)) Hm) as E1.
    pose proof (f_equal snd Hm) as E2. cbv beta in E0, E1, E2.
    unfold fst, snd in E0, E1, E2.
    unfold empty_window_at. rewrite E0, E1, E2. auto. }
  unfold InitSpline_from_window.
  apply triple_bind
    with (R := fun w s => empty_window_at t s0 s /\ start_t_ns w = end_t_ns w).
  { intros s Hs.
    pose proof (Frame _ (init_trajectory_times D T)
                  ltac:(unfold init_trajectory_times, stored_of; frame) s Hs) as HE.
    destruct (init_trajectory_times D T s) as [w s2|s2|u s2] eqn:E; try exact HE.
    simpl in HE. split; [exact HE|].
    apply init_trajectory_times_returns_inv in E. destruct E as (E1 & E2 & _).
    destruct Hs as (H0 & H1 & _). rewrite H0 in E1. rewrite H1 in E2. congruence. }
  intros w. apply triple_pure. intros Hw.
  apply triple_bind with (R := fun _ => empty_window_at t s0).
  { apply triple_idle; [|auto]. intros s (_ & H1 & _).
    apply for_each_idle. intros id Hid.
    apply (ingest_view_empty_window D T id t s Hall Hn Hid H1). }
  intros _.
  apply triple_bind
    with (R := fun _ s => empty_window_at t s0 s /\ minimal_knots s).
  { intros s Hs.
    pose proof (Frame _ (init_knots w)
                  ltac:(unfold init_knots, stored_of; frame) s Hs) as HE.
    destruct (init_knots w s) as [[] s2|s2|u s2] eqn:E; try exact HE.
    simpl in HE. split; [exact HE|].
    apply init_knots_returns_inv in E. destruct E as (K1 & K2 & D1 & D2).
    unfold minimal_knots. rewrite K1, K2, Hw, Z.sub_diag.
    rewrite !Z.quot_0_l by assumption. split; reflexivity. }
  intros _.
  apply triple_bind
    with (R := fun _ s => empty_window_at t s0 s /\ minimal_knots s).
  { apply triple_idle; [|tauto]. intros s _.
    rewrite (add_corners_empty_window D w s Hw). reflexivity. }
  intros _.
  apply triple_bind
    with (R := fun _ s => empty_window_at t s0 s /\ minimal_knots s).
  { apply triple_idle; [|tauto]. intros s ((H0 & H1 & _) & _).
    apply for_each_idle. intros i _.
    apply (add_accl_sample_empty_window tel off ab i t s Hn H0 H1). }
  intros _.
  apply triple_idle; [|tauto]. intros s ((H0 & H1 & _) & _).
  apply for_each_idle. intros i _.
  apply (add_gyro_sample_empty_window tel off gb i t s Hn H0 H1).
Qed.

(** X7: a reconstruction whose views all carry the same timestamp [t]
    gives, on a calibrator without camera timestamps, the empty window
    [t, t): [InitSpline] stores no view, no corner observation and no
    inertial sample and adds no residual, whatever the telemetry; when it
    returns, both knot counts are the spline order.  A single view is the
    common case. *)
Theorem InitSpline_on_a_single_timestamp D T W off gb ab tel s t :
  cam_timestamps_ s = [] -> ViewIds D <> [] -> views_exist D ->
  all_views_at D t -> is_nan t = false ->
  let o := InitSpline D T W off gb ab tel s in
  t0_s_ (state_of o) = t /\ tend_s_ (state_of o) = t
  /\ stored_of (state_of o) = stored_of s
  /\ (forall s', o = Returns tt s' ->
                 nr_knots_so3_ s' = SPLINE_N /\ nr_knots_r3_ s' = SPLINE_N).
Proof.
  intros Hs Hne Hex Hall Hn o.
  pose proof (view_timestamps_all_at D t Hall) as Hts.
  assert (Hnn : no_nan (cam_timestamps_ s ++ view_timestamps D)).
  { rewrite Hs. simpl. eapply Forall_impl; [|exact Hts].
    intros x <-. exact Hn. }
  destruct (InitSpline_reaches_window D T W off gb ab tel s Hne Hex Hnn)
    as (d & a & b & E & _ & [Ha _] & [Hb _]).
  rewrite Hs in Ha, Hb. simpl in Ha, Hb.
  rewrite Forall_forall in Hts.
  apply (Permutation_in _ (std_sort_perm _)) in Ha.
  apply (Permutation_in _ (std_sort_perm _)) in Hb.
  apply Hts in Ha. apply Hts in Hb. subst a b.
  pose proof (InitSpline_from_window_empty D T off gb ab tel t s Hall Hn
                (at_window T W (std_sort (cam_timestamps_ s ++ view_timestamps D)) d t t s))
    as Run.
  subst o. rewrite E.
  assert (Start : empty_window_at t s
                    (at_window T W (std_sort (cam_timestamps_ s ++ view_timestamps D))
                       d t t s))
    by (unfold empty_window_at; auto).
  specialize (Run Start).
  destruct (InitSpline_from_window D T off gb ab tel _) as [[] s1|s1|u s1]; simpl.
  - destruct Run as ((H0 & H1 & H2) & K).
    repeat split; try assumption; injection H as <-; apply K.
  - destruct Run as (H0 & H1 & H2). repeat split; try assumption; discriminate.
  - destruct Run as (H0 & H1 & H2). repeat split; try assumption; discriminate.
Qed.

End SingleTimestamp.

(** ** The export and the board types *)

Section ExportFacts.
Context {G : Geometry} {E : Exporter}.

Lemma export_view_returns_inv i out s out' s' :
  export_view i out s = Returns out' s' ->
  s' = s
  /\ exists cam_t t_ns spline_pose,
       nth_error (cam_timestamps_ s) i = Some cam_t
       /\ Double.to_int64 (cam_t * 1e9) = Some t_ns
       /\ getPose (trajectory_ s) t_ns = Some spline_pose
       /\ AddView_valid out t_ns = true
       /\ out' = out ++ [exported_view spline_pose t_ns].
Proof.
  unfold export_view. rewrite bind_gets. unfold bind, index, to_int64, gets.
  destruct (nth_error (cam_timestamps_ s) i) as [cam_t|] eqn:Hi; [|discriminate].
  simpl. destruct (Double.to_int64 (cam_t * 1e9)) as [t_ns|] eqn:Ht; [|discriminate].
  simpl. destruct (getPose (trajectory_ s) t_ns) as [spline_pose|] eqn:Hp; [|discriminate].
  destruct (AddView_valid out t_ns) eqn:V; [|discriminate].
  intros H. injection H as <- <-. split; [reflexivity|].
  exists cam_t, t_ns, spline_pose. auto.
Qed.

Lemma export_view_never_throws i out : never_throws (export_view i out).
Proof.
  intros s s'. unfold export_view. rewrite bind_gets. unfold bind, index, to_int64, gets.
  destruct (nth_error (cam_timestamps_ s) i) as [cam_t|]; [|discriminate].
  simpl. destruct (Double.to_int64 (cam_t * 1e9)) as [t_ns|]; [|discriminate].
  simpl. destruct (getPose (trajectory_ s) t_ns) as [spline_pose|]; [|discriminate].
  destruct (AddView_valid out t_ns); discriminate.
Qed.

Lemma export_views_never_throws l out : never_throws (export_views l out).
Proof.
  revert out. induction l as [|i l IH]; intros out; simpl.
  - apply never_throws_ret.
  - apply never_throws_bind; [apply export_view_never_throws | intros out1; apply IH].
Qed.

Lemma export_views_state l out s : state_of (export_views l out s) = s.
Proof.
  revert out. induction l as [|i l IH]; intros out; [reflexivity|]. simpl.
  assert (F : unchanged (fun s => s) (export_view i out))
    by (unfold export_view; frame).
  specialize (F s). unfold bind.
  destruct (export_view i out s) as [out1 s1|s1|u s1]; simpl in F; subst s1;
    try reflexivity.
  apply IH.
Qed.

Lemma export_views_returns_inv l out s out' s' :
  export_views l out s = Returns out' s' ->
  exists added,
    out' = out ++ added
    /\ Forall2 (fun i v => exists cam_t, nth_error (cam_timestamps_ s) i = Some cam_t
                                         /\ exported (trajectory_ s) cam_t v) l added.
Proof.
  revert out. induction l as [|i l IH]; intros out; simpl.
  - intros H. injection H as <- _. exists []. rewrite app_nil_r.
    split; [reflexivity | constructor].
  - intros H. apply bind_returns_inv in H. destruct H as (out1 & s1 & H1 & H).
    apply export_view_returns_inv in H1.
    destruct H1 as (-> & cam_t & t_ns & spline_pose & Hi & Ht & Hp & _ & ->).
    destruct (IH _ H) as (added & -> & Hall).
    exists (exported_view spline_pose t_ns :: added). split.
    + rewrite <- app_assoc. reflexivity.
    + constructor; [|exact Hall]. exists cam_t. split; [exact Hi|].
      exists t_ns, spline_pose. auto.
Qed.

(** A relation that holds index by index holds element by element. *)
Lemma Forall2_indices {A B : Type} (R : A -> B -> Prop) (pre l : list A) (bs : list B) :
  Forall2 (fun i b => exists a, nth_error (pre ++ l) i = Some a /\ R a b)
          (seq (length pre) (length l)) bs ->
  Forall2 R l bs.
Proof.
  revert pre bs. induction l as [|x l IH]; intros pre bs H; simpl in H.
  - inversion H. constructor.
  - inversion H as [|i b is' bs' (a & Ha & HR) Hrest]; subst.
    rewrite nth_error_app2 in Ha by lia. rewrite Nat.sub_diag in Ha. simpl in Ha.
    injection Ha as <-. constructor; [exact HR|].
    apply (IH (pre ++ [x])). rewrite <- app_assoc, length_app. simpl.
    rewrite Nat.add_1_r. exact Hrest.
Qed.

Lemma Forall2_In_l {A B : Type} (R : A -> B -> Prop) (l : list A) (bs : list B) a :
  Forall2 R l bs -> In a l -> exists b, In b bs /\ R a b.
Proof.
  induction 1 as [|x y l bs HR _ IH]; intros Hin; [destruct Hin|].
  destruct Hin as [<- | Hin].
  - exists y. split; [left; reflexivity | exact HR].
  - destruct (IH Hin) as (b & Hb & Hab). exists b. split; [right; exact Hb | exact Hab].
Qed.

(** X14: [ToTheiaReconDataset] reads the members and changes none,
    whatever its outcome.  When it returns, the views given stay and one view
    is appended for every camera timestamp, in the order of
    [cam_timestamps_]: named and stamped with the timestamp in whole
    nanoseconds, marked estimated, with the transposed rotation and the
    translation of the spline pose at that nanosecond. *)
Theorem ToTheiaReconDataset_adds_a_view_per_timestamp output_recon s :
  state_of (ToTheiaReconDataset output_recon s) = s
  /\ forall output_recon' s',
       ToTheiaReconDataset output_recon s = Returns output_recon' s' ->
       exists added,
         output_recon' = output_recon ++ added
         /\ Forall2 (exported (trajectory_ s)) (cam_timestamps_ s) added.
Proof.
  unfold ToTheiaReconDataset. rewrite bind_gets. split.
  - apply export_views_state.
  - intros out' s' H.
    destruct (export_views_returns_inv _ _ _ _ _ H) as (added & -> & Hall).
    exists added. split; [reflexivity|].
    apply (Forall2_indices _ []). exact Hall.
Qed.

(** X15: after [InitSpline] on a calibrator without camera timestamps,
    the export evaluates the trajectory at [tend_s_] in whole nanoseconds,
    the excluded end of the window: the last frame, of which [InitSpline]
    stores no observation, is among the camera timestamps.  A returning export
    has obtained a pose from [getPose] at that time and has written the view
    of the last frame with it, one view per timestamp of the reconstruction
    in all; where the trajectory cannot be evaluated at that time, the export
    cannot return and ends in undefined behaviour. *)
Theorem ToTheiaReconDataset_evaluates_the_spline_at_t_end D T W off gb ab tel s
    output_recon end_ns :
  cam_timestamps_ s = [] -> ViewIds D <> [] -> views_exist D ->
  no_nan (view_timestamps D) ->
  let s' := state_of (InitSpline D T W off gb ab tel s) in
  Double.to_int64 (tend_s_ s' * 1e9) = Some end_ns ->
  (forall output_recon' s'',
     ToTheiaReconDataset output_recon s' = Returns output_recon' s'' ->
     exists spline_pose added,
       getPose (trajectory_ s') end_ns = Some spline_pose
       /\ output_recon' = output_recon ++ added
       /\ length added = length (view_timestamps D)
       /\ In (exported_view spline_pose end_ns) added)
  /\ (getPose (trajectory_ s') end_ns = None ->
      exists u s'', ToTheiaReconDataset output_recon s' = Undefined u s'').
Proof.
  intros Hs Hne Hex Hn s' Hend.
  assert (Hnn : no_nan (cam_timestamps_ s ++ view_timestamps D))
    by (rewrite Hs; exact Hn).
  destruct (InitSpline_window D T W off gb ab tel s Hne Hex Hnn)
    as (Ets & _ & _ & [Hin _]).
  fold s' in Ets, Hin. rewrite Hs in Ets. simpl in Ets.
  assert (Run : forall output_recon' s'',
            ToTheiaReconDataset output_recon s' = Returns output_recon' s'' ->
            exists spline_pose added,
              getPose (trajectory_ s') end_ns = Some spline_pose
              /\ output_recon' = output_recon ++ added
              /\ length added = length (view_timestamps D)
              /\ In (exported_view spline_pose end_ns) added).
  { intros out' s'' H.
    unfold ToTheiaReconDataset in H. rewrite bind_gets in H.
    destruct (export_views_returns_inv _ _ _ _ _ H) as (added & -> & Hall).
    apply (Forall2_indices _ []) in Hall.
    destruct (Forall2_In_l _ _ _ _ Hall Hin) as (v & Hv & t_ns & pose & Ht & Hp & ->).
    rewrite Hend in Ht. injection Ht as <-.
    exists pose, added. split; [exact Hp|]. split; [reflexivity|]. split; [|exact Hv].
    rewrite <- (Forall2_length Hall), Ets.
    apply Permutation_length, std_sort_perm. }
  split; [exact Run|].
  intros Hnone.
  pose proof (export_views_never_throws (indices (cam_timestamps_ s')) output_recon s')
    as N.
  destruct (ToTheiaReconDataset output_recon s') as [out' s''|s''|u s''] eqn:H.
  - exfalso. destruct (Run out' s'' eq_refl) as (pose & _ & Hp & _). congruence.
  - exfalso. unfold ToTheiaReconDataset in H. rewrite bind_gets in H.
    apply (N s'' H).
  - exists u, s''. reflexivity.
Qed.

End ExportFacts.

Section BoardTypeFacts.
Import String BoardExtractor.
Local Open Scope string_scope.

(** X16: [StringToBoardType] returns for exactly two strings, compared
    with case: "charuco" gives CHARUCO and "radon" gives RADON.  For every
    other string the function ends without a [return]: there is no default
    board type and no error.  Two strings with the same board type are
    equal. *)
Theorem StringToBoardType_returns_for_two_names board_type :
  (StringToBoardType board_type = Some CHARUCO <-> board_type = "charuco")
  /\ (StringToBoardType board_type = Some RADON <-> board_type = "radon")
  /\ (StringToBoardType board_type = None
      <-> board_type <> "charuco" /\ board_type <> "radon")
  /\ (forall other b,
        StringToBoardType board_type = Some b -> StringToBoardType other = Some b ->
        other = board_type).
Proof.
  assert (Inv : forall x b, StringToBoardType x = Some b ->
                  (b = CHARUCO /\ x = "charuco") \/ (b = RADON /\ x = "radon")).
  { intros x b. unfold StringToBoardType.
    destruct (String.eqb x "charuco") eqn:E1.
    - apply String.eqb_eq in E1. intros H. injection H as <-. left. auto.
    - destruct (String.eqb x "radon") eqn:E2; [|discriminate].
      apply String.eqb_eq in E2. intros H. injection H as <-. right. auto. }
  split; [|split; [|split]].
  - split.
    + intros H. destruct (Inv _ _ H) as [[_ E] | [E _]]; [exact E | discriminate].
    + intros ->. reflexivity.
  - split.
    + intros H. destruct (Inv _ _ H) as [[E _] | [_ E]]; [discriminate | exact E].
    + intros ->. reflexivity.
  - unfold StringToBoardType. split.
    + destruct (String.eqb board_type "charuco") eqn:E1; [discriminate|].
      destruct (String.eqb board_type "radon") eqn:E2; [discriminate|].
      intros _. split; apply String.eqb_neq; assumption.
    + intros [N1 N2]. apply String.eqb_neq in N1, N2. rewrite N1, N2. reflexivity.
  - intros other b H1 H2.
    destruct (Inv _ _ H1) as [[-> ->] | [-> ->]];
      destruct (Inv _ _ H2) as [[E ->] | [E ->]]; try discriminate; reflexivity.
Qed.

End BoardTypeFacts.

(** ** What a returning [InitSpline] hands to the trajectory *)

Section SetupFacts.
Context {G : Geometry}.

Lemma init_line_delay_returns_inv D W s s' :
  init_line_delay D W s = Returns tt s' ->
  rs_line_delay (trajectory_ s') = Some (inital_cam_line_delay_s_ s').
Proof.
  unfold init_line_delay. rewrite bind_gets. intros H.
  apply bind_returns_inv in H. destruct H as ([] & s1 & _ & H).
  rewrite bind_gets in H. unfold modify_trajectory, modify in H.
  injection H as <-. reflexivity.
Qed.

Lemma init_trajectory_times_returns_state D T s w s' :
  init_trajectory_times D T s = Returns w s' ->
  knot_times (trajectory_ s') = Some (dt_so3_ns w, dt_r3_ns w, start_t_ns w)
  /\ calib (trajectory_ s') = Some D
  /\ T_i_c (trajectory_ s') = Some T.
Proof.
  unfold init_trajectory_times. rewrite bind_gets. intros H.
  apply bind_returns_inv in H. destruct H as (a & s1 & H1 & H).
  apply to_int64_returns_inv in H1. destruct H1 as [E1 ->].
  rewrite bind_gets in H.
  apply bind_returns_inv in H. destruct H as (b & s1 & H2 & H).
  apply to_int64_returns_inv in H2. destruct H2 as [E2 ->].
  rewrite bind_gets in H.
  apply bind_returns_inv in H. destruct H as (c & s1 & H3 & H).
  apply to_int64_returns_inv in H3. destruct H3 as [E3 ->].
  apply bind_returns_inv in H. destruct H as (d & s1 & H4 & H).
  apply to_int64_returns_inv in H4. destruct H4 as [E4 ->].
  unfold modify_trajectory in H. rewrite !bind_modify in H.
  inversion H; subst; simpl. auto.
Qed.

Lemma init_knots_returns_state w s s' :
  init_knots w s = Returns tt s' ->
  knots (trajectory_ s')
  = Some (spline_init_poses_ s', nr_knots_so3_ s', nr_knots_r3_ s').
Proof.
  unfold init_knots. intros H.
  apply bind_returns_inv in H. destruct H as (n1 & s1 & H1 & H).
  apply knot_count_returns_inv in H1. destruct H1 as (_ & _ & ->).
  rewrite bind_modify in H.
  apply bind_returns_inv in H. destruct H as (n2 & s2 & H2 & H).
  apply knot_count_returns_inv in H2. destruct H2 as (_ & _ & ->).
  rewrite bind_modify, bind_gets in H.
  unfold modify_trajectory, modify in H. injection H as <-. reflexivity.
Qed.

(** X17: when [InitSpline] returns, the trajectory has been set up from
    the members the calibrator is left with: its line delay is
    [inital_cam_line_delay_s_], its knot spacings and epoch are the spacings
    of the weighting data and [t0_s_] in whole nanoseconds, its
    reconstruction and camera-to-IMU transform are the arguments, and its
    knots were initialized from the final [spline_init_poses_] with the final
    knot counts.  The weighting data and [T_i_c_init_] are the arguments. *)
Theorem InitSpline_sets_up_the_trajectory D T W off gb ab tel s s' :
  InitSpline D T W off gb ab tel s = Returns tt s' ->
  spline_weight_data_ s' = W /\ T_i_c_init_ s' = T
  /\ rs_line_delay (trajectory_ s') = Some (inital_cam_line_delay_s_ s')
  /\ calib (trajectory_ s') = Some D
  /\ T_i_c (trajectory_ s') = Some T
  /\ knots (trajectory_ s')
     = Some (spline_init_poses_ s', nr_knots_so3_ s', nr_knots_r3_ s')
  /\ exists start_ns so3_ns r3_ns,
       Double.to_int64 (t0_s_ s' * 1e9) = Some start_ns
       /\ Double.to_int64 (dt_so3 W * 1e9) = Some so3_ns
       /\ Double.to_int64 (dt_r3 W * 1e9) = Some r3_ns
       /\ knot_times (trajectory_ s') = Some (so3_ns, r3_ns, start_ns).
Proof.
  unfold InitSpline. rewrite !bind_modify. intros H.
  apply bind_returns_inv in H. destruct H as ([] & s2 & H2 & H).
  apply bind_returns_inv in H. destruct H as ([] & s3 & H3 & H).
  apply bind_returns_inv in H. destruct H as ([] & s4 & H4 & H).
  apply bind_returns_inv in H. destruct H as (w & s5 & H5 & H).
  apply bind_returns_inv in H. destruct H as ([] & s6 & H6 & H).
  apply bind_returns_inv in H. destruct H as ([] & s7 & H7 & H).
  assert (Args : (spline_weight_data_ s', T_i_c_init_ s') = (W, T)).
  { carry (fun s => (spline_weight_data_ s, T_i_c_init_ s)) H.
    carry (fun s => (spline_weight_data_ s, T_i_c_init_ s)) H7.
    carry (fun s => (spline_weight_data_ s, T_i_c_init_ s)) H6.
    carry (fun s => (spline_weight_data_ s, T_i_c_init_ s)) H5.
    carry (fun s => (spline_weight_data_ s, T_i_c_init_ s)) H4.
    carry (fun s => (spline_weight_data_ s, T_i_c_init_ s)) H3.
    carry (fun s => (spline_weight_data_ s, T_i_c_init_ s)) H2.
    simpl in *. congruence. }
  assert (W4 : spline_weight_data_ s4 = W).
  { carry spline_weight_data_ H4. carry spline_weight_data_ H3.
    carry spline_weight_data_ H2. simpl in *. congruence. }
  assert (Delay : line_delay_of s' = line_delay_of s3).
  { carry line_delay_of H. carry line_delay_of H7. carry line_delay_of H6.
    carry line_delay_of H5. carry line_delay_of H4. congruence. }
  assert (Times : (knot_times (trajectory_ s'), calib (trajectory_ s'),
                   T_i_c (trajectory_ s'), t0_s_ s')
                  = (knot_times (trajectory_ s5), calib (trajectory_ s5),
                     T_i_c (trajectory_ s5), t0_s_ s5)).
  { carry (fun s => (knot_times (trajectory_ s), calib (trajectory_ s),
                     T_i_c (trajectory_ s), t0_s_ s)) H.
    carry (fun s => (knot_times (trajectory_ s), calib (trajectory_ s),
                     T_i_c (trajectory_ s), t0_s_ s)) H7.
    carry (fun s => (knot_times (trajectory_ s), calib (trajectory_ s),
                     T_i_c (trajectory_ s), t0_s_ s)) H6.
    congruence. }
  assert (T5 : t0_s_ s5 = t0_s_ s4) by (carry t0_s_ H5; exact Carry).
  assert (Knots : (knots (trajectory_ s'), spline_init_poses_ s',
                   nr_knots_so3_ s', nr_knots_r3_ s')
                  = (knots (trajectory_ s7), spline_init_poses_ s7,
                     nr_knots_so3_ s7, nr_knots_r3_ s7)).
  { carry (fun s => (knots (trajectory_ s), spline_init_poses_ s,
                     nr_knots_so3_ s, nr_knots_r3_ s)) H.
    exact Carry. }
  apply init_line_delay_returns_inv in H3.
  apply init_trajectory_times_returns_inv in H5 as Hw.
  destruct Hw as (E1 & _ & E3 & E4). rewrite W4 in E3, E4.
  apply init_trajectory_times_returns_state in H5. destruct H5 as (K5 & C5 & I5).
  apply init_knots_returns_state in H7.
  injection Args as A1 A2. unfold line_delay_of in Delay. injection Delay as D1 D2.
  injection Times as X1 X2 X3 X4. injection Knots as Y1 Y2 Y3 Y4.
  split; [exact A1|]. split; [exact A2|].
  split; [rewrite D1, D2; exact H3|].
  split; [rewrite X2; exact C5|].
  split; [rewrite X3; exact I5|].
  split; [rewrite Y1, Y2, Y3, Y4; exact H7|].
  exists (start_t_ns w), (dt_so3_ns w), (dt_r3_ns w).
  split; [rewrite X4, T5; exact E1|].
  split; [exact E3|]. split; [exact E4|].
  rewrite X1. exact K5.
Qed.

End SetupFacts.

(** ** What passes the window *)

Section StdMapKeeps.
Context {K V : Type} (less : K -> K -> bool).

(** A key that is found stays found after an assignment. *)
Lemma map_find_assign_keeps k k' v (m : list (K * V)) x :
  map_find less k m = Some x ->
  exists y, map_find less k (map_assign less k' v m) = Some y.
Proof.
  induction m as [|[k0 v0] m IH]; simpl; [discriminate|].
  intros H. destruct (less k' k0) eqn:E1; simpl.
  - destruct (less k k' || less k' k); [|eauto].
    destruct (less k k0 || less k0 k); eauto.
  - destruct (less k0 k') eqn:E2; simpl.
    + destruct (less k k0 || less k0 k); [apply IH; exact H | eauto].
    + destruct (less k k0 || less k0 k); eauto.
Qed.

End StdMapKeeps.

Section WindowMore.
Context {G : Geometry}.
Import DoubleOrder DoubleMore.

Lemma half_open_numbers t0 tend :
  is_nan t0 = false -> is_nan tend = false -> half_open t0 tend.
Proof.
  intros N0 N1. unfold half_open, passes_window. split; [|split].
  - intros t E L. destruct (at_t0_in_window _ _ _ E L) as [-> ->]. reflexivity.
  - intros t E. rewrite (at_tend_outside _ _ E), orb_true_r. reflexivity.
  - intros t Nt. split.
    + intros H. apply negb_true_iff, orb_false_iff in H. destruct H as [H1 H2].
      split; [apply ltb_false_leb | apply leb_false_ltb]; assumption.
    + intros [H1 H2].
      rewrite (leb_ltb_false _ _ H1), (ltb_leb_false _ _ H2). reflexivity.
Qed.

Lemma passes_window_between t0 tend t :
  (t0 <=? t)%float = true -> (t <? tend)%float = true ->
  passes_window t0 tend t = true.
Proof.
  intros H1 H2. unfold passes_window.
  rewrite (leb_ltb_false _ _ H1), (ltb_leb_false _ _ H2). reflexivity.
Qed.

Lemma is_minimum_perm a l l' :
  Permutation l l' -> is_minimum a l -> is_minimum a l'.
Proof.
  intros P [Hin Hall]. split.
  - eapply Permutation_in; eassumption.
  - eapply Permutation_Forall; eassumption.
Qed.

Lemma is_minimum_not_nan a l : is_minimum a l -> is_nan a = false.
Proof.
  intros [Hin Hall]. rewrite Forall_forall in Hall.
  apply (leb_not_nan a a). apply Hall. assumption.
Qed.

(** A loop establishes for each of its items what the body establishes for
    its item and the later bodies keep. *)
Lemma for_each_establishes {A : Type} (P : A -> ImuCameraCalibrator -> Prop)
    (body : A -> M unit) (l : list A) :
  (forall x s s1, body x s = Returns tt s1 -> P x s1) ->
  (forall x y s s1, P x s -> body y s = Returns tt s1 -> P x s1) ->
  forall s s', for_each l body s = Returns tt s' -> forall x, In x l -> P x s'.
Proof.
  intros Hnew Hkeep. induction l as [|y l IH]; intros s s' H x Hin; [destruct Hin|].
  simpl in H. apply bind_returns_inv in H. destruct H as ([] & s1 & H1 & H).
  destruct Hin as [<- | Hin]; [|exact (IH s1 s' H x Hin)].
  pose proof (Hnew y s s1 H1) as Hy. clear IH H1.
  revert s1 s' H Hy. induction l as [|z l IH]; intros s1 s' H Hy.
  - simpl in H. injection H as <-. exact Hy.
  - simpl in H. apply bind_returns_inv in H. destruct H as ([] & s2 & H2 & H).
    apply (IH s2 s' H). apply (Hkeep y z s1 s2 Hy H2).
Qed.

(** A returning call of the loop body over the views: the view fails the
    window test and nothing changes, or it passes and is stored. *)
Lemma ingest_view_returns_cases D T id s s1 :
  ingest_view D T id s = Returns tt s1 ->
  exists v,
    GetView D id = Some v
    /\ ((passes_window (t0_s_ s) (tend_s_ s) (GetTimestamp v) = false /\ s1 = s)
        \/ (passes_window (t0_s_ s) (tend_s_ s) (GetTimestamp v) = true
            /\ exists fid cs,
                 Double.to_int64 (GetTimestamp v * 1e9) = Some fid
                 /\ all_some (GetFeature v) (TrackIds v) = Some cs
                 /\ s1 = set_spline_init_poses_
                           (map_assign TimeCamId_less (view_key fid) (view_spline_pose T v)
                                       (spline_init_poses_ s))
                           (set_calib_init_poses_
                              (map_assign TimeCamId_less (view_key fid) (view_pose v)
                                          (calib_init_poses_ s))
                              (set_calib_corners_
                                 (map_assign TimeCamId_less (view_key fid)
                                             (view_corner_data v cs) (calib_corners_ s))
                                 s)))).
Proof.
  intros H.
  destruct (GetView D id) as [v|] eqn:Hv.
  2:{ unfold ingest_view, bind, deref in H. rewrite Hv in H. discriminate. }
  exists v. split; [reflexivity|]. unfold passes_window.
  destruct (tend_s_ s <=? GetTimestamp v)%float eqn:H1.
  { left. rewrite orb_true_r. split; [reflexivity|].
    rewrite (ingest_view_skips D T id v s Hv) in H by auto.
    injection H as <-. reflexivity. }
  destruct (GetTimestamp v <? t0_s_ s)%float eqn:H2.
  { left. split; [reflexivity|].
    rewrite (ingest_view_skips D T id v s Hv) in H by auto.
    injection H as <-. reflexivity. }
  right. split; [reflexivity|].
  destruct (Double.to_int64 (GetTimestamp v * 1e9)) as [fid|] eqn:Hf.
  2:{ unfold ingest_view, bind, deref, gets, to_int64 in H. rewrite Hv in H.
      simpl in H. rewrite H1, H2 in H. simpl in H. rewrite Hf in H. discriminate. }
  destruct (all_some (GetFeature v) (TrackIds v)) as [cs|] eqn:Hc.
  2:{ unfold ingest_view in H.
      unfold bind at 1 in H. unfold deref in H. rewrite Hv in H. unfold ret in H.
      rewrite !bind_gets in H. rewrite H1, H2 in H. simpl in H.
      unfold bind at 1 in H. unfold to_int64 in H. rewrite Hf in H. unfold ret in H.
      unfold bind at 1 in H. rewrite collect_spec, Hc in H. discriminate. }
  rewrite (ingest_view_accepts D T id v s fid cs Hv H1 H2 Hf Hc) in H.
  injection H as <-. exists fid, cs. auto.
Qed.

(** After a returning loop over the views, every view that passes the window
    test is found under its nanosecond key. *)
Lemma ingest_loop_stores D T l s s' :
  for_each l (ingest_view D T) s = Returns tt s' ->
  forall id, In id l ->
  forall v, GetView D id = Some v ->
    passes_window (t0_s_ s') (tend_s_ s') (GetTimestamp v) = true ->
    exists fid cd,
      Double.to_int64 (GetTimestamp v * 1e9) = Some fid
      /\ map_find TimeCamId_less (view_key fid) (calib_corners_ s') = Some cd.
Proof.
  apply (for_each_establishes
           (fun id st => forall v, GetView D id = Some v ->
              passes_window (t0_s_ st) (tend_s_ st) (GetTimestamp v) = true ->
              exists fid cd,
                Double.to_int64 (GetTimestamp v * 1e9) = Some fid
                /\ map_find TimeCamId_less (view_key fid) (calib_corners_ st) = Some cd)).
  - intros id st st1 H v Hv Hp.
    destruct (ingest_view_returns_cases _ _ _ _ _ H)
      as (v0 & Hv0 & [[Hf ->] | (_ & fid & cs & Hfid & _ & ->)]);
      rewrite Hv in Hv0; injection Hv0 as <-.
    + congruence.
    + exists fid, (view_corner_data v cs). split; [exact Hfid|]. simpl.
      apply map_find_assign_same, TimeCamId_less_irrefl.
  - intros id y st st1 HP H v Hv Hp.
    destruct (ingest_view_returns_cases _ _ _ _ _ H)
      as (v0 & Hv0 & [[Hf ->] | (_ & fid0 & cs0 & _ & _ & ->)]).
    + apply (HP v Hv Hp).
    + simpl in Hp. destruct (HP v Hv Hp) as (fid & cd & Hfid & Hfind).
      destruct (map_find_assign_keeps TimeCamId_less (view_key fid) (view_key fid0)
                  (view_corner_data v0 cs0) _ _ Hfind) as (cd' & Hfind').
      exists fid, cd'. split; [exact Hfid | exact Hfind'].
Qed.

(** A returning call of a loop body over the inertial samples: the sample
    fails the window test and nothing changes, or it passes and is stored. *)
Lemma add_accl_sample_returns_cases tel off ab i s s1 :
  add_accl_sample tel off ab i s = Returns tt s1 ->
  exists ms,
    nth_error (timestamp_ms (accelerometer tel)) i = Some ms
    /\ ((passes_window (t0_s_ s) (tend_s_ s) (ms * 1e-3 + off) = false /\ s1 = s)
        \/ (passes_window (t0_s_ s) (tend_s_ s) (ms * 1e-3 + off) = true
            /\ exists meas t_ns,
                 nth_error (measurement (accelerometer tel)) i = Some meas
                 /\ Double.to_int64 ((ms * 1e-3 + off) * 1e9) = Some t_ns
                 /\ s1 = set_accl_measurements
                           (map_assign PrimFloat.ltb (ms * 1e-3 + off)%float
                                       (vec_add meas ab) (accl_measurements s))
                           (set_trajectory_
                              (addResidual
                                 (AccelResidual (vec_add meas ab) t_ns
                                    (1 / var_r3 (spline_weight_data_ s))%float
                                    (reestimate_biases_ s))
                                 (trajectory_ s)) s))).
Proof.
  intros H.
  destruct (nth_error (timestamp_ms (accelerometer tel)) i) as [ms|] eqn:Hi.
  2:{ unfold add_accl_sample, bind, index in H. rewrite Hi in H. discriminate. }
  exists ms. split; [reflexivity|]. unfold passes_window.
  destruct ((ms * 1e-3 + off <? t0_s_ s) || (tend_s_ s <=? ms * 1e-3 + off))%float eqn:Hout;
    simpl.
  - left. split; [reflexivity|]. apply orb_true_iff in Hout.
    rewrite (add_accl_sample_skips tel off ab i ms s Hi Hout) in H.
    injection H as <-. reflexivity.
  - right. split; [reflexivity|]. apply orb_false_iff in Hout. destruct Hout as [H1 H2].
    destruct (nth_error (measurement (accelerometer tel)) i) as [meas|] eqn:Hm.
    2:{ unfold add_accl_sample, bind, index, gets in H. rewrite Hi in H. simpl in H.
        rewrite H1, H2 in H. simpl in H. rewrite Hm in H. discriminate. }
    destruct (Double.to_int64 ((ms * 1e-3 + off) * 1e9)) as [t_ns|] eqn:Ht.
    2:{ unfold add_accl_sample, bind, index, gets, to_int64 in H. rewrite Hi in H.
        simpl in H. rewrite H1, H2 in H. simpl in H. rewrite Hm in H. simpl in H.
        rewrite Ht in H. discriminate. }
    rewrite (add_accl_sample_accepts tel off ab i ms meas t_ns s Hi Hm H1 H2 Ht) in H.
    injection H as <-. exists meas, t_ns. auto.
Qed.

Lemma add_gyro_sample_returns_cases tel off gb i s s1 :
  add_gyro_sample tel off gb i s = Returns tt s1 ->
  exists ms,
    nth_error (timestamp_ms (gyroscope tel)) i = Some ms
    /\ ((passes_window (t0_s_ s) (tend_s_ s) (ms * 1e-3 + off) = false /\ s1 = s)
        \/ (passes_window (t0_s_ s) (tend_s_ s) (ms * 1e-3 + off) = true
            /\ exists meas t_ns,
                 nth_error (measurement (gyroscope tel)) i = Some meas
                 /\ Double.to_int64 ((ms * 1e-3 + off) * 1e9) = Some t_ns
                 /\ s1 = set_gyro_measurements
                           (map_assign PrimFloat.ltb (ms * 1e-3 + off)%float
                                       (vec_add meas gb) (gyro_measurements s))
                           (set_trajectory_
                              (addResidual
                                 (GyroResidual (vec_add meas gb) t_ns
                                    (1 / var_so3 (spline_weight_data_ s))%float
                                    (reestimate_biases_ s))
                                 (trajectory_ s)) s))).
Proof.
  intros H.
  destruct (nth_error (timestamp_ms (gyroscope tel)) i) as [ms|] eqn:Hi.
  2:{ unfold add_gyro_sample, bind, index in H. rewrite Hi in H. discriminate. }
  exists ms. split; [reflexivity|]. unfold passes_window.
  destruct ((ms * 1e-3 + off <? t0_s_ s) || (tend_s_ s <=? ms * 1e-3 + off))%float eqn:Hout;
    simpl.
  - left. split; [reflexivity|]. apply orb_true_iff in Hout.
    rewrite (add_gyro_sample_skips tel off gb i ms s Hi Hout) in H.
    injection H as <-. reflexivity.
  - right. split; [reflexivity|]. apply orb_false_iff in Hout. destruct Hout as [H1 H2].
    destruct (nth_error (measurement (gyroscope tel)) i) as [meas|] eqn:Hm.
    2:{ unfold add_gyro_sample, bind, index, gets in H. rewrite Hi in H. simpl in H.
        rewrite H1, H2 in H. simpl in H. rewrite Hm in H. discriminate. }
    destruct (Double.to_int64 ((ms * 1e-3 + off) * 1e9)) as [t_ns|] eqn:Ht.
    2:{ unfold add_gyro_sample, bind, index, gets, to_int64 in H. rewrite Hi in H.
        simpl in H. rewrite H1, H2 in H. simpl in H. rewrite Hm in H. simpl in H.
        rewrite Ht in H. discriminate. }
    rewrite (add_gyro_sample_accepts tel off gb i ms meas t_ns s Hi Hm H1 H2 Ht) in H.
    injection H as <-. exists meas, t_ns. auto.
Qed.

(** After a returning loop over the samples, every sample that passes the
    window test is found under its corrected timestamp. *)
Lemma accl_loop_stores tel off ab l s s' :
  for_each l (add_accl_sample tel off ab) s = Returns tt s' ->
  forall i, In i l ->
  forall ms, nth_error (timestamp_ms (accelerometer tel)) i = Some ms ->
    passes_window (t0_s_ s') (tend_s_ s') (ms * 1e-3 + off) = true ->
    exists x, map_find PrimFloat.ltb (ms * 1e-3 + off)%float (accl_measurements s') = Some x.
Proof.
  apply (for_each_establishes
           (fun i st => forall ms,
              nth_error (timestamp_ms (accelerometer tel)) i = Some ms ->
              passes_window (t0_s_ st) (tend_s_ st) (ms * 1e-3 + off) = true ->
              exists x, map_find PrimFloat.ltb (ms * 1e-3 + off)%float
                                 (accl_measurements st) = Some x)).
  - intros i st st1 H ms Hi Hp.
    destruct (add_accl_sample_returns_cases _ _ _ _ _ _ H)
      as (ms0 & Hi0 & [[Hf ->] | (_ & meas & t_ns & _ & _ & ->)]);
      rewrite Hi in Hi0; injection Hi0 as <-.
    + congruence.
    + exists (vec_add meas ab). simpl. apply map_find_assign_same, ltb_irrefl.
  - intros i j st st1 HP H ms Hi Hp.
    destruct (add_accl_sample_returns_cases _ _ _ _ _ _ H)
      as (ms0 & _ & [[Hf ->] | (_ & meas & t_ns & _ & _ & ->)]).
    + apply (HP ms Hi Hp).
    + simpl in Hp. destruct (HP ms Hi Hp) as (x & Hx). simpl.
      apply (map_find_assign_keeps PrimFloat.ltb _ _ _ _ _ Hx).
Qed.

Lemma gyro_loop_stores tel off gb l s s' :
  for_each l (add_gyro_sample tel off gb) s = Returns tt s' ->
  forall i, In i l ->
  forall ms, nth_error (timestamp_ms (gyroscope tel)) i = Some ms ->
    passes_window (t0_s_ s') (tend_s_ s') (ms * 1e-3 + off) = true ->
    exists x, map_find PrimFloat.ltb (ms * 1e-3 + off)%float (gyro_measurements s') = Some x.
Proof.
  apply (for_each_establishes
           (fun i st => forall ms,
              nth_error (timestamp_ms (gyroscope tel)) i = Some ms ->
              passes_window (t0_s_ st) (tend_s_ st) (ms * 1e-3 + off) = true ->
              exists x, map_find PrimFloat.ltb (ms * 1e-3 + off)%float
                                 (gyro_measurements st) = Some x)).
  - intros i st st1 H ms Hi Hp.
    destruct (add_gyro_sample_returns_cases _ _ _ _ _ _ H)
      as (ms0 & Hi0 & [[Hf ->] | (_ & meas & t_ns & _ & _ & ->)]);
      rewrite Hi in Hi0; injection Hi0 as <-.
    + congruence.
    + exists (vec_add meas gb). simpl. apply map_find_assign_same, ltb_irrefl.
  - intros i j st st1 HP H ms Hi Hp.
    destruct (add_gyro_sample_returns_cases _ _ _ _ _ _ H)
      as (ms0 & _ & [[Hf ->] | (_ & meas & t_ns & _ & _ & ->)]).
    + apply (HP ms Hi Hp).
    + simpl in Hp. destruct (HP ms Hi Hp) as (x & Hx). simpl.
      apply (map_find_assign_keeps PrimFloat.ltb _ _ _ _ _ Hx).
Qed.

End WindowMore.

(** ** The samples that fail the window test have no effect *)

Section SkippedSamples.
Context {G : Geometry}.

Lemma bind_cong {A B : Type} (m m' : M A) (k k' : A -> M B) s :
  m s = m' s ->
  (forall a s1, m' s = Returns a s1 -> k a s1 = k' a s1) ->
  bind m k s = bind m' k' s.
Proof.
  intros E H. unfold bind. rewrite E.
  destruct (m' s) as [a s1|s1|u s1]; [apply H|..]; reflexivity.
Qed.

Lemma combine_fst_snd {A B : Type} (l : list (A * B)) :
  combine (map fst l) (map snd l) = l.
Proof.
  induction l as [|[a b] l IH]; simpl; [reflexivity|]. rewrite IH. reflexivity.
Qed.

(** The loop bodies read the telemetry at their index only. *)
Lemma add_accl_sample_ext tel tel' off ab i j s :
  nth_error (timestamp_ms (accelerometer tel)) i
  = nth_error (timestamp_ms (accelerometer tel')) j ->
  nth_error (measurement (accelerometer tel)) i
  = nth_error (measurement (accelerometer tel')) j ->
  add_accl_sample tel off ab i s = add_accl_sample tel' off ab j s.
Proof.
  intros E1 E2. unfold add_accl_sample, index. rewrite E1, E2. reflexivity.
Qed.

Lemma add_gyro_sample_ext tel tel' off gb i j s :
  nth_error (timestamp_ms (gyroscope tel)) i
  = nth_error (timestamp_ms (gyroscope tel')) j ->
  nth_error (measurement (gyroscope tel)) i
  = nth_error (measurement (gyroscope tel')) j ->
  add_gyro_sample tel off gb i s = add_gyro_sample tel' off gb j s.
Proof.
  intros E1 E2. unfold add_gyro_sample, index. rewrite E1, E2. reflexivity.
Qed.

(** The loop over the indices is the loop over the samples. *)
Lemma accl_loop_values tel off ab n ms meas s :
  (length meas <= length ms)%nat ->
  (forall j, (j < length meas)%nat ->
     nth_error (timestamp_ms (accelerometer tel)) (n + j) = nth_error ms j
     /\ nth_error (measurement (accelerometer tel)) (n + j) = nth_error meas j) ->
  for_each (seq n (length meas)) (add_accl_sample tel off ab) s
  = for_each (combine ms meas) (fun p => add_accl_sample (one_sample p) off ab 0) s.
Proof.
  revert n ms s. induction meas as [|m meas IH]; intros n ms s Hlen Hnth.
  - simpl. destruct ms; reflexivity.
  - destruct ms as [|x ms]; [simpl in Hlen; lia|]. simpl.
    destruct (Hnth 0%nat) as [E1 E2]; [simpl; lia|].
    rewrite Nat.add_0_r in E1, E2.
    apply bind_cong.
    + apply add_accl_sample_ext; assumption.
    + intros [] s1 _. apply IH; [simpl in Hlen; lia|].
      intros j Hj. destruct (Hnth (S j)) as [F1 F2]; [simpl; lia|].
      rewrite Nat.add_succ_r in F1, F2. split; assumption.
Qed.

Lemma gyro_loop_values tel off gb n ms meas s :
  (length meas <= length ms)%nat ->
  (forall j, (j < length meas)%nat ->
     nth_error (timestamp_ms (gyroscope tel)) (n + j) = nth_error ms j
     /\ nth_error (measurement (gyroscope tel)) (n + j) = nth_error meas j) ->
  for_each (seq n (length meas)) (add_gyro_sample tel off gb) s
  = for_each (combine ms meas) (fun p => add_gyro_sample (one_sample p) off gb 0) s.
Proof.
  revert n ms s. induction meas as [|m meas IH]; intros n ms s Hlen Hnth.
  - simpl. destruct ms; reflexivity.
  - destruct ms as [|x ms]; [simpl in Hlen; lia|]. simpl.
    destruct (Hnth 0%nat) as [E1 E2]; [simpl; lia|].
    rewrite Nat.add_0_r in E1, E2.
    apply bind_cong.
    + apply add_gyro_sample_ext; assumption.
    + intros [] s1 _. apply IH; [simpl in Hlen; lia|].
      intros j Hj. destruct (Hnth (S j)) as [F1 F2]; [simpl; lia|].
      rewrite Nat.add_succ_r in F1, F2. split; assumption.
Qed.

Lemma accl_loop_combine tel off ab s :
  stamped (accelerometer tel) ->
  for_each (indices (measurement (accelerometer tel))) (add_accl_sample tel off ab) s
  = for_each (combine (timestamp_ms (accelerometer tel)) (measurement (accelerometer tel)))
             (fun p => add_accl_sample (one_sample p) off ab 0) s.
Proof.
  intros H. apply accl_loop_values; [exact H|]. intros j _. split; reflexivity.
Qed.

Lemma gyro_loop_combine tel off gb s :
  stamped (gyroscope tel) ->
  for_each (indices (measurement (gyroscope tel))) (add_gyro_sample tel off gb) s
  = for_each (combine (timestamp_ms (gyroscope tel)) (measurement (gyroscope tel)))
             (fun p => add_gyro_sample (one_sample p) off gb 0) s.
Proof.
  intros H. apply gyro_loop_values; [exact H|]. intros j _. split; reflexivity.
Qed.

(** The samples that fail the window test can be left out of the loop. *)
Lemma accl_values_skip off ab t0 tend l s :
  t0_s_ s = t0 -> tend_s_ s = tend ->
  for_each (filter (fun p => passes_window t0 tend (fst p * 1e-3 + off)) l)
           (fun p => add_accl_sample (one_sample p) off ab 0) s
  = for_each l (fun p => add_accl_sample (one_sample p) off ab 0) s.
Proof.
  revert s. induction l as [|p l IH]; intros s H0 H1; [reflexivity|]. simpl.
  destruct (passes_window t0 tend (fst p * 1e-3 + off)) eqn:Hp.
  - simpl. apply bind_cong; [reflexivity|]. intros [] s1 E.
    carry (fun s => (t0_s_ s, tend_s_ s)) E. injection Carry as C0 C1.
    apply IH; congruence.
  - rewrite (bind_returns _ _ s tt s); [apply IH; assumption|].
    apply (add_accl_sample_skips (one_sample p) off ab 0 (fst p) s); [reflexivity|].
    unfold passes_window in Hp. apply negb_false_iff, orb_true_iff in Hp.
    rewrite H0, H1. exact Hp.
Qed.

Lemma gyro_values_skip off gb t0 tend l s :
  t0_s_ s = t0 -> tend_s_ s = tend ->
  for_each (filter (fun p => passes_window t0 tend (fst p * 1e-3 + off)) l)
           (fun p => add_gyro_sample (one_sample p) off gb 0) s
  = for_each l (fun p => add_gyro_sample (one_sample p) off gb 0) s.
Proof.
  revert s. induction l as [|p l IH]; intros s H0 H1; [reflexivity|]. simpl.
  destruct (passes_window t0 tend (fst p * 1e-3 + off)) eqn:Hp.
  - simpl. apply bind_cong; [reflexivity|]. intros [] s1 E.
    carry (fun s => (t0_s_ s, tend_s_ s)) E. injection Carry as C0 C1.
    apply IH; congruence.
  - rewrite (bind_returns _ _ s tt s); [apply IH; assumption|].
    apply (add_gyro_sample_skips (one_sample p) off gb 0 (fst p) s); [reflexivity|].
    unfold passes_window in Hp. apply negb_false_iff, orb_true_iff in Hp.
    rewrite H0, H1. exact Hp.
Qed.

Lemma windowed_readings_stamped t0 tend off r :
  stamped (windowed_readings t0 tend off r).
Proof. unfold stamped, windowed_readings. simpl. rewrite !length_map. lia. Qed.

Lemma accl_loop_windowed tel off ab t0 tend s :
  stamped (accelerometer tel) -> t0_s_ s = t0 -> tend_s_ s = tend ->
  for_each (indices (measurement (accelerometer (windowed_telemetry t0 tend off tel))))
           (add_accl_sample (windowed_telemetry t0 tend off tel) off ab) s
  = for_each (indices (measurement (accelerometer tel))) (add_accl_sample tel off ab) s.
Proof.
  intros Hst H0 H1.
  rewrite (accl_loop_combine (windowed_telemetry t0 tend off tel) off ab s)
    by apply windowed_readings_stamped.
  rewrite (accl_loop_combine tel off ab s Hst).
  unfold windowed_telemetry, windowed_readings. simpl. rewrite combine_fst_snd.
  apply accl_values_skip; assumption.
Qed.

Lemma gyro_loop_windowed tel off gb t0 tend s :
  stamped (gyroscope tel) -> t0_s_ s = t0 -> tend_s_ s = tend ->
  for_each (indices (measurement (gyroscope (windowed_telemetry t0 tend off tel))))
           (add_gyro_sample (windowed_telemetry t0 tend off tel) off gb) s
  = for_each (indices (measurement (gyroscope tel))) (add_gyro_sample tel off gb) s.
Proof.
  intros Hst H0 H1.
  rewrite (gyro_loop_combine (windowed_telemetry t0 tend off tel) off gb s)
    by apply windowed_readings_stamped.
  rewrite (gyro_loop_combine tel off gb s Hst).
  unfold windowed_telemetry, windowed_readings. simpl. rewrite combine_fst_snd.
  apply gyro_values_skip; assumption.
Qed.

(** [InitSpline] on the telemetry without the samples that fail the test of
    the window it derives: the same outcome, with the same members. *)
Lemma InitSpline_without_skipped_samples D T W off gb ab tel s :
  stamped (accelerometer tel) -> stamped (gyroscope tel) ->
  InitSpline D T W off gb ab
    (windowed_telemetry (t0_s_ (state_of (InitSpline D T W off gb ab tel s)))
                        (tend_s_ (state_of (InitSpline D T W off gb ab tel s))) off tel) s
  = InitSpline D T W off gb ab tel s.
Proof.
  intros Ha Hg.
  remember (t0_s_ (state_of (InitSpline D T W off gb ab tel s))) as t0 eqn:E0.
  remember (tend_s_ (state_of (InitSpline D T W off gb ab tel s))) as tend eqn:E1.
  unfold InitSpline in *. rewrite !bind_modify in *.
  apply bind_cong; [reflexivity|]. intros [] s2 H2.
  rewrite (bind_returns _ _ _ _ _ H2) in E0, E1.
  apply bind_cong; [reflexivity|]. intros [] s3 H3.
  rewrite (bind_returns _ _ _ _ _ H3) in E0, E1.
  apply bind_cong; [reflexivity|]. intros [] s4 H4.
  rewrite (bind_returns _ _ _ _ _ H4) in E0, E1.
  apply bind_cong; [reflexivity|]. intros w s5 H5.
  rewrite (bind_returns _ _ _ _ _ H5) in E0, E1.
  apply bind_cong; [reflexivity|]. intros [] s6 H6.
  rewrite (bind_returns _ _ _ _ _ H6) in E0, E1.
  apply bind_cong; [reflexivity|]. intros [] s7 H7.
  rewrite (bind_returns _ _ _ _ _ H7) in E0, E1.
  apply bind_cong; [reflexivity|]. intros [] s8 H8.
  rewrite (bind_returns _ _ _ _ _ H8) in E0, E1.
  match type of E0 with
  | _ = t0_s_ (state_of (?m s8)) =>
      assert (F : unchanged (fun s => (t0_s_ s, tend_s_ s)) m) by frame;
      specialize (F s8)
  end.
  injection F as F0 F1. rewrite F0 in E0. rewrite F1 in E1.
  apply bind_cong.
  - apply accl_loop_windowed; [exact Ha | symmetry; exact E0 | symmetry; exact E1].
  - intros [] s9 H9.
    carry (fun s => (t0_s_ s, tend_s_ s)) H9. injection Carry as C0 C1.
    apply gyro_loop_windowed; [exact Hg | congruence | congruence].
Qed.

End SkippedSamples.

(** ** The window, the line delay and the empty reconstruction *)

Section WindowClaims.
Context {G : Geometry}.

(** C5: for a reconstruction with at least one view (all of whose listed views
    exist and whose timestamps are numbers), the camera timestamps
    [InitSpline] keeps are those it held before and those of the views, sorted
    ascending; [t0_s_] and [tend_s_] are read from this sorted vector at the
    positions [std::minmax_element] returns, and [t0_s_] is a minimum and
    [tend_s_] a maximum of the timestamps.  This holds for the members as
    [InitSpline] leaves them, whatever happens after the window is derived. *)
Theorem InitSpline_window_min_max D T W off gb ab tel s :
  ViewIds D <> [] -> views_exist D ->
  no_nan (cam_timestamps_ s ++ view_timestamps D) ->
  let s' := state_of (InitSpline D T W off gb ab tel s) in
  Permutation (cam_timestamps_ s') (cam_timestamps_ s ++ view_timestamps D)
  /\ ascending (cam_timestamps_ s')
  /\ picked_by_minmax (t0_s_ s') (tend_s_ s') (cam_timestamps_ s')
  /\ is_minimum (t0_s_ s') (cam_timestamps_ s')
  /\ is_maximum (tend_s_ s') (cam_timestamps_ s').
Proof.
  intros Hne Hex Hn s'.
  destruct (InitSpline_window D T W off gb ab tel s Hne Hex Hn)
    as (E & Hpick & Hmin & Hmax).
  fold s' in E, Hpick, Hmin, Hmax.
  split; [rewrite E; apply std_sort_perm|].
  split; [rewrite E; apply std_sort_ascending; assumption|].
  auto.
Qed.

(** C8: with line-delay calibration disabled [InitSpline] sets the line delay
    to exactly 0 in the calibrator and in the trajectory, whatever the frame
    rate and the image height; enabled, it sets it to
    (1 / cam_fps) * (1 / ImageHeight) of the first view's camera. *)
Theorem InitSpline_initial_line_delay D T W off gb ab tel s :
  views_exist D ->
  let s' := state_of (InitSpline D T W off gb ab tel s) in
  (calibrate_cam_line_delay_ s = false ->
   inital_cam_line_delay_s_ s' = 0%float
   /\ rs_line_delay (trajectory_ s') = Some 0%float)
  /\ (forall id v,
        calibrate_cam_line_delay_ s = true ->
        nth_error (ViewIds D) 0 = Some id -> GetView D id = Some v ->
        let d := ((1 / cam_fps W)
                  * (1 / Double.of_int (ImageHeight (GetCamera v))))%float in
        inital_cam_line_delay_s_ s' = d /\ rs_line_delay (trajectory_ s') = Some d).
Proof.
  intros Hex s'.
  set (s1 := set_T_i_c_init_ T (set_spline_weight_data_ W s)).
  pose proof (collect_timestamps_returns D s1 Hex) as H2.
  set (s2 := set_cam_timestamps_ _ s1) in H2.
  assert (Run : forall d,
    init_line_delay D W s2 =
    Returns tt (set_trajectory_ (SetInitialRSLineDelay d (trajectory_ s2))
                  (set_inital_cam_line_delay_s_ d s2)) ->
    line_delay_of s' = (d, Some d)).
  { intros d H3. subst s'. unfold InitSpline.
    rewrite !bind_modify. fold s1.
    rewrite (bind_returns _ _ _ _ _ H2).
    rewrite (bind_returns _ _ _ _ _ H3).
    match goal with
    | |- line_delay_of (state_of (?m _)) = _ =>
        assert (F : unchanged line_delay_of m) by frame
    end.
    rewrite F. reflexivity. }
  split.
  - intros Hoff. specialize (Run 0%float (init_line_delay_off D W s2 Hoff)).
    inversion Run. split; reflexivity.
  - intros id v Hon H0 Hv d.
    specialize (Run d (init_line_delay_on D W s2 id v Hon H0 Hv)).
    inversion Run. split; reflexivity.
Qed.

(** C1 (amended): on a reconstruction without views, and a calibrator holding
    no camera timestamps, [InitSpline] makes no check and reports no failure.
    It stores the weighting data and [T_i_c_init] (and, with line-delay
    calibration off, the line delay 0), and then reads element 0 of an empty
    vector: [view_ids[0]] with line-delay calibration on, [cam_timestamps_[0]]
    otherwise. *)
Theorem InitSpline_empty_is_undefined D T W off gb ab tel s :
  ViewIds D = [] -> cam_timestamps_ s = [] ->
  exists s',
    InitSpline D T W off gb ab tel s = Undefined OutOfRange s'
    /\ spline_weight_data_ s' = W
    /\ T_i_c_init_ s' = T
    /\ (calibrate_cam_line_delay_ s = false ->
        inital_cam_line_delay_s_ s' = 0%float
        /\ rs_line_delay (trajectory_ s') = Some 0%float).
Proof.
  intros HD Hs. unfold InitSpline, collect_timestamps, init_line_delay, find_window.
  rewrite HD. rewrite !bind_modify. simpl for_each.
  unfold bind, ret, gets, modify, modify_trajectory, index. simpl.
  rewrite Hs. simpl.
  destruct (calibrate_cam_line_delay_ s) eqn:E; simpl.
  - eexists. split; [reflexivity|]. simpl. repeat split; intros; discriminate.
  - eexists. split; [reflexivity|]. simpl. repeat split; reflexivity.
Qed.

End WindowClaims.


Section WindowClaim.
Context {G : Geometry}.
Import DoubleOrder DoubleMore.

(** C6: the window of [InitSpline] is half open.  On a fresh or cleared
    calibrator and a reconstruction with at least one view (the listed views
    exist and their timestamps are numbers), with [t0] and [tend] the bounds
    [InitSpline] leaves in [t0_s_] and [tend_s_]:

    - [t0] is a smallest and [tend] a largest timestamp of the views;
    - the test the three loops apply is that of the interval from [t0] to
      [tend] without [tend]: a timestamp equal to [t0] passes (when
      [t0 < tend]), one equal to [tend] does not, and a number passes exactly
      when [t0 <= t < tend];
    - whatever the outcome, every stored corner observation is that of a
      listed view whose timestamp passes the test, under the view's own time
      in nanoseconds, and every stored inertial sample has a key that passes
      the test; none of these timestamps equals [tend];
    - when [InitSpline] returns, every listed view and every inertial sample
      that passes the test is stored (found under its key), and the
      residuals of the trajectory are exactly those of the stored corner
      observations in the nanosecond window and of the inertial samples that
      pass the test, each with the sample's own corrected time;
    - the samples that fail the test have no effect at all: without them the
      outcome and the members are the same, so such a sample is neither
      clamped into the window nor a cause of failure. *)
Theorem InitSpline_window_half_open D T W off gb ab tel s :
  cleared s -> ViewIds D <> [] -> views_exist D -> no_nan (view_timestamps D) ->
  let s' := state_of (InitSpline D T W off gb ab tel s) in
  let t0 := t0_s_ s' in
  let tend := tend_s_ s' in
  (is_minimum t0 (view_timestamps D) /\ is_maximum tend (view_timestamps D))
  /\ half_open t0 tend
  /\ (forall k cd, In (k, cd) (calib_corners_ s') ->
        exists v cs,
          ingested_from D tend k v
          /\ passes_window t0 tend (GetTimestamp v) = true
          /\ (GetTimestamp v =? tend)%float = false
          /\ all_some (GetFeature v) (TrackIds v) = Some cs
          /\ cd = view_corner_data v cs)
  /\ (forall t x,
        In (t, x) (accl_measurements s') \/ In (t, x) (gyro_measurements s') ->
        passes_window t0 tend t = true /\ (t =? tend)%float = false)
  /\ (InitSpline D T W off gb ab tel s = Returns tt s' ->
      (forall id v,
         In id (ViewIds D) -> GetView D id = Some v ->
         passes_window t0 tend (GetTimestamp v) = true ->
         exists fid cd,
           Double.to_int64 (GetTimestamp v * 1e9) = Some fid
           /\ map_find TimeCamId_less (view_key fid) (calib_corners_ s') = Some cd)
      /\ (forall i ms,
            (i < length (measurement (accelerometer tel)))%nat ->
            nth_error (timestamp_ms (accelerometer tel)) i = Some ms ->
            passes_window t0 tend (ms * 1e-3 + off) = true ->
            exists x, map_find PrimFloat.ltb (ms * 1e-3 + off)%float
                               (accl_measurements s') = Some x)
      /\ (forall i ms,
            (i < length (measurement (gyroscope tel)))%nat ->
            nth_error (timestamp_ms (gyroscope tel)) i = Some ms ->
            passes_window t0 tend (ms * 1e-3 + off) = true ->
            exists x, map_find PrimFloat.ltb (ms * 1e-3 + off)%float
                               (gyro_measurements s') = Some x)
      /\ exists start_ns end_ns Rc Ra Rg,
           Double.to_int64 (t0 * 1e9) = Some start_ns
           /\ Double.to_int64 (tend * 1e9) = Some end_ns
           /\ residuals (trajectory_ s') = Rc ++ Ra ++ Rg
           /\ Forall2 (corner_residual D)
                      (filter (corner_in_window start_ns end_ns) (calib_corners_ s')) Rc
           /\ Forall2 (sample_residual AccelResidual (1 / var_r3 W) (reestimate_biases_ s)
                         (accelerometer tel) off ab)
                      (filter (sample_in_window t0 tend (accelerometer tel) off)
                              (indices (measurement (accelerometer tel)))) Ra
           /\ Forall2 (sample_residual GyroResidual (1 / var_so3 W) (reestimate_biases_ s)
                         (gyroscope tel) off gb)
                      (filter (sample_in_window t0 tend (gyroscope tel) off)
                              (indices (measurement (gyroscope tel)))) Rg)
  /\ (stamped (accelerometer tel) -> stamped (gyroscope tel) ->
      InitSpline D T W off gb ab (windowed_telemetry t0 tend off tel) s
      = InitSpline D T W off gb ab tel s).
Proof.
  intros (Hts & Hcc & Hcp & Hsp & Ham & Hgm & Htr) Hne Hex Hn s' t0 tend.
  assert (Hr : residuals (trajectory_ s) = []) by (rewrite Htr; reflexivity).
  assert (Hnn : no_nan (cam_timestamps_ s ++ view_timestamps D))
    by (rewrite Hts; exact Hn).
  (* the bounds *)
  destruct (InitSpline_window D T W off gb ab tel s Hne Hex Hnn)
    as (Ets & _ & Hmin & Hmax).
  fold s' in Ets, Hmin, Hmax. rewrite Ets, Hts in Hmin, Hmax. simpl in Hmin, Hmax.
  apply (is_minimum_perm _ _ _ (std_sort_perm _)) in Hmin.
  apply (is_maximum_perm _ _ _ (std_sort_perm _)) in Hmax.
  fold t0 in Hmin. fold tend in Hmax.
  pose proof (is_minimum_not_nan _ _ Hmin) as N0.
  pose proof (is_maximum_not_nan _ _ Hmax) as N1.
  split; [split; assumption|].
  pose proof (half_open_numbers t0 tend N0 N1) as Half.
  assert (Not_tend : forall t, passes_window t0 tend t = true ->
                               (t =? tend)%float = false).
  { intros t Hp. destruct (t =? tend)%float eqn:E; [|reflexivity].
    destruct Half as (_ & Hend & _). rewrite (Hend t E) in Hp. discriminate. }
  split; [exact Half|].
  (* what is stored *)
  assert (Stored : stored_before D T tend s').
  { destruct (InitSpline_reaches_window D T W off gb ab tel s Hne Hex Hnn)
      as (d & a & b & E & _ & _ & Hb).
    apply (is_maximum_perm _ _ _ (std_sort_perm _)) in Hb.
    pose proof (is_maximum_not_nan _ _ Hb) as Hnb.
    set (s4 := at_window T W _ d a b s) in E.
    assert (I4 : window_invariant D T b s4).
    { split; [reflexivity|]. unfold stored_before, s4. simpl.
      rewrite Hcc, Hcp, Hsp, Hr. repeat split; intros; contradiction. }
    pose proof (InitSpline_from_window_invariant D T b off gb ab tel Hex Hn Hnb s4 I4)
      as [Eb St].
    rewrite <- E in Eb, St. fold s' in Eb, St. fold tend in Eb. rewrite Eb. exact St. }
  split.
  { intros k cd Hin. destruct Stored as (Sc & _).
    destruct (Sc k cd Hin) as (v & cs & From & Hcs & ->).
    exists v, cs. split; [exact From|].
    assert (Hp : passes_window t0 tend (GetTimestamp v) = true).
    { destruct From as ((id & Hid & Hv) & Hlt & _).
      apply passes_window_between; [|exact Hlt].
      destruct Hmin as [_ Hall]. rewrite Forall_forall in Hall. apply Hall.
      unfold view_timestamps. apply in_flat_map. exists id. split; [exact Hid|].
      rewrite Hv. left. reflexivity. }
    split; [exact Hp|]. split; [apply Not_tend; exact Hp|].
    split; [exact Hcs | reflexivity]. }
  split.
  { pose proof (InitSpline_inertial_in_window D T W off gb ab tel s (conj Ham Hgm)) as Hiw.
    intros t x Hin. destruct (Hiw t x Hin) as [H1 H2].
    assert (Hp : passes_window t0 tend t = true)
      by (apply passes_window_between; assumption).
    split; [exact Hp | apply Not_tend; exact Hp]. }
  split.
  { (* a returning run *)
    intros Ho.
    destruct (InitSpline_returns_inv _ _ _ _ _ _ _ _ _ Ho)
      as (s4 & w & s5 & s6 & s7 & s8 & s9 & H4 & H5 & H6 & H7 & H8 & H9 & H10).
    destruct (InitSpline_returns_frames _ _ _ _ _ _ _ _ _ _ _ _ _ _ _ _
                H4 H5 H6 H7 H8 H9 H10) as (R7 & C7 & X8 & X9 & E1 & E2).
    assert (V6 : (t0_s_ s', tend_s_ s', calib_corners_ s')
                 = (t0_s_ s6, tend_s_ s6, calib_corners_ s6)).
    { carry (fun s => (t0_s_ s, tend_s_ s, calib_corners_ s)) H10.
      carry (fun s => (t0_s_ s, tend_s_ s, calib_corners_ s)) H9.
      carry (fun s => (t0_s_ s, tend_s_ s, calib_corners_ s)) H8.
      carry (fun s => (t0_s_ s, tend_s_ s, calib_corners_ s)) H7.
      congruence. }
    assert (A9 : (t0_s_ s', tend_s_ s', accl_measurements s')
                 = (t0_s_ s9, tend_s_ s9, accl_measurements s9)).
    { carry (fun s => (t0_s_ s, tend_s_ s, accl_measurements s)) H10. exact Carry. }
    injection V6 as V0 V1 V2. injection A9 as A0 A1 A2.
    split.
    { intros id v Hid Hv Hp. unfold t0, tend in Hp. rewrite V0, V1 in Hp. rewrite V2.
      apply (ingest_loop_stores D T _ _ _ H6 id Hid v Hv Hp). }
    split.
    { intros i ms Hi Hms Hp. unfold t0, tend in Hp. rewrite A0, A1 in Hp. rewrite A2.
      apply (accl_loop_stores tel off ab _ _ _ H9 i); [|exact Hms | exact Hp].
      apply in_seq. lia. }
    split.
    { intros i ms Hi Hms Hp.
      apply (gyro_loop_stores tel off gb _ _ _ H10 i); [|exact Hms | exact Hp].
      apply in_seq. lia. }
    destruct (add_corners_returns_inv _ _ _ _ H8) as (Rc & Hc & Fc).
    destruct (accl_loop_returns_inv _ _ _ _ _ _ H9) as (Ra & Ha & Fa).
    destruct (gyro_loop_returns_inv _ _ _ _ _ _ H10) as (Rg & Hg & Fg).
    unfold sample_context in X8, X9.
    injection X8 as B1 B2 B3 B4. injection X9 as D1 D2 D3 D4.
    rewrite B1, B2, B3, B4 in Fa. rewrite D1, D2, D3, D4 in Fg. rewrite C7 in Fc.
    exists (start_t_ns w), (end_t_ns w), Rc, Ra, Rg.
    split; [exact E1|]. split; [exact E2|].
    split; [|split; [exact Fc | split; [exact Fa | exact Fg]]].
    rewrite Hg, Ha, Hc, R7, Hr, <- !app_assoc. reflexivity. }
  (* the samples that fail the test *)
  intros Ha Hg. apply InitSpline_without_skipped_samples; assumption.
Qed.

End WindowClaim.

(** * Concrete runs *)

(** The conversions, the sort and the map on small inputs. *)
Example to_int64_truncates :
  Double.to_int64 10.5 = Some 10
  /\ Double.to_int64 (-3.7) = Some (-3)
  /\ Double.to_int64 (2.5 * 1e9) = Some 2500000000
  /\ Double.to_int64 1e19 = None
  /\ Double.to_int64 nan = None.
Proof. evaluate. Qed.

Example of_int_examples :
  Double.of_int 10 = 10%float /\ Double.of_int (-3) = (-3)%float
  /\ Double.of_int 0 = 0%float.
Proof. evaluate. Qed.

Example std_sort_example :
  std_sort [2.5; 0; 1]%float = [0; 1; 2.5]%float
  /\ minmax_element [0; 1; 2.5]%float = (0%nat, 2%nat)
  /\ minmax_element [1; 0; 2.5; 0; 2.5]%float = (1%nat, 4%nat).
Proof. evaluate. Qed.

Example map_assign_example :
  map_assign Z.ltb 2 true (map_assign Z.ltb 1 true (map_assign Z.ltb 2 false []))
  = [(1, true); (2, true)]
  /\ map_find Z.ltb 2 [(1, true); (2, false)] = Some false
  /\ map_find Z.ltb 3 [(1, true); (2, false)] = None.
Proof. evaluate. Qed.

Lemma example_views_exist ts : views_exist (example_reconstruction ts).
Proof.
  intros id Hin. simpl in *. apply in_map_iff in Hin.
  destruct Hin as (n & <- & Hn). apply in_seq in Hn.
  rewrite Nnat.Nat2N.id. destruct (nth_error ts n) eqn:E; [discriminate|].
  apply nth_error_None in E. lia.
Qed.

(** The empty reconstruction on a new calibrator: the call is not refused.
    Its outcome is undefined behaviour, reached after the weighting data has
    been stored. *)
Lemma InitSpline_empty_not_refused :
  let s := new_calibrator false false in
  let o := InitSpline (example_reconstruction []) rigid_identity example_weights
             0%float zero3 zero3 (example_telemetry [] []) s in
  (exists s', o = Undefined OutOfRange s')
  /\ (dt_so3 (spline_weight_data_ s) =? 1)%float = false
  /\ (dt_so3 (spline_weight_data_ (state_of o)) =? 1)%float = true.
Proof.
  split; [eexists; vm_compute; reflexivity|].
  split; vm_compute; reflexivity.
Qed.

Lemma InitSpline_empty_is_undefined_witness :
  exists s',
    InitSpline (example_reconstruction []) rigid_identity example_weights
      0%float zero3 zero3 (example_telemetry [] []) (new_calibrator false false)
    = Undefined OutOfRange s'
    /\ spline_weight_data_ s' = example_weights
    /\ T_i_c_init_ s' = rigid_identity
    /\ (calibrate_cam_line_delay_ (new_calibrator false false) = false ->
        inital_cam_line_delay_s_ s' = 0%float
        /\ rs_line_delay (trajectory_ s') = Some 0%float).
Proof.
  apply (InitSpline_empty_is_undefined (example_reconstruction []) rigid_identity
           example_weights 0%float zero3 zero3 (example_telemetry [] [])
           (new_calibrator false false)); reflexivity.
Defined.

Lemma InitSpline_window_min_max_witness :
  let s' := state_of (InitSpline (example_reconstruction [0; 2.5; 1]%float)
                        rigid_identity example_weights 0%float zero3 zero3
                        (example_telemetry [] []) (new_calibrator false false)) in
  Permutation (cam_timestamps_ s')
    (cam_timestamps_ (new_calibrator false false)
     ++ view_timestamps (example_reconstruction [0; 2.5; 1]%float))
  /\ ascending (cam_timestamps_ s')
  /\ picked_by_minmax (t0_s_ s') (tend_s_ s') (cam_timestamps_ s')
  /\ is_minimum (t0_s_ s') (cam_timestamps_ s')
  /\ is_maximum (tend_s_ s') (cam_timestamps_ s').
Proof.
  apply (InitSpline_window_min_max (example_reconstruction [0; 2.5; 1]%float)).
  - simpl. discriminate.
  - apply example_views_exist.
  - simpl. repeat constructor.
Defined.

Lemma InitSpline_initial_line_delay_witness :
  let D := example_reconstruction [0; 2.5; 1]%float in
  let s := new_calibrator false false in
  let s' := state_of (InitSpline D rigid_identity example_weights 0%float zero3 zero3
                        (example_telemetry [] []) s) in
  (calibrate_cam_line_delay_ s = false ->
   inital_cam_line_delay_s_ s' = 0%float
   /\ rs_line_delay (trajectory_ s') = Some 0%float)
  /\ (forall id v,
        calibrate_cam_line_delay_ s = true ->
        nth_error (ViewIds D) 0 = Some id -> GetView D id = Some v ->
        let d := ((1 / cam_fps example_weights)
                  * (1 / Double.of_int (ImageHeight (GetCamera v))))%float in
        inital_cam_line_delay_s_ s' = d /\ rs_line_delay (trajectory_ s') = Some d).
Proof.
  intros D s.
  apply (InitSpline_initial_line_delay D rigid_identity example_weights 0%float
           zero3 zero3 (example_telemetry [] []) s).
  apply example_views_exist.
Defined.

(** The window [0, 2.5) with a rotation knot spacing of 1 s: the code counts
    2 + SPLINE_N knots, the ceiling formula of the spec 3 + SPLINE_N. *)
Lemma InitSpline_knot_count_not_ceiling :
  let o := InitSpline (example_reconstruction [0; 2.5; 1]%float) rigid_identity
             example_weights 0%float zero3 zero3 (example_telemetry [] [])
             (new_calibrator false false) in
  o = Returns tt (state_of o)
  /\ nr_knots_so3_ (state_of o) = 2 + SPLINE_N
  /\ spec_knot_count (t0_s_ (state_of o)) (tend_s_ (state_of o))
       (dt_so3 example_weights) = Some (3 + SPLINE_N)
  /\ spec_knot_count (t0_s_ (state_of o)) (tend_s_ (state_of o))
       (dt_so3 example_weights) <> Some (nr_knots_so3_ (state_of o)).
Proof.
  evaluate. discriminate.
Qed.

Lemma InitSpline_knot_counts_witness :
  let o := InitSpline (example_reconstruction [0; 2.5; 1]%float) rigid_identity
             example_weights 0%float zero3 zero3 (example_telemetry [] [])
             (new_calibrator false false) in
  exists start_ns end_ns so3_ns r3_ns,
    Double.to_int64 (t0_s_ (state_of o) * 1e9) = Some start_ns
    /\ Double.to_int64 (tend_s_ (state_of o) * 1e9) = Some end_ns
    /\ Double.to_int64 (dt_so3 example_weights * 1e9) = Some so3_ns
    /\ Double.to_int64 (dt_r3 example_weights * 1e9) = Some r3_ns
    /\ nr_knots_so3_ (state_of o) = Z.quot (end_ns - start_ns) so3_ns + SPLINE_N
    /\ nr_knots_r3_ (state_of o) = Z.quot (end_ns - start_ns) r3_ns + SPLINE_N
    /\ (forall t, 0 < so3_ns -> start_ns <= t < end_ns ->
                  Z.quot (t - start_ns) so3_ns + SPLINE_N <= nr_knots_so3_ (state_of o))
    /\ (forall t, 0 < r3_ns -> start_ns <= t < end_ns ->
                  Z.quot (t - start_ns) r3_ns + SPLINE_N <= nr_knots_r3_ (state_of o)).
Proof.
  intros o.
  apply (InitSpline_knot_counts (example_reconstruction [0; 2.5; 1]%float)
           rigid_identity example_weights 0%float zero3 zero3
           (example_telemetry [] []) (new_calibrator false false) (state_of o)).
  vm_compute. reflexivity.
Defined.

(** Views at 0, 2.5 and 1 s and samples at 0, 0.5, 2.5 and 3 s: the window is
    [0, 2.5); the view and the samples at 0 are stored, those at 2.5 and
    later are not. *)
Example InitSpline_window_example :
  let s' := state_of (InitSpline (example_reconstruction [0; 2.5; 1]%float)
                        rigid_identity example_weights 0%float zero3 zero3
                        (example_telemetry [0; 500; 2500; 3000]%float
                           [gravity_reading; gravity_reading;
                            gravity_reading; gravity_reading])
                        (new_calibrator false false)) in
  map frame_id (map fst (calib_corners_ s')) = [0; 1000000000]
  /\ map fst (accl_measurements s') = [0; 0.5]%float
  /\ map fst (gyro_measurements s') = [0; 0.5]%float.
Proof. evaluate. Qed.

(** After [InitSpline] on views at 10 and 11 s, and with no accelerometer
    sample at all, [InitializeGravity] returns, gravity is not initialized,
    the trajectory's gravity is set to the untouched [gravity_init_] (zero
    here), and [Optimize] returns its diagnostics. *)
Lemma uninitialized_gravity_reaches_Optimize :
  let o := InitializeGravity (example_telemetry [] []) zero3
             (initialized_at [10; 11]%float) in
  o = Returns tt (state_of o)
  /\ gravity_initialized_ (state_of o) = false
  /\ g (trajectory_ (state_of o)) = Some zero3
  /\ exists errors s'', Optimize 10 (state_of o) = Returns errors s''.
Proof.
  conjuncts; try (vm_compute; reflexivity).
  eexists. eexists. apply Optimize_returns.
Qed.

Lemma InitializeGravity_unmatched_not_surfaced_witness :
  let s := initialized_at [10; 11]%float in
  let s' := state_of (InitializeGravity (example_telemetry [] []) zero3 s) in
  gravity_init_ s' = gravity_init_ s
  /\ g (trajectory_ s') = Some (gravity_init_ s)
  /\ exists errors s'',
       Optimize 10 s' = Returns errors s''
       /\ length errors = 2%nat
       /\ trajectory_ s'' = optimize 10 (trajectory_ s')
       /\ gravity_initialized_ s'' = false.
Proof.
  intros s s'.
  apply (InitializeGravity_unmatched_not_surfaced (example_telemetry [] []) zero3 s s' 10).
  - vm_compute. reflexivity.
  - vm_compute. reflexivity.
Defined.

(** C3: the sample 20 ms after the camera timestamp initializes gravity to
    its reading, unchanged by the identity pose.  The sample 500 ms after it
    is outside the tolerance of 1/30 s, and initializes gravity as well: its
    time in seconds, 10.5, is stored in an [int64_t] and compared as 10.  The
    same happens on the members [InitSpline] leaves for views at 10 and 11 s. *)
Theorem InitializeGravity_whole_seconds :
  let near := state_of (InitializeGravity (example_telemetry [10020]%float [gravity_reading])
                          zero3 one_frame_at_10s) in
  let far := state_of (InitializeGravity (example_telemetry [10500]%float [gravity_reading])
                         zero3 one_frame_at_10s) in
  let far' := state_of (InitializeGravity (example_telemetry [10500]%float [gravity_reading])
                          zero3 (initialized_at [10; 11]%float)) in
  (spec_within_tolerance 10020 10 = true
   /\ gravity_initialized_ near = true /\ gravity_init_ near = gravity_reading)
  /\ (spec_within_tolerance 10500 10 = false
      /\ Double.to_int64 (10500 * 1e-3) = Some 10
      /\ gravity_initialized_ far = true /\ gravity_init_ far = gravity_reading)
  /\ (cam_timestamps_ (initialized_at [10; 11]%float) = [10; 11]%float
      /\ spec_within_tolerance 10500 11 = false
      /\ gravity_initialized_ far' = true /\ gravity_init_ far' = gravity_reading).
Proof. evaluate. Qed.

(** C4: the match is decided on whole seconds.  With views at 10.99 and 12 s
    the sample at 10.98 s is within 1/30 s of the first view and is not
    matched: gravity stays uninitialized.  With views at 10 and 11 s and
    samples at 10.5 and 10.01 s, the first sample within 1/30 s of a view is
    the second one, and gravity is taken from the first. *)
Theorem InitializeGravity_match_is_not_the_nearest :
  let missed := state_of (InitializeGravity (example_telemetry [10980]%float [gravity_reading])
                            zero3 (initialized_at [10.99; 12]%float)) in
  let wrong := state_of (InitializeGravity
                           (example_telemetry [10500; 10010]%float [x_reading; gravity_reading])
                           zero3 (initialized_at [10; 11]%float)) in
  (spec_within_tolerance 10980 10.99 = true
   /\ map fst (calib_init_poses_ (initialized_at [10.99; 12]%float)) = [view_key 10990000000]
   /\ gravity_initialized_ missed = false)
  /\ (spec_within_tolerance 10500 10 = false
      /\ spec_within_tolerance 10500 11 = false
      /\ spec_within_tolerance 10010 10 = true
      /\ gravity_initialized_ wrong = true
      /\ gravity_init_ wrong = x_reading).
Proof. evaluate. Qed.

Lemma InitSpline_never_ingests_last_frame_witness :
  let D := example_reconstruction [0; 2.5; 1]%float in
  let s' := state_of (InitSpline D rigid_identity example_weights 0%float zero3 zero3
                        (example_telemetry [0; 500; 2500; 3000]%float
                           [gravity_reading; gravity_reading;
                            gravity_reading; gravity_reading])
                        (new_calibrator false false)) in
  is_maximum (tend_s_ s')
    (cam_timestamps_ (new_calibrator false false) ++ view_timestamps D)
  /\ (forall id v s1,
        GetView D id = Some v ->
        (GetTimestamp v =? tend_s_ s')%float = true ->
        tend_s_ s1 = tend_s_ s' ->
        ingest_view D rigid_identity id s1 = Returns tt s1)
  /\ stored_before D rigid_identity (tend_s_ s') s'.
Proof.
  intros D.
  apply (InitSpline_never_ingests_last_frame D rigid_identity example_weights
           0%float zero3 zero3).
  - simpl. discriminate.
  - apply example_views_exist.
  - simpl. repeat constructor.
  - reflexivity.
  - reflexivity.
  - reflexivity.
  - reflexivity.
Defined.

(** A used calibrator whose gravity is initialized keeps that status through
    [ClearSpline] and [InitSpline]; a brand-new one is not initialized after
    the same [InitSpline]. *)
Lemma ClearSpline_keeps_gravity_status :
  let run := InitSpline (example_reconstruction [0; 2.5; 1]%float) rigid_identity
               example_weights 0%float zero3 zero3 (example_telemetry [] []) in
  let reused := (ClearSpline ;; run) used_calibrator in
  let fresh := run (new_calibrator false false) in
  reused = Returns tt (state_of reused)
  /\ fresh = Returns tt (state_of fresh)
  /\ gravity_initialized_ (state_of reused) = true
  /\ gravity_initialized_ (state_of fresh) = false.
Proof. evaluate. Qed.

Lemma ClearSpline_InitSpline_as_new_witness :
  let run := InitSpline (example_reconstruction [0; 2.5; 1]%float) rigid_identity
               example_weights 0%float zero3 zero3 (example_telemetry [] []) in
  (forall s1,
     (ClearSpline ;; run) used_calibrator = Returns tt s1 ->
     exists s2,
       run (new_calibrator false false) = Returns tt s2
       /\ same_but_gravity s1 s2
       /\ gravity_of s1 = gravity_of used_calibrator
       /\ gravity_of s2 = gravity_of (new_calibrator false false))
  /\ (forall s2,
        run (new_calibrator false false) = Returns tt s2 ->
        exists s1,
          (ClearSpline ;; run) used_calibrator = Returns tt s1
          /\ same_but_gravity s1 s2
          /\ gravity_of s1 = gravity_of used_calibrator
          /\ gravity_of s2 = gravity_of (new_calibrator false false)).
Proof.
  intros run.
  apply (ClearSpline_InitSpline_as_new (example_reconstruction [0; 2.5; 1]%float)
           rigid_identity example_weights 0%float zero3 zero3 (example_telemetry [] [])
           used_calibrator (new_calibrator false false)).
  - unfold brand_new. simpl. repeat split; reflexivity.
  - vm_compute. reflexivity.
  - vm_compute. reflexivity.
Defined.

(** Views at 0, 2.5 and 1 s and samples at 0, 0.5, 2.5 and 3 s: the window is
    [0, 2.5); the samples at 2.5 and 3 s fail its test. *)
Lemma InitSpline_window_half_open_witness :
  let D := example_reconstruction [0; 2.5; 1]%float in
  let T := rigid_identity in
  let W := example_weights in
  let off := 0%float in
  let gb := zero3 in
  let ab := zero3 in
  let tel := four_samples in
  let s := new_calibrator false false in
  let s' := state_of (InitSpline D T W off gb ab tel s) in
  let t0 := t0_s_ s' in
  let tend := tend_s_ s' in
  (is_minimum t0 (view_timestamps D) /\ is_maximum tend (view_timestamps D))
  /\ half_open t0 tend
  /\ (forall k cd, In (k, cd) (calib_corners_ s') ->
        exists v cs,
          ingested_from D tend k v
          /\ passes_window t0 tend (GetTimestamp v) = true
          /\ (GetTimestamp v =? tend)%float = false
          /\ all_some (GetFeature v) (TrackIds v) = Some cs
          /\ cd = view_corner_data v cs)
  /\ (forall t x,
        In (t, x) (accl_measurements s') \/ In (t, x) (gyro_measurements s') ->
        passes_window t0 tend t = true /\ (t =? tend)%float = false)
  /\ (InitSpline D T W off gb ab tel s = Returns tt s' ->
      (forall id v,
         In id (ViewIds D) -> GetView D id = Some v ->
         passes_window t0 tend (GetTimestamp v) = true ->
         exists fid cd,
           Double.to_int64 (GetTimestamp v * 1e9) = Some fid
           /\ map_find TimeCamId_less (view_key fid) (calib_corners_ s') = Some cd)
      /\ (forall i ms,
            (i < length (measurement (accelerometer tel)))%nat ->
            nth_error (timestamp_ms (accelerometer tel)) i = Some ms ->
            passes_window t0 tend (ms * 1e-3 + off) = true ->
            exists x, map_find PrimFloat.ltb (ms * 1e-3 + off)%float
                               (accl_measurements s') = Some x)
      /\ (forall i ms,
            (i < length (measurement (gyroscope tel)))%nat ->
            nth_error (timestamp_ms (gyroscope tel)) i = Some ms ->
            passes_window t0 tend (ms * 1e-3 + off) = true ->
            exists x, map_find PrimFloat.ltb (ms * 1e-3 + off)%float
                               (gyro_measurements s') = Some x)
      /\ exists start_ns end_ns Rc Ra Rg,
           Double.to_int64 (t0 * 1e9) = Some start_ns
           /\ Double.to_int64 (tend * 1e9) = Some end_ns
           /\ residuals (trajectory_ s') = Rc ++ Ra ++ Rg
           /\ Forall2 (corner_residual D)
                      (filter (corner_in_window start_ns end_ns) (calib_corners_ s')) Rc
           /\ Forall2 (sample_residual AccelResidual (1 / var_r3 W) (reestimate_biases_ s)
                         (accelerometer tel) off ab)
                      (filter (sample_in_window t0 tend (accelerometer tel) off)
                              (indices (measurement (accelerometer tel)))) Ra
           /\ Forall2 (sample_residual GyroResidual (1 / var_so3 W) (reestimate_biases_ s)
                         (gyroscope tel) off gb)
                      (filter (sample_in_window t0 tend (gyroscope tel) off)
                              (indices (measurement (gyroscope tel)))) Rg)
  /\ (stamped (accelerometer tel) -> stamped (gyroscope tel) ->
      InitSpline D T W off gb ab (windowed_telemetry t0 tend off tel) s
      = InitSpline D T W off gb ab tel s).
Proof.
  intros D T W off gb ab tel s.
  apply (InitSpline_window_half_open D T W off gb ab tel s).
  - unfold cleared. simpl. conjuncts; reflexivity.
  - simpl. discriminate.
  - apply example_views_exist.
  - simpl. repeat constructor.
Defined.

(** On these inputs the run returns; the view and the samples at 0 s are
    stored, the samples at 2.5 and 3 s are not, and the telemetry without
    them gives the same members. *)
Example InitSpline_window_half_open_example :
  let run := InitSpline (example_reconstruction [0; 2.5; 1]%float) rigid_identity
               example_weights 0%float zero3 zero3 in
  let o := run four_samples (new_calibrator false false) in
  o = Returns tt (state_of o)
  /\ (t0_s_ (state_of o), tend_s_ (state_of o)) = (0, 2.5)%float
  /\ map (sample_in_window 0 2.5 (accelerometer four_samples) 0) [0; 1; 2; 3]%nat
     = [true; true; false; false]
  /\ map fst (accl_measurements (state_of o)) = [0; 0.5]%float
  /\ timestamp_ms (accelerometer (windowed_telemetry 0 2.5 0 four_samples))
     = [0; 500]%float
  /\ run (windowed_telemetry 0 2.5 0 four_samples) (new_calibrator false false) = o.
Proof. evaluate. Qed.

(** * More concrete runs *)

(** Views at 10 and 11 s, samples at 10.5 s and 10.01 s: the first pair in
    loop order is the view at 10 s with the sample at 10.5 s. *)
Lemma InitializeGravity_first_pair_decides_witness :
  let tel := example_telemetry [10500; 10010]%float [x_reading; gravity_reading] in
  let s := initialized_at [10; 11]%float in
  let s' := state_of (InitializeGravity tel zero3 s) in
  g (trajectory_ s') = Some (gravity_init_ s')
  /\ ((forall j, (j < length (cam_timestamps_ s))%nat -> no_match_at tel s j) ->
      gravity_of s' = (false, gravity_init_ s))
  /\ (forall j cam_t pose i,
        first_match tel s j cam_t pose i ->
        exists meas,
          nth_error (measurement (accelerometer tel)) i = Some meas
          /\ gravity_of s'
             = (true, SO3_apply (SE3_mul (T_a_c pose) (SE3_inverse (T_i_c_init_ s)))
                                (vec_add meas zero3))).
Proof.
  intros tel s s'.
  apply (InitializeGravity_first_pair_decides tel zero3 s s').
  - vm_compute. reflexivity.
  - vm_compute. reflexivity.
Defined.

Example first_match_example :
  first_match (example_telemetry [10500; 10010]%float [x_reading; gravity_reading])
    (initialized_at [10; 11]%float) 0 10%float {| T_a_c := rigid_identity |} 0.
Proof.
  unfold first_match.
  split; [vm_compute; reflexivity|]. split; [vm_compute; reflexivity|].
  split; [simpl; lia|]. split; [vm_compute; reflexivity|].
  split; intros k Hk; lia.
Qed.

Lemma InitializeGravity_initialized_is_kept_witness :
  let tel := example_telemetry [11000]%float [x_reading] in
  gravity_of (state_of (InitializeGravity tel zero3 used_calibrator))
  = gravity_of used_calibrator
  /\ (forall s', InitializeGravity tel zero3 used_calibrator = Returns tt s' ->
                 s' = set_trajectory_ (setG (gravity_init_ used_calibrator)
                                            (trajectory_ used_calibrator))
                        used_calibrator).
Proof.
  intros tel.
  apply (InitializeGravity_initialized_is_kept tel zero3 used_calibrator).
  vm_compute. reflexivity.
Defined.

(** A single view at 10 s: the window is empty, no pose is registered, and
    the sample at 10.02 s initializes nothing. *)
Lemma InitializeGravity_needs_a_registered_pose_witness :
  let tel := example_telemetry [10020]%float [gravity_reading] in
  let s := initialized_at [10]%float in
  gravity_of (state_of (InitializeGravity tel zero3 s)) = gravity_of s
  /\ (forall s', InitializeGravity tel zero3 s = Returns tt s' ->
                 s' = set_trajectory_ (setG (gravity_init_ s) (trajectory_ s)) s).
Proof.
  intros tel s.
  apply (InitializeGravity_needs_a_registered_pose tel zero3 s).
  intros cam_t Hin.
  assert (E : cam_timestamps_ s = [10%float]) by (vm_compute; reflexivity).
  rewrite E in Hin. destruct Hin as [<- | []].
  vm_compute. reflexivity.
Defined.

Lemma InitSpline_needs_a_spacing_of_a_nanosecond_witness :
  exists u s',
    InitSpline (example_reconstruction [0; 2.5; 1]%float) rigid_identity
      tiny_spacing_weights 0%float zero3 zero3 (example_telemetry [] [])
      (new_calibrator false false)
    = Undefined u s'.
Proof.
  apply (InitSpline_needs_a_spacing_of_a_nanosecond
           (example_reconstruction [0; 2.5; 1]%float) rigid_identity
           tiny_spacing_weights 0%float zero3 zero3 (example_telemetry [] [])
           (new_calibrator false false)).
  left. vm_compute. reflexivity.
Defined.

(** The spacing of a tenth of a nanosecond ends in a division by zero. *)
Example InitSpline_tiny_spacing_example :
  exists s',
    InitSpline (example_reconstruction [0; 2.5; 1]%float) rigid_identity
      tiny_spacing_weights 0%float zero3 zero3 (example_telemetry [] [])
      (new_calibrator false false)
    = Undefined DivisionByZero s'.
Proof. eexists. vm_compute. reflexivity. Qed.

Lemma InitSpline_residuals_witness :
  let D := example_reconstruction [0; 2.5; 1]%float in
  let s := new_calibrator false false in
  let s' := state_of (InitSpline D rigid_identity example_weights 0%float zero3 zero3
                        four_samples s) in
  exists start_ns end_ns Rc Ra Rg,
    Double.to_int64 (t0_s_ s' * 1e9) = Some start_ns
    /\ Double.to_int64 (tend_s_ s' * 1e9) = Some end_ns
    /\ residuals (trajectory_ s') = residuals (trajectory_ s) ++ Rc ++ Ra ++ Rg
    /\ Forall2 (corner_residual D)
               (filter (corner_in_window start_ns end_ns) (calib_corners_ s')) Rc
    /\ Forall2 (sample_residual AccelResidual (1 / var_r3 example_weights)
                  (reestimate_biases_ s) (accelerometer four_samples) 0 zero3)
               (filter (sample_in_window (t0_s_ s') (tend_s_ s')
                          (accelerometer four_samples) 0)
                       (indices (measurement (accelerometer four_samples)))) Ra
    /\ Forall2 (sample_residual GyroResidual (1 / var_so3 example_weights)
                  (reestimate_biases_ s) (gyroscope four_samples) 0 zero3)
               (filter (sample_in_window (t0_s_ s') (tend_s_ s')
                          (gyroscope four_samples) 0)
                       (indices (measurement (gyroscope four_samples)))) Rg.
Proof.
  intros D s s'.
  apply (InitSpline_residuals D rigid_identity example_weights 0%float zero3 zero3
           four_samples s s').
  vm_compute. reflexivity.
Defined.

(** Views at 0, 2.5 and 1 s and samples at 0, 0.5, 2.5 and 3 s: two
    reprojection residuals, then two accelerometer and two gyroscope
    residuals. *)
Example InitSpline_residuals_example :
  let s' := state_of (InitSpline (example_reconstruction [0; 2.5; 1]%float)
                        rigid_identity example_weights 0%float zero3 zero3
                        four_samples (new_calibrator false false)) in
  map (fun r => match r with
                | RSCornersResidual _ _ t => (0, t)
                | AccelResidual _ t _ _ => (1, t)
                | GyroResidual _ t _ _ => (2, t)
                end) (residuals (trajectory_ s'))
  = [(0, 0); (0, 1000000000); (1, 0); (1, 500000000); (2, 0); (2, 500000000)].
Proof. evaluate. Qed.

Lemma InitSpline_reads_the_camera_of_view_0_witness :
  let D := example_reconstruction_from_1 [10]%float in
  let s := new_calibrator false false in
  let s' := state_of (InitSpline D rigid_identity example_weights 0%float zero3 zero3
                        (example_telemetry [] []) s) in
  (forall k cd start_ns end_ns,
     In (k, cd) (calib_corners_ s') ->
     Double.to_int64 (t0_s_ s' * 1e9) = Some start_ns ->
     Double.to_int64 (tend_s_ s' * 1e9) = Some end_ns ->
     frame_id k < start_ns \/ end_ns <= frame_id k)
  /\ (forall cd cam t,
        In (RSCornersResidual cd cam t) (residuals (trajectory_ s')) ->
        In (RSCornersResidual cd cam t) (residuals (trajectory_ s))).
Proof.
  intros D s s'.
  apply (InitSpline_reads_the_camera_of_view_0 D rigid_identity example_weights
           0%float zero3 zero3 (example_telemetry [] []) s s').
  - vm_compute. reflexivity.
  - reflexivity.
Defined.

(** Views 1 and 2 at 10 and 11 s: the view at 10 s is stored in the window,
    and its residual needs the camera of the absent view 0. *)
Example InitSpline_without_view_0_example :
  exists s',
    InitSpline (example_reconstruction_from_1 [10; 11]%float) rigid_identity
      example_weights 0%float zero3 zero3 (example_telemetry [] [])
      (new_calibrator false false)
    = Undefined NullPointer s'.
Proof. eexists. vm_compute. reflexivity. Qed.

Lemma InitSpline_stores_samples_of_the_window_witness :
  let s' := state_of (InitSpline (example_reconstruction [0; 2.5; 1]%float)
                        rigid_identity example_weights 0%float zero3 zero3 four_samples
                        (new_calibrator false false)) in
  Forall (fun sample => (t0_s_ s' <=? fst sample)%float = true
                        /\ (fst sample <? tend_s_ s')%float = true)
         (accl_measurements s')
  /\ Forall (fun sample => (t0_s_ s' <=? fst sample)%float = true
                           /\ (fst sample <? tend_s_ s')%float = true)
            (gyro_measurements s').
Proof.
  apply (InitSpline_stores_samples_of_the_window
           (example_reconstruction [0; 2.5; 1]%float) rigid_identity example_weights
           0%float zero3 zero3 four_samples (new_calibrator false false)).
  split; reflexivity.
Defined.

Lemma InitSpline_keeps_the_maps_in_lockstep_witness :
  lockstep rigid_identity
    (state_of (InitSpline (example_reconstruction [0; 2.5; 1]%float) rigid_identity
                 example_weights 0%float zero3 zero3 four_samples
                 (new_calibrator false false))).
Proof.
  apply (InitSpline_keeps_the_maps_in_lockstep
           (example_reconstruction [0; 2.5; 1]%float) rigid_identity example_weights
           0%float zero3 zero3 four_samples (new_calibrator false false)).
  split; [reflexivity | split; [reflexivity | constructor]].
Defined.

Lemma InitSpline_on_a_single_timestamp_witness :
  let s := new_calibrator false false in
  let o := InitSpline (example_reconstruction [10]%float) rigid_identity
             example_weights 0%float zero3 zero3
             (example_telemetry [10020]%float [gravity_reading]) s in
  t0_s_ (state_of o) = 10%float /\ tend_s_ (state_of o) = 10%float
  /\ stored_of (state_of o) = stored_of s
  /\ (forall s', o = Returns tt s' ->
                 nr_knots_so3_ s' = SPLINE_N /\ nr_knots_r3_ s' = SPLINE_N).
Proof.
  intros s.
  apply (InitSpline_on_a_single_timestamp (example_reconstruction [10]%float)
           rigid_identity example_weights 0%float zero3 zero3
           (example_telemetry [10020]%float [gravity_reading]) s 10%float).
  - reflexivity.
  - simpl. discriminate.
  - apply example_views_exist.
  - intros id v Hin Hv. simpl in Hin. destruct Hin as [<- | []].
    simpl in Hv. injection Hv as <-. reflexivity.
  - reflexivity.
Defined.

(** The single view at 10 s: the run returns, with the spline order as knot
    counts. *)
Example InitSpline_single_view_example :
  let o := InitSpline (example_reconstruction [10]%float) rigid_identity
             example_weights 0%float zero3 zero3
             (example_telemetry [10020]%float [gravity_reading])
             (new_calibrator false false) in
  o = Returns tt (state_of o)
  /\ knot_counts_of (state_of o) = (5, 5)
  /\ calib_init_poses_ (state_of o) = [].
Proof. evaluate. Qed.

(** Views at 0, 1 and 2.5 s, and a trajectory that can be evaluated in
    the window [0, 2.5 s) only: the export fails at the last frame. *)
Lemma ToTheiaReconDataset_evaluates_the_spline_at_t_end_witness :
  let D := example_reconstruction [0; 2.5; 1]%float in
  let E := example_windowed_exporter 0 2500000000 in
  let s' := state_of (InitSpline D rigid_identity example_weights 0%float zero3 zero3
                        four_samples (new_calibrator false false)) in
  (forall output_recon' s'',
     ToTheiaReconDataset (E := E) [] s' = Returns output_recon' s'' ->
     exists spline_pose added,
       getPose (Exporter := E) (trajectory_ s') 2500000000 = Some spline_pose
       /\ output_recon' = [] ++ added
       /\ length added = length (view_timestamps D)
       /\ In (exported_view (E := E) spline_pose 2500000000) added)
  /\ (getPose (Exporter := E) (trajectory_ s') 2500000000 = None ->
      exists u s'', ToTheiaReconDataset (E := E) [] s' = Undefined u s'').
Proof.
  intros D E s'.
  apply (ToTheiaReconDataset_evaluates_the_spline_at_t_end (E := E) D rigid_identity
           example_weights 0%float zero3 zero3 four_samples
           (new_calibrator false false) [] 2500000000).
  - reflexivity.
  - simpl. discriminate.
  - apply example_views_exist.
  - simpl. repeat constructor.
  - vm_compute. reflexivity.
Defined.

Example ToTheiaReconDataset_windowed_example :
  let s' := state_of (InitSpline (example_reconstruction [0; 2.5; 1]%float)
                        rigid_identity example_weights 0%float zero3 zero3
                        four_samples (new_calibrator false false)) in
  getPose (Exporter := example_windowed_exporter 0 2500000000) (trajectory_ s') 1000000000
  = Some rigid_identity
  /\ getPose (Exporter := example_windowed_exporter 0 2500000000) (trajectory_ s') 2500000000
     = None
  /\ ToTheiaReconDataset (E := example_windowed_exporter 0 2500000000) [] s'
     = Undefined OutOfRange s'.
Proof. evaluate. Qed.

(** The views at 0, 1 and 2.5 s are written in this order; the stored poses
    are those of the views at 0 and 1 s. *)
Example ToTheiaReconDataset_example :
  let s' := state_of (InitSpline (example_reconstruction [0; 2.5; 1]%float)
                        rigid_identity example_weights 0%float zero3 zero3
                        four_samples (new_calibrator false false)) in
  map view_name_ns (written (ToTheiaReconDataset [] s')) = [0; 1000000000; 2500000000]
  /\ map (fun kp => frame_id (fst kp)) (calib_init_poses_ s') = [0; 1000000000].
Proof. evaluate. Qed.

(** Two camera timestamps in the same nanosecond: the second [AddView] is
    refused by the example exporter, and the null view is dereferenced. *)
Example ToTheiaReconDataset_same_nanosecond_example :
  exists s',
    ToTheiaReconDataset []
      (set_cam_timestamps_ [10; 10.0000000001]%float (new_calibrator false false))
    = Undefined NullPointer s'.
Proof. eexists. vm_compute. reflexivity. Qed.

Section BoardTypeExamples.
Import String BoardExtractor.
Local Open Scope string_scope.

Example StringToBoardType_examples :
  StringToBoardType "charuco" = Some CHARUCO
  /\ StringToBoardType "radon" = Some RADON
  /\ StringToBoardType "Charuco" = None
  /\ StringToBoardType "board" = None.
Proof. evaluate. Qed.

End BoardTypeExamples.

Lemma InitSpline_sets_up_the_trajectory_witness :
  let D := example_reconstruction [0; 2.5; 1]%float in
  let s' := state_of (InitSpline D rigid_identity example_weights 0%float zero3 zero3
                        four_samples (new_calibrator false false)) in
  spline_weight_data_ s' = example_weights /\ T_i_c_init_ s' = rigid_identity
  /\ rs_line_delay (trajectory_ s') = Some (inital_cam_line_delay_s_ s')
  /\ calib (trajectory_ s') = Some D
  /\ T_i_c (trajectory_ s') = Some rigid_identity
  /\ knots (trajectory_ s')
     = Some (spline_init_poses_ s', nr_knots_so3_ s', nr_knots_r3_ s')
  /\ exists start_ns so3_ns r3_ns,
       Double.to_int64 (t0_s_ s' * 1e9) = Some start_ns
       /\ Double.to_int64 (dt_so3 example_weights * 1e9) = Some so3_ns
       /\ Double.to_int64 (dt_r3 example_weights * 1e9) = Some r3_ns
       /\ knot_times (trajectory_ s') = Some (so3_ns, r3_ns, start_ns).
Proof.
  intros D s'.
  apply (InitSpline_sets_up_the_trajectory D rigid_identity example_weights 0%float
           zero3 zero3 four_samples (new_calibrator false false) s').
  vm_compute. reflexivity.
Defined.
